(** * Handwriting-synthesis GUI: the generation pipeline of [gui.py]

    A shallow embedding of the text intake ([add_to_queue],
    [generate_dialog]), of the line preparation ([split_string], the
    wrapping loop of [generate_writing]), of the page layout (the
    composition loop of [generate_writing]) and of the queue chaining
    ([process_queue], [process_next_queue_item]), with the properties the
    specification states about them.

    Python strings are lists of characters; characters are 8-bit code
    points.  Pixel coordinates are integers, except the horizontal position
    of a line, which the code computes with a true division and which is
    therefore a rational here. *)

From Stdlib Require Import List Bool Arith ZArith QArith Lia Ascii.
From Stdlib Require String DecimalString.
Import ListNotations.

Set Implicit Arguments.
Close Scope Q_scope.
Import String.StringSyntax.
Delimit Scope string_scope with string.

(* ===================================================================== *)
(** ** Strings *)
(* ===================================================================== *)

Definition str := list ascii.

(** A string literal. *)
Definition lit (s : String.string) : str := String.list_ascii_of_string s.
Arguments lit s%_string.

Definition chr (n : nat) : ascii := ascii_of_nat n.

Definition str_eqb (a b : str) : bool :=
  if list_eq_dec ascii_dec a b then true else false.

Definition char_in (c : ascii) (l : str) : bool :=
  existsb (Ascii.eqb c) l.

(** [str(n)] for a natural number: its decimal digits. *)
Definition str_of_nat (n : nat) : str :=
  lit (DecimalString.NilEmpty.string_of_uint (Nat.to_uint n)).

(** [c.isspace()] on the code points below 256. *)
Definition py_isspace (c : ascii) : bool :=
  let n := nat_of_ascii c in
  ((9 <=? n) && (n <=? 13)) || ((28 <=? n) && (n <=? 32))
  || (n =? 133) || (n =? 160).

(** [c.isalnum()] on the code points below 256. *)
Definition py_isalnum (c : ascii) : bool :=
  let n := nat_of_ascii c in
  ((48 <=? n) && (n <=? 57)) || ((65 <=? n) && (n <=? 90))
  || ((97 <=? n) && (n <=? 122))
  || (n =? 170) || (n =? 178) || (n =? 179) || (n =? 181) || (n =? 185)
  || (n =? 186) || ((188 <=? n) && (n <=? 190))
  || ((192 <=? n) && (n <=? 214)) || ((216 <=? n) && (n <=? 246))
  || (248 <=? n).

(** [s.replace(old, new)] for one-character [old] and [new]. *)
Definition replace (old new : ascii) (s : str) : str :=
  map (fun c => if Ascii.eqb c old then new else c) s.

(** [s.split()]: the maximal runs of non-whitespace characters.  [cur] is
    the run being read, most recent character first. *)
Fixpoint split_from (cur : str) (s : str) : list str :=
  match s with
  | [] => match cur with [] => [] | _ => [rev cur] end
  | c :: s' =>
      if py_isspace c
      then match cur with
           | [] => split_from [] s'
           | _ => rev cur :: split_from [] s'
           end
      else split_from (c :: cur) s'
  end.

Definition split (s : str) : list str := split_from [] s.

(** ["".join(parts)]. *)
Definition join (parts : list str) : str := concat parts.

Fixpoint lstrip (s : str) : str :=
  match s with
  | c :: s' => if py_isspace c then lstrip s' else s
  | [] => []
  end.

Definition rstrip (s : str) : str := rev (lstrip (rev s)).

(** [s.strip()]. *)
Definition strip (s : str) : str := rstrip (lstrip s).

(* ===================================================================== *)
(** ** Text intake: [MyWindow.valid_chars], [add_to_queue] and the
       validation of [generate_dialog] *)
(* ===================================================================== *)

(** [self.valid_chars] (line 164), in the order of the source. *)
Definition valid_chars : str :=
  [chr 34] ++ lit "6Gb)I0Oc9L8tqs" ++ [chr 0]
  ++ lit "USWak2BM7TgfFPlEvyjYJ-R!#.or?C'5mh4Aupwn(Vd1,Hix;:zK3N De"
  ++ [chr 10].

(** [inputtext.get(...).replace('Q', 'q').replace('X', 'x')]. *)
Definition lower_QX (s : str) : str :=
  replace "X"%char "x"%char (replace "Q"%char "q"%char s).

(** What the message boxes of the intake report. *)
Inductive IntakeError :=
| NoText
| InvalidSymbol (letter : ascii).

(** The first letter of [s] that is not in [valid_chars]. *)
Fixpoint first_invalid (s : str) : option ascii :=
  match s with
  | [] => None
  | letter :: s' =>
      if char_in letter valid_chars then first_invalid s' else Some letter
  end.

(** The filtering loops: keep the letters that are in [valid_chars]. *)
Definition filter_valid (s : str) : str :=
  filter (fun letter => char_in letter valid_chars) s.

Record QueueItem := mkQueueItem { qi_text : str; qi_name : str }.

(** [QueueItem.__init__]: a given name is kept, an empty one is replaced
    by the first 20 characters of the stripped text. *)
Definition new_QueueItem (text name : str) : QueueItem :=
  match name with
  | _ :: _ => mkQueueItem text name
  | [] =>
      let preview := firstn 20 (strip text) in
      let preview :=
        if 20 <? length (strip text) then preview ++ lit "..." else preview in
      mkQueueItem text preview
  end.

(** The text that lines 1559-1597 of [generate_dialog] leave in
    [self.text] for a direct run, or the error they report. *)
Definition generate_dialog_text (auto_remove_invalid : bool) (inputtext : str)
  : IntakeError + str :=
  let text := lower_QX inputtext in
  if length (join (split text)) =? 0 then inl NoText
  else if auto_remove_invalid then inr (filter_valid text)
  else match first_invalid text with
       | Some letter => inl (InvalidSymbol letter)
       | None => inr text
       end.

(** [add_to_queue]: the queue after the call, or the error reported. *)
Definition add_to_queue (auto_remove_invalid : bool) (inputtext name_var : str)
  (text_queue : list QueueItem) : IntakeError + list QueueItem :=
  let text := lower_QX inputtext in
  if length (join (split text)) =? 0 then inl NoText
  else
    let checked :=
      if negb auto_remove_invalid
      then match first_invalid text with
           | Some letter => inl (InvalidSymbol letter)
           | None => inr text
           end
      else inr (filter_valid text) in
    match checked with
    | inl e => inl e
    | inr text => inr (text_queue ++ [new_QueueItem text (strip name_var)])
    end.

(* ===================================================================== *)
(** ** Line wrapping: [split_string], that is [textwrap.wrap] with the
       default options of [TextWrapper] *)
(* ===================================================================== *)

Module textwrap.

(** [_whitespace]: tab, newline, vertical tab, form feed, return, space. *)
Definition _whitespace : str := [chr 9; chr 10; chr 11; chr 12; chr 13; chr 32].

Definition is_ws (c : ascii) : bool := char_in c _whitespace.

(** [text.expandtabs(8)], [col] being the current column. *)
Fixpoint expandtabs_from (col : nat) (s : str) : str :=
  match s with
  | [] => []
  | c :: s' =>
      if Ascii.eqb c (chr 9)
      then let incr := 8 - col mod 8 in
           repeat " "%char incr ++ expandtabs_from (col + incr) s'
      else if Ascii.eqb c (chr 10) || Ascii.eqb c (chr 13)
           then c :: expandtabs_from 0 s'
           else c :: expandtabs_from (S col) s'
  end.

(** [_munge_whitespace] with [expand_tabs] and [replace_whitespace]. *)
Definition _munge_whitespace (text : str) : str :=
  map (fun c => if is_ws c then " "%char else c) (expandtabs_from 0 text).

(** The character classes of [wordsep_re]: [\d], [\w] and [[^\d\W]]. *)
Definition is_digit (c : ascii) : bool :=
  let n := nat_of_ascii c in (48 <=? n) && (n <=? 57).

Definition is_word (c : ascii) : bool := py_isalnum c || Ascii.eqb c "_"%char.

Definition is_letter (c : ascii) : bool := is_word c && negb (is_digit c).

Definition is_word_punct (c : ascii) : bool :=
  is_word c || char_in c ([chr 34] ++ lit "!'&.,?").

Definition is_dash (c : ascii) : bool := Ascii.eqb c "-"%char.

Fixpoint count_dashes (s : str) : nat :=
  match s with
  | c :: s' => if is_dash c then S (count_dashes s') else 0
  | [] => 0
  end.

(** [-{2,}] followed by a word character. *)
Definition emdash_ahead (s : str) : bool :=
  let d := count_dashes s in
  (2 <=? d) && match skipn d s with c :: _ => is_word c | [] => false end.

(** The lookahead [letter -? letter]. *)
Definition hyphen_ahead (s : str) : bool :=
  match s with
  | a :: b :: s' =>
      is_letter a
      && (is_letter b
          || (is_dash b && match s' with c :: _ => is_letter c | [] => false end))
  | _ => false
  end.

(** The lookbehinds of a hyphen: two letters, or letter, hyphen, letter.
    [before] is the text before the hyphen, last character first. *)
Definition hyphen_behind (before : str) : bool :=
  match before with
  | a :: b :: before' =>
      is_letter a
      && (is_letter b
          || (is_dash b
              && match before' with c :: _ => is_letter c | [] => false end))
  | _ => false
  end.

(** The third alternative of [wordsep_re], after its first character: how
    many more characters the lazy [nws+?] and the hyphen take. *)
Fixpoint word_more (before s : str) : nat :=
  match s with
  | [] => 0
  | c :: s' =>
      if is_dash c && hyphen_behind before && hyphen_ahead s' then 1
      else if is_ws c then 0
      else if match before with b :: _ => is_word_punct b | [] => false end
              && emdash_ahead s then 0
      else S (word_more (c :: before) s')
  end.

Fixpoint count_ws (s : str) : nat :=
  match s with
  | c :: s' => if is_ws c then S (count_ws s') else 0
  | [] => 0
  end.

(** The length of the match of [wordsep_re] at the start of [s]. *)
Definition match_len (before s : str) : nat :=
  match s with
  | [] => 0
  | c :: s' =>
      if is_ws c then count_ws s
      else if match before with b :: _ => is_word_punct b | [] => false end
              && emdash_ahead s then count_dashes s
      else S (word_more (c :: before) s')
  end.

Fixpoint wordsep_split (fuel : nat) (before s : str) : list str :=
  match fuel, s with
  | S fuel', _ :: _ =>
      let n := match_len before s in
      firstn n s :: wordsep_split fuel' (rev (firstn n s) ++ before) (skipn n s)
  | _, _ => []
  end.

(** [_split] with [break_on_hyphens]: the non-empty pieces of
    [wordsep_re.split(text)]. *)
Definition _split (text : str) : list str :=
  filter (fun c => negb (length c =? 0)) (wordsep_split (length text) [] text).

(** [chunk.rfind('-', 0, stop)]: the last hyphen among the first [stop]
    characters, when there is one. *)
Fixpoint rfind_dash_from (i stop : nat) (chunk : str) : option nat :=
  match stop, chunk with
  | S stop', c :: chunk' =>
      match rfind_dash_from (S i) stop' chunk' with
      | Some j => Some j
      | None => if is_dash c then Some i else None
      end
  | _, _ => None
  end.

Definition rfind_dash (chunk : str) (stop : nat) : option nat :=
  rfind_dash_from 0 stop chunk.

(** [_handle_long_word] with [break_long_words] and [break_on_hyphens]:
    the piece put on the current line and what is left of the chunk. *)
Definition _handle_long_word (chunk : str) (cur_len width : nat) : str * str :=
  let space_left := if width <? 1 then 1 else width - cur_len in
  let end_ :=
    if space_left <? length chunk
    then match rfind_dash chunk space_left with
         | Some hyphen =>
             if (0 <? hyphen)
                && existsb (fun c => negb (is_dash c)) (firstn hyphen chunk)
             then hyphen + 1 else space_left
         | None => space_left
         end
    else space_left in
  (firstn end_ chunk, skipn end_ chunk).

(** [chunk.strip() == '']. *)
Definition blank (chunk : str) : bool := forallb py_isspace chunk.

(** The inner [while] of [_wrap_chunks]: move chunks to the current line
    while they fit.  [cur_line] is in order. *)
Fixpoint take_fitting (width : nat) (cur_line : list str) (cur_len : nat)
  (chunks : list str) : list str * nat * list str :=
  match chunks with
  | c :: chunks' =>
      if cur_len + length c <=? width
      then take_fitting width (cur_line ++ [c]) (cur_len + length c) chunks'
      else (cur_line, cur_len, chunks)
  | [] => (cur_line, cur_len, [])
  end.

(** [del cur_line[-1]] when the last chunk of the line is blank. *)
Definition drop_trailing_blank (cur_line : list str) : list str :=
  match rev cur_line with
  | last :: _ => if blank last then removelast cur_line else cur_line
  | [] => cur_line
  end.

(** One iteration of the outer [while] of [_wrap_chunks]: the line it
    appends, if any, and the chunks left.  [chunks] is the stack, its top
    first; [started] says whether [lines] is non-empty. *)
Definition wrap_one (width : nat) (started : bool) (chunks : list str)
  : option str * list str :=
  let chunks :=
    match chunks with
    | c :: chunks' => if blank c && started then chunks' else chunks
    | [] => chunks
    end in
  let '(cur_line, cur_len, chunks) := take_fitting width [] 0 chunks in
  let '(cur_line, chunks) :=
    match chunks with
    | c :: chunks' =>
        if width <? length c
        then let '(piece, remainder) := _handle_long_word c cur_len width in
             (cur_line ++ [piece], remainder :: chunks')
        else (cur_line, chunks)
    | [] => (cur_line, chunks)
    end in
  let cur_line := drop_trailing_blank cur_line in
  match cur_line with
  | [] => (None, chunks)
  | _ => (Some (join cur_line), chunks)
  end.

(** The outer [while]; it stops with the chunks that are left when the
    fuel runs out. *)
Fixpoint wrap_loop (fuel width : nat) (lines : list str) (chunks : list str)
  : list str * list str :=
  match fuel, chunks with
  | _, [] => (lines, [])
  | 0, _ => (lines, chunks)
  | S fuel', _ =>
      let '(line, chunks') :=
        wrap_one width (negb (length lines =? 0)) chunks in
      wrap_loop fuel' width
        (match line with Some l => lines ++ [l] | None => lines end) chunks'
  end.

(** Every iteration removes a chunk or shortens one. *)
Definition weight (chunks : list str) : nat :=
  fold_right (fun c n => S (length c) + n) 0 chunks.

Inductive ValueError := invalid_width.

(** [_wrap_chunks]. *)
Definition _wrap_chunks (width : Z) (chunks : list str)
  : ValueError + list str :=
  if (width <=? 0)%Z then inl invalid_width
  else inr (fst (wrap_loop (weight chunks) (Z.to_nat width) [] chunks)).

(** [TextWrapper(width=width).wrap(text)]. *)
Definition wrap (text : str) (width : Z) : ValueError + list str :=
  _wrap_chunks width (_split (_munge_whitespace text)).

End textwrap.

(** [split_string] (lines 1642-1643). *)
Definition split_string (text : str) (length : Z)
  : textwrap.ValueError + list str :=
  textwrap.wrap text length.

(** [text.splitlines()]: the line boundaries below code point 256 are
    [\n], [\r], [\r\n], [\x0b], [\x0c], [\x1c], [\x1d], [\x1e] and [\x85].
    [after_cr] says that the last character read was a [\r]. *)
Definition is_linebreak (c : ascii) : bool :=
  let n := nat_of_ascii c in
  ((10 <=? n) && (n <=? 13)) || ((28 <=? n) && (n <=? 30)) || (n =? 133).

Fixpoint splitlines_from (after_cr : bool) (cur : str) (s : str) : list str :=
  match s with
  | [] => match cur with [] => [] | _ => [rev cur] end
  | c :: s' =>
      if after_cr && Ascii.eqb c (chr 10) then splitlines_from false cur s'
      else if is_linebreak c
           then rev cur :: splitlines_from (Ascii.eqb c (chr 13)) [] s'
           else splitlines_from false (c :: cur) s'
  end.

Definition splitlines (s : str) : list str := splitlines_from false [] s.

(** The wrapping loop of [generate_writing] (lines 1676-1685). *)
Fixpoint prepare_lines (lines : list str) (max_width : Z)
  : textwrap.ValueError + list str :=
  match lines with
  | [] => inr []
  | line :: lines' =>
      let here :=
        if (max_width <? Z.of_nat (length line))%Z
        then split_string line max_width
        else inr [match line with [] => lit " " | _ => line end] in
      match here with
      | inl e => inl e
      | inr sublines =>
          match prepare_lines lines' max_width with
          | inl e => inl e
          | inr more => inr (sublines ++ more)
          end
      end
  end.

(* ===================================================================== *)
(** ** Page layout: the placement of one line (lines 1762-1779) *)
(* ===================================================================== *)

(** [int(x)]: truncation toward zero. *)
Definition int (x : Q) : Z := Z.quot (Qnum x) (Zpos (Qden x)).

Definition Qltb (a b : Q) : bool := negb (Qle_bool b a).

(** [(img_left, img_top, img_right, img_bottom)]. *)
Definition Bounds := (Z * Z * Z * Z)%type.

(** Lines 1763-1765: [x_pos] before the obstacle is looked at.  The
    division of the ['Middle'] case is a true division. *)
Definition default_x (orientation : str) (line_width : Z) : Q :=
  if str_eqb orientation (lit "Right") then inject_Z (2000 - line_width)
  else if str_eqb orientation (lit "Middle")
       then (inject_Z 1000 - inject_Z line_width / inject_Z 2)%Q
       else inject_Z 400.

(** Lines 1771-1778: the position of a line whose default extent meets
    the obstacle's, by wrap style. *)
Definition reposition (wrap_style : str) (bounds : Bounds) (line_width : Z)
  : Q :=
  let '(img_left, img_top, img_right, img_bottom) := bounds in
  if str_eqb wrap_style (lit "left")
  then inject_Z (img_left - line_width - 20)
  else if str_eqb wrap_style (lit "right")
       then inject_Z (img_right + 20)
       else if (2000 - img_right <? img_left)%Z
            then inject_Z (img_left - line_width - 20)
            else inject_Z (img_right + 20).

(** Lines 1762-1778: [(x_pos, y_pos)] of line [i], whose raster is
    [line_width] by [line_height]. *)
Definition place_line (line_spacing : Z) (orientation wrap_style : str)
  (image_bounds : option Bounds) (use_image_placement : bool)
  (i : nat) (line_width line_height : Z) : Q * Z :=
  let y_pos := (line_spacing * (Z.of_nat i + 1))%Z in
  let x_pos := default_x orientation line_width in
  let x_pos :=
    match image_bounds with
    | Some (img_left, img_top, img_right, img_bottom) =>
        if use_image_placement
        then if (img_top <=? y_pos + line_height)%Z && (y_pos <=? img_bottom)%Z
             then if Qltb x_pos (inject_Z img_right)
                     && Qltb (inject_Z img_left) (x_pos + inject_Z line_width)%Q
                  then reposition wrap_style
                         (img_left, img_top, img_right, img_bottom) line_width
                  else x_pos
             else x_pos
        else x_pos
    | None => x_pos
    end in
  (x_pos, y_pos).

(* ===================================================================== *)
(** ** The controller's settings, the external collaborators and the
       files of a run *)
(* ===================================================================== *)

(** The widget variables and attributes of [MyWindow] that
    [generate_writing] reads.  [linewidthscale] and [lineheightscale] hold
    the rounded slider positions ([round(self....get())]);
    [custom_width_var] holds [int(self.custom_width_var.get())], or [None]
    when that conversion raises. *)
Record Settings := {
  legibilityscale : Q;
  widthscale : Q;
  currentstyle : Z;
  stroke_color : str;
  linewidthscale : Z;
  custom_width_var : option Z;
  lineheightscale : Z;
  orientation : str;
  image_enabled : bool;
  image_path : option str;
  image_x : Z;
  image_y : Z;
  image_width : Z;
  image_height : Z;
  image_wrap_style : str;
  background_type : str;
  background_color : str;
  background_image_path : option str;
  export_format : str;
  jpg_quality : Z
}.

(** [get_max_line_width] (lines 1408-1416). *)
Definition get_max_line_width (s : Settings) : Z :=
  match custom_width_var s with
  | Some custom_value => Z.max (linewidthscale s) custom_value
  | None => linewidthscale s
  end.

(** The places of [generate_writing] where the settings are read.
    [AtStart] is the moment [generate_dialog] starts the run; the worker
    reads nothing there. *)
Inductive ReadPoint :=
| AtStart
| AtPrepare             (* 1667-1677: both sliders, the maximal line width *)
| AtSynth (i : nat)     (* 1705-1706: style and stroke colour of line [i] *)
| AtCombine             (* 1737-1751: line spacing, image placement *)
| AtPlace (i : nat)     (* 1764-1770: alignment and wrap style of line [i] *)
| AtEncode.             (* 1796-1819: background, format, quality *)

Inductive Stage := Synthesizing | Rasterizing.

(** The places where [self._cancel] is polled. *)
Inductive PollPoint :=
| PollInit                          (* 1663 *)
| PollLine (s : Stage) (i : nat)    (* 1693 and 1719 *)
| PollCombine                       (* 1735 *)
| PollTrim.                         (* 1781 *)

(** The places where the worker uses the attribute [self.tempdir], which
    every run assigns on its line 1673. *)
Inductive TempdirUse :=
| ToCreate                          (* 1674 *)
| ToBailOut (p : PollPoint)         (* 1648 *)
| ToSynthesize (i : nat)            (* 1702 *)
| ToRasterize (i : nat)             (* 1728 and 1730 *)
| ToCompose (i : nat)               (* 1761 *)
| ToCleanUp.                        (* 1836 *)

(** The rest of the program as the worker of one run sees it: the settings
    at each read, the cancel flag at each poll and, at each use of
    [self.tempdir], the directory that a run started since the previous use
    has assigned to the attribute and created (lines 1673-1674 of that
    run), if there is one.  Nothing keeps a second run from starting: a
    direct run disables the generate button only (line 1560), and
    [process_queue] does not look at a run in progress. *)
Record Controller := {
  live : ReadPoint -> Settings;
  cancel : PollPoint -> bool;
  reassigned : TempdirUse -> option str
}.

(** The arguments of one [Hand.write] call: the drawing it saves is a
    function of them.  The sliders stand for the bias and the stroke
    width computed from them on lines 1667-1668. *)
Record Drawing := {
  d_line : str;
  d_legibility : Q;
  d_widthscale : Q;
  d_style : Z;
  d_color : str
}.

(** A line raster: what it was made from ([None] for the blank raster of
    an empty line) and its size. *)
Record LineImage := {
  li_drawing : option Drawing;
  li_width : Z;
  li_height : Z
}.

(** The collaborators of one run, and its random file identifier.  An
    error message stands for the exception raised with it.  [hand_write]
    raises before it saves anything; [svg2png_missing] is what [svg2png]
    does when its input file does not exist: raise, or return without
    writing a raster. *)
Record World := {
  fileid : str;
  hand_write : nat -> Drawing -> option str;
  svg2png : Drawing -> str + (Z * Z);
  svg2png_missing : option str;
  path_exists : str -> bool;
  open_placed_image : str -> option str;
  fulltrim : option str;
  open_background : str -> option str;
  save : option str;
  PDF_AVAILABLE : bool
}.

(** The page before trimming: its height, the pasted picture and the
    pasted lines, in pasting order. *)
Record Canvas := {
  cv_height : Z;
  cv_picture : option (str * Bounds);
  cv_lines : list (Z * Z * LineImage)
}.

Inductive Background :=
| Transparent
| Solid (color : str)
| Picture (path : str).

(** An output file: the trimmed and padded canvas over its background,
    in the given format. *)
Record Document := {
  doc_canvas : Canvas;
  doc_background : Background;
  doc_format : str;
  doc_quality : option Z
}.

Record TempDir := {
  svgs : list (nat * Drawing);
  pngs : list (nat * LineImage)
}.

Record FileSystem := {
  tempdirs : list (str * TempDir);
  outputs : list (str * Document)
}.

Fixpoint lookup_nat {A} (i : nat) (l : list (nat * A)) : option A :=
  match l with
  | [] => None
  | (j, a) :: l' => if i =? j then Some a else lookup_nat i l'
  end.

Fixpoint lookup_str {A} (k : str) (l : list (str * A)) : option A :=
  match l with
  | [] => None
  | (k', a) :: l' => if str_eqb k k' then Some a else lookup_str k l'
  end.

Definition remove_str {A} (k : str) (l : list (str * A)) : list (str * A) :=
  filter (fun e => negb (str_eqb k (fst e))) l.

(** [os.makedirs(d, exist_ok=True)]. *)
Definition makedirs (d : str) (fs : FileSystem) : FileSystem :=
  match lookup_str d (tempdirs fs) with
  | Some _ => fs
  | None => {| tempdirs := (d, {| svgs := []; pngs := [] |}) :: tempdirs fs;
               outputs := outputs fs |}
  end.

(** [shutil.rmtree(d, ignore_errors=True)]. *)
Definition rmtree (d : str) (fs : FileSystem) : FileSystem :=
  {| tempdirs := remove_str d (tempdirs fs); outputs := outputs fs |}.

(** Writing a file into directory [d]; nothing is written when the
    directory does not exist. *)
Definition in_dir (d : str) (f : TempDir -> TempDir) (fs : FileSystem)
  : FileSystem :=
  match lookup_str d (tempdirs fs) with
  | Some t => {| tempdirs := (d, f t) :: remove_str d (tempdirs fs);
                 outputs := outputs fs |}
  | None => fs
  end.

Definition write_svg (d : str) (i : nat) (x : Drawing) : FileSystem -> FileSystem :=
  in_dir d (fun t => {| svgs := (i, x) :: svgs t; pngs := pngs t |}).

Definition write_png (d : str) (i : nat) (x : LineImage) : FileSystem -> FileSystem :=
  in_dir d (fun t => {| svgs := svgs t; pngs := (i, x) :: pngs t |}).

Definition read_svg (d : str) (i : nat) (fs : FileSystem) : option Drawing :=
  match lookup_str d (tempdirs fs) with
  | Some t => lookup_nat i (svgs t)
  | None => None
  end.

Definition read_png (d : str) (i : nat) (fs : FileSystem) : option LineImage :=
  match lookup_str d (tempdirs fs) with
  | Some t => lookup_nat i (pngs t)
  | None => None
  end.

Definition write_output (path : str) (x : Document) (fs : FileSystem)
  : FileSystem :=
  {| tempdirs := tempdirs fs; outputs := (path, x) :: outputs fs |}.

(* ===================================================================== *)
(** ** The window's state and the worker's effects *)
(* ===================================================================== *)

(** How a run of [generate_writing] ends: it reaches its last line, it
    returns early after [bail_out], or an exception leaves it. *)
Inductive Exception :=
| ValueError
| ZeroDivisionError
| IndexError
| AttributeError
| FileNotFoundError (path : str)
| External (msg : str).

Inductive Outcome :=
| Finished
| Cancelled
| Crashed (e : Exception).

(** The attributes of [MyWindow] the pipeline and the queue use, and the
    file system.  A button is [true] when its state is normal,
    [generatedialog] when the dialog exists; [queue_buttons] stands for the
    add, remove and clear buttons, which change together.  [preview_info]
    keeps [show_preview] and [output_files].  [outcomes] is a history
    variable: how each run so far ended, oldest first. *)
Record MyWindow := {
  text : str;
  text_queue : list QueueItem;
  processing_queue : bool;
  current_queue_index : nat;
  _errors : list str;
  tempdir : option str;
  generatebutton : bool;
  queue_buttons : bool;
  process_queue_btn : bool;
  generatedialog : bool;
  preview_info : option (bool * list str);
  fs : FileSystem;
  outcomes : list Outcome
}.

Definition set_text (x : str) (st : MyWindow) : MyWindow :=
  {| text := x;
     text_queue := text_queue st;
     processing_queue := processing_queue st;
     current_queue_index := current_queue_index st;
     _errors := _errors st;
     tempdir := tempdir st;
     generatebutton := generatebutton st;
     queue_buttons := queue_buttons st;
     process_queue_btn := process_queue_btn st;
     generatedialog := generatedialog st;
     preview_info := preview_info st;
     fs := fs st;
     outcomes := outcomes st |}.

Definition set_text_queue (x : list QueueItem) (st : MyWindow) : MyWindow :=
  {| text := text st;
     text_queue := x;
     processing_queue := processing_queue st;
     current_queue_index := current_queue_index st;
     _errors := _errors st;
     tempdir := tempdir st;
     generatebutton := generatebutton st;
     queue_buttons := queue_buttons st;
     process_queue_btn := process_queue_btn st;
     generatedialog := generatedialog st;
     preview_info := preview_info st;
     fs := fs st;
     outcomes := outcomes st |}.

Definition set_processing_queue (x : bool) (st : MyWindow) : MyWindow :=
  {| text := text st;
     text_queue := text_queue st;
     processing_queue := x;
     current_queue_index := current_queue_index st;
     _errors := _errors st;
     tempdir := tempdir st;
     generatebutton := generatebutton st;
     queue_buttons := queue_buttons st;
     process_queue_btn := process_queue_btn st;
     generatedialog := generatedialog st;
     preview_info := preview_info st;
     fs := fs st;
     outcomes := outcomes st |}.

Definition set_current_queue_index (x : nat) (st : MyWindow) : MyWindow :=
  {| text := text st;
     text_queue := text_queue st;
     processing_queue := processing_queue st;
     current_queue_index := x;
     _errors := _errors st;
     tempdir := tempdir st;
     generatebutton := generatebutton st;
     queue_buttons := queue_buttons st;
     process_queue_btn := process_queue_btn st;
     generatedialog := generatedialog st;
     preview_info := preview_info st;
     fs := fs st;
     outcomes := outcomes st |}.

Definition set_errors (x : list str) (st : MyWindow) : MyWindow :=
  {| text := text st;
     text_queue := text_queue st;
     processing_queue := processing_queue st;
     current_queue_index := current_queue_index st;
     _errors := x;
     tempdir := tempdir st;
     generatebutton := generatebutton st;
     queue_buttons := queue_buttons st;
     process_queue_btn := process_queue_btn st;
     generatedialog := generatedialog st;
     preview_info := preview_info st;
     fs := fs st;
     outcomes := outcomes st |}.

Definition set_tempdir (x : option str) (st : MyWindow) : MyWindow :=
  {| text := text st;
     text_queue := text_queue st;
     processing_queue := processing_queue st;
     current_queue_index := current_queue_index st;
     _errors := _errors st;
     tempdir := x;
     generatebutton := generatebutton st;
     queue_buttons := queue_buttons st;
     process_queue_btn := process_queue_btn st;
     generatedialog := generatedialog st;
     preview_info := preview_info st;
     fs := fs st;
     outcomes := outcomes st |}.

Definition set_generatebutton (x : bool) (st : MyWindow) : MyWindow :=
  {| text := text st;
     text_queue := text_queue st;
     processing_queue := processing_queue st;
     current_queue_index := current_queue_index st;
     _errors := _errors st;
     tempdir := tempdir st;
     generatebutton := x;
     queue_buttons := queue_buttons st;
     process_queue_btn := process_queue_btn st;
     generatedialog := generatedialog st;
     preview_info := preview_info st;
     fs := fs st;
     outcomes := outcomes st |}.

Definition set_queue_buttons (x : bool) (st : MyWindow) : MyWindow :=
  {| text := text st;
     text_queue := text_queue st;
     processing_queue := processing_queue st;
     current_queue_index := current_queue_index st;
     _errors := _errors st;
     tempdir := tempdir st;
     generatebutton := generatebutton st;
     queue_buttons := x;
     process_queue_btn := process_queue_btn st;
     generatedialog := generatedialog st;
     preview_info := preview_info st;
     fs := fs st;
     outcomes := outcomes st |}.

Definition set_process_queue_btn (x : bool) (st : MyWindow) : MyWindow :=
  {| text := text st;
     text_queue := text_queue st;
     processing_queue := processing_queue st;
     current_queue_index := current_queue_index st;
     _errors := _errors st;
     tempdir := tempdir st;
     generatebutton := generatebutton st;
     queue_buttons := queue_buttons st;
     process_queue_btn := x;
     generatedialog := generatedialog st;
     preview_info := preview_info st;
     fs := fs st;
     outcomes := outcomes st |}.

Definition set_generatedialog (x : bool) (st : MyWindow) : MyWindow :=
  {| text := text st;
     text_queue := text_queue st;
     processing_queue := processing_queue st;
     current_queue_index := current_queue_index st;
     _errors := _errors st;
     tempdir := tempdir st;
     generatebutton := generatebutton st;
     queue_buttons := queue_buttons st;
     process_queue_btn := process_queue_btn st;
     generatedialog := x;
     preview_info := preview_info st;
     fs := fs st;
     outcomes := outcomes st |}.

Definition set_preview_info (x : option (bool * list str)) (st : MyWindow) : MyWindow :=
  {| text := text st;
     text_queue := text_queue st;
     processing_queue := processing_queue st;
     current_queue_index := current_queue_index st;
     _errors := _errors st;
     tempdir := tempdir st;
     generatebutton := generatebutton st;
     queue_buttons := queue_buttons st;
     process_queue_btn := process_queue_btn st;
     generatedialog := generatedialog st;
     preview_info := x;
     fs := fs st;
     outcomes := outcomes st |}.

Definition set_fs (x : FileSystem) (st : MyWindow) : MyWindow :=
  {| text := text st;
     text_queue := text_queue st;
     processing_queue := processing_queue st;
     current_queue_index := current_queue_index st;
     _errors := _errors st;
     tempdir := tempdir st;
     generatebutton := generatebutton st;
     queue_buttons := queue_buttons st;
     process_queue_btn := process_queue_btn st;
     generatedialog := generatedialog st;
     preview_info := preview_info st;
     fs := x;
     outcomes := outcomes st |}.

Definition set_outcomes (x : list Outcome) (st : MyWindow) : MyWindow :=
  {| text := text st;
     text_queue := text_queue st;
     processing_queue := processing_queue st;
     current_queue_index := current_queue_index st;
     _errors := _errors st;
     tempdir := tempdir st;
     generatebutton := generatebutton st;
     queue_buttons := queue_buttons st;
     process_queue_btn := process_queue_btn st;
     generatedialog := generatedialog st;
     preview_info := preview_info st;
     fs := fs st;
     outcomes := x |}.

(** A step of the worker: it changes the window and either goes on with
    a value or stops, by [return] or by an exception. *)
Inductive Stop :=
| Returned
| Raised (e : Exception).

Definition M (A : Type) : Type := MyWindow -> MyWindow * (Stop + A).

Definition ret {A} (a : A) : M A := fun st => (st, inr a).

Definition bind {A B} (m : M A) (k : A -> M B) : M B :=
  fun st =>
    match m st with
    | (st', inr a) => k a st'
    | (st', inl s) => (st', inl s)
    end.

Notation "x <- m ;; k" := (bind m (fun x => k))
  (at level 61, m at next level, right associativity).
Notation "m ;; k" := (bind m (fun _ => k))
  (at level 61, right associativity).

Definition get : M MyWindow := fun st => (st, inr st).

Definition modify (f : MyWindow -> MyWindow) : M unit :=
  fun st => (f st, inr tt).

Definition stop {A} (s : Stop) : M A := fun st => (st, inl s).

Definition raise {A} (e : Exception) : M A := stop (Raised e).

(** [self._errors.append(msg)]. *)
Definition warn (msg : str) : M unit :=
  modify (fun st => set_errors (_errors st ++ [msg]) st).

Definition on_fs (f : FileSystem -> FileSystem) : M unit :=
  modify (fun st => set_fs (f (fs st)) st).

(** [enable_controls] (lines 1533-1540). *)
Definition enable_controls : M unit :=
  modify (fun st =>
    set_process_queue_btn
      (if 0 <? length (text_queue st) then true else process_queue_btn st)
      (set_queue_buttons true (set_generatebutton true st))).

(** [disable_controls] (lines 1525-1531). *)
Definition disable_controls : M unit :=
  modify (fun st =>
    set_process_queue_btn false
      (set_queue_buttons false (set_generatebutton false st))).

(** [os.path.join(tempdir, f'{i}.png')]. *)
Definition png_path (tempdir : str) (i : nat) : str :=
  tempdir ++ lit "/" ++ str_of_nat i ++ lit ".png".

(** The blank raster of an empty line (line 1728). *)
Definition blank_image : LineImage :=
  {| li_drawing := None; li_width := 2000; li_height := 120 |}.

(** A string used as a condition: the empty string is false. *)
Definition truthy (s : option str) : option str :=
  match s with
  | Some (c :: s') => Some (c :: s')
  | _ => None
  end.

(** [resourcepath(f'handsynth-temp-{fileid}')] (line 1673). *)
Definition tempdir_of (w : World) : str := lit "handsynth-temp-" ++ fileid w.

(** The message of the [AttributeError] that reading [self.tempdir]
    raises before any run has assigned it. *)
Definition no_tempdir : str :=
  lit "'MyWindow' object has no attribute 'tempdir'".

Section generate_writing.

Variable w : World.
Variable c : Controller.
Variable is_queue_item : bool.

(** The call [self.process_next_queue_item()] of line 1852. *)
Variable process_next_queue_item : M unit.

(** [self.tempdir] at the use [u]: the attribute is read anew at every
    use, after what a run started meanwhile has made of it. *)
Definition self_tempdir (u : TempdirUse) : M (option str) :=
  match reassigned c u with
  | Some d => modify (set_tempdir (Some d)) ;; on_fs (makedirs d)
  | None => ret tt
  end ;;
  st <- get ;;
  ret (tempdir st).

(** [bail_out] (lines 1646-1657), called at the poll [p].  The
    [AttributeError] of an attribute not yet assigned is passed over
    (lines 1649-1650). *)
Definition bail_out (p : PollPoint) : M unit :=
  dir <- self_tempdir (ToBailOut p) ;;
  match dir with
  | Some d => on_fs (rmtree d)
  | None => ret tt
  end ;;
  modify (set_generatedialog false) ;;
  if negb is_queue_item then modify (set_generatebutton true)
  else enable_controls.

(** [if self._cancel: bail_out(); return]. *)
Definition check_cancel (p : PollPoint) : M unit :=
  if cancel c p then bail_out p ;; stop Returned else ret tt.

(** One pass of the synthesis loop after its poll (lines 1695-1712);
    [s0] holds the sliders read on lines 1667-1668.  Whatever the call
    raises is recorded (line 1710). *)
Definition synthesize_line (s0 : Settings) (i : nat) (line : str) : M unit :=
  let failed e :=
    warn (lit "Synthesize line " ++ str_of_nat (i + 1) ++ lit ": " ++ e) in
  dir <- self_tempdir (ToSynthesize i) ;;
  match dir with
  | Some dir =>
      let s := live c (AtSynth i) in
      let d := {| d_line := line;
                  d_legibility := legibilityscale s0;
                  d_widthscale := widthscale s0;
                  d_style := currentstyle s;
                  d_color := stroke_color s |} in
      match hand_write w i d with
      | None => on_fs (write_svg dir i d)
      | Some e => failed e
      end
  | None => failed no_tempdir
  end.

(** The synthesis loop (lines 1692-1712). *)
Fixpoint synthesize (s0 : Settings) (i : nat) (lines : list str) : M unit :=
  match lines with
  | [] => ret tt
  | line :: lines' =>
      check_cancel (PollLine Synthesizing i) ;;
      synthesize_line s0 i line ;;
      synthesize s0 (S i) lines'
  end.

(** One pass of the rasterization loop after its poll (lines 1721-1733).
    Whatever a call raises is recorded (line 1732). *)
Definition rasterize_line (i : nat) (line : str) : M unit :=
  let failed e :=
    warn (lit "Rasterize line " ++ str_of_nat (i + 1) ++ lit ": " ++ e) in
  dir <- self_tempdir (ToRasterize i) ;;
  st <- get ;;
  match dir with
  | Some dir =>
      if str_eqb line (lit " ") then on_fs (write_png dir i blank_image)
      else
        match read_svg dir i (fs st) with
        | Some d =>
            match svg2png w d with
            | inr (width, height) =>
                on_fs (write_png dir i {| li_drawing := Some d;
                                          li_width := width;
                                          li_height := height |})
            | inl e => failed e
            end
        | None =>
            match svg2png_missing w with
            | Some e => failed e
            | None => ret tt
            end
        end
  | None => failed no_tempdir
  end.

(** The rasterization loop (lines 1718-1733). *)
Fixpoint rasterize (i : nat) (lines : list str) : M unit :=
  match lines with
  | [] => ret tt
  | line :: lines' =>
      check_cancel (PollLine Rasterizing i) ;;
      rasterize_line i line ;;
      rasterize (S i) lines'
  end.

(** The placement of the picture (lines 1743-1758): the picture pasted
    and its bounds. *)
Definition place_image (s : Settings) : M (option (str * Bounds)) :=
  match truthy (image_path s) with
  | Some path =>
      if image_enabled s && path_exists w path
      then match open_placed_image w path with
           | None =>
               ret (Some (path, (image_x s, image_y s,
                                 image_x s + image_width s,
                                 image_y s + image_height s)%Z))
           | Some e => warn (lit "Image placement: " ++ e) ;; ret None
           end
      else ret None
  | None => ret None
  end.

(** The composition loop (lines 1760-1779), from line [i] on, [n] lines
    to go; [pasted] holds the lines already on the canvas. *)
Fixpoint compose (line_spacing : Z) (image_bounds : option Bounds)
  (use_image_placement : bool) (i n : nat) (pasted : list (Z * Z * LineImage))
  : M (list (Z * Z * LineImage)) :=
  match n with
  | 0 => ret pasted
  | S n' =>
      dir <- self_tempdir (ToCompose i) ;;
      st <- get ;;
      match dir with
      | None => raise AttributeError
      | Some dir =>
          match read_png dir i (fs st) with
          | None => raise (FileNotFoundError (png_path dir i))
          | Some line_image =>
              let s := live c (AtPlace i) in
              let '(x_pos, y_pos) :=
                place_line line_spacing (orientation s) (image_wrap_style s)
                  image_bounds use_image_placement i
                  (li_width line_image) (li_height line_image) in
              compose line_spacing image_bounds use_image_placement (S i) n'
                (pasted ++ [(int x_pos, y_pos, line_image)])
          end
      end
  end.

(** Lines 1787-1791. *)
Definition file_suffix : M str :=
  st <- get ;;
  if is_queue_item
  then
    match nth_error (text_queue st) (current_queue_index st) with
    | None => raise IndexError
    | Some item =>
        let safe_name :=
          filter (fun ch => py_isalnum ch || char_in ch (lit "-_ "))
            (qi_name item) in
        ret (match safe_name with
             | [] => lit "-queue-" ++ str_of_nat (current_queue_index st + 1)
             | _ => lit "-" ++ safe_name
             end)
    end
  else ret [].

(** Lines 1800-1811. *)
Definition composite_background (s : Settings) : M Background :=
  if str_eqb (background_type s) (lit "transparent") then ret Transparent
  else
    let bg_color :=
      if str_eqb (background_type s) (lit "white") then lit "white"
      else background_color s in
    match (if str_eqb (background_type s) (lit "image")
           then truthy (background_image_path s) else None) with
    | Some path =>
        match open_background w path with
        | None => ret (Picture path)
        | Some e => warn (lit "Background image: " ++ e) ;; ret (Solid bg_color)
        end
    | None => ret (Solid bg_color)
    end.

(** Lines 1813-1825: the list [output_files]. *)
Definition save_output (s : Settings) (output_path : str) (page : Canvas)
  (bg : Background) : M (list str) :=
  let write ext quality :=
    match save w with
    | Some e => warn (lit "Saving output file: " ++ e) ;; ret []
    | None =>
        on_fs (write_output (output_path ++ ext)
                 {| doc_canvas := page; doc_background := bg;
                    doc_format := export_format s; doc_quality := quality |}) ;;
        ret [output_path ++ ext]
    end in
  if str_eqb (export_format s) (lit "png") then write (lit ".png") None
  else if str_eqb (export_format s) (lit "jpg")
       then write (lit ".jpg") (Some (jpg_quality s))
       else if str_eqb (export_format s) (lit "pdf") && PDF_AVAILABLE w
            then write (lit ".pdf") None
            else ret [].

(** Lines 1659-1846 of [generate_writing]: one run of the pipeline. *)
Definition pipeline : M unit :=
  check_cancel PollInit ;;
  let s0 := live c AtPrepare in
  st <- get ;;
  let lines := splitlines (text st) in
  modify (set_tempdir (Some (tempdir_of w))) ;;
  dir <- self_tempdir ToCreate ;;
  match dir with
  | Some d => on_fs (makedirs d)
  | None => raise AttributeError
  end ;;
  let max_width := get_max_line_width s0 in
  synthesized_lines <-
    match prepare_lines lines max_width with
    | inr l => ret l
    | inl _ => raise ValueError
    end ;;
  (if length synthesized_lines =? 0 then raise ZeroDivisionError else ret tt) ;;
  synthesize s0 0 synthesized_lines ;;
  rasterize 0 synthesized_lines ;;
  check_cancel PollCombine ;;
  let s1 := live c AtCombine in
  let line_spacing := lineheightscale s1 in
  let height := (400 + line_spacing * Z.of_nat (length synthesized_lines))%Z in
  let use_image_placement := image_enabled s1 in
  picture <- place_image s1 ;;
  let image_bounds := option_map snd picture in
  pasted <- compose line_spacing image_bounds use_image_placement
              0 (length synthesized_lines) [] ;;
  check_cancel PollTrim ;;
  match fulltrim w with
  | Some e => raise (External e)
  | None => ret tt
  end ;;
  suffix <- file_suffix ;;
  let output_path := lit "outputs/" ++ fileid w ++ suffix in
  let s2 := live c AtEncode in
  bg <- composite_background s2 ;;
  output_files <-
    save_output s2 output_path
      {| cv_height := height; cv_picture := picture; cv_lines := pasted |} bg ;;
  modify (fun st =>
    set_preview_info
      (Some (negb is_queue_item
             || (current_queue_index st =? length (text_queue st) - 1),
             output_files)) st) ;;
  dir <- self_tempdir ToCleanUp ;;
  match dir with
  | Some d => on_fs (rmtree d)
  | None => raise AttributeError
  end ;;
  modify (fun st =>
    match _errors st with
    | [] => set_generatedialog false st
    | _ => st
    end).

(** Lines 1848-1859: what follows a run that reached its end. *)
Definition advance : M unit :=
  if is_queue_item
  then
    modify (fun st => set_current_queue_index (current_queue_index st + 1) st) ;;
    st <- get ;;
    if current_queue_index st <? length (text_queue st)
    then process_next_queue_item
    else modify (set_processing_queue false) ;; enable_controls
  else modify (set_generatebutton true).

Definition record (o : Outcome) : M unit :=
  modify (fun st => set_outcomes (outcomes st ++ [o]) st).

(** [generate_writing] (lines 1645-1859), with the way the run ended
    recorded in the history before anything follows it. *)
Definition generate_writing : M unit :=
  fun st =>
    match pipeline st with
    | (st', inr _) => (record Finished ;; advance) st'
    | (st', inl Returned) => (record Cancelled ;; stop Returned) st'
    | (st', inl (Raised e)) => (record (Crashed e) ;; raise e) st'
    end.

End generate_writing.

(** [Thread(target=m).start()]: the thread runs to its end; how it stops
    stays in the thread. *)
Definition start_thread (m : M unit) : M unit :=
  fun st => (fst (m st), inr tt).

(** [generate_dialog] (lines 1554-1640).  For a direct run the text comes
    from the text box and is assigned to [self.text] before it is checked
    (line 1561); for a queue item [self.text] is already set. *)
Definition generate_dialog (w : World) (c : Controller) (is_queue_item : bool)
  (auto_remove_invalid : bool) (inputtext : str)
  (process_next_queue_item : M unit) : M unit :=
  modify (set_errors []) ;;
  (if is_queue_item then ret tt
   else
     modify (set_generatebutton false) ;;
     modify (set_text (lower_QX inputtext)) ;;
     match generate_dialog_text auto_remove_invalid inputtext with
     | inl _ => modify (set_generatebutton true) ;; stop Returned
     | inr text => modify (set_text text)
     end) ;;
  modify (set_generatedialog true) ;;
  start_thread (generate_writing w c is_queue_item process_next_queue_item).

(** [process_next_queue_item] (lines 1504-1523).  [runs i] is the world
    and the controller of the run of queue position [i].  Every run that
    is started consumes one unit of fuel. *)
Fixpoint process_next_queue_item (fuel : nat) (runs : nat -> World * Controller)
  : M unit :=
  st <- get ;;
  if length (text_queue st) <=? current_queue_index st
  then modify (set_processing_queue false) ;; enable_controls
  else
    match fuel with
    | 0 => ret tt
    | S fuel' =>
        let queue_item :=
          nth (current_queue_index st) (text_queue st) (mkQueueItem [] []) in
        modify (set_text (qi_text queue_item)) ;;
        generate_dialog (fst (runs (current_queue_index st)))
          (snd (runs (current_queue_index st))) true false []
          (process_next_queue_item fuel' runs)
    end.


(** The window after [MyWindow.__init__], over a given file system. *)
Definition new_window (files : FileSystem) : MyWindow :=
  {| text := [];
     text_queue := [];
     processing_queue := false;
     current_queue_index := 0;
     _errors := [];
     tempdir := None;
     generatebutton := true;
     queue_buttons := true;
     process_queue_btn := false;
     generatedialog := false;
     preview_info := None;
     fs := files;
     outcomes := [] |}.

(* ===================================================================== *)
(** ** Sample inputs *)
(* ===================================================================== *)

(** The settings of a freshly opened window (lines 163-195, 930-984). *)
Definition default_settings : Settings :=
  {| legibilityscale := inject_Z 50;
     widthscale := inject_Z 5;
     currentstyle := 0;
     stroke_color := lit "#003264";
     linewidthscale := 42;
     custom_width_var := Some 42%Z;
     lineheightscale := 80;
     orientation := lit "Left";
     image_enabled := false;
     image_path := None;
     image_x := 400;
     image_y := 200;
     image_width := 300;
     image_height := 300;
     image_wrap_style := lit "both";
     background_type := lit "white";
     background_color := lit "#FFFFFF";
     background_image_path := None;
     export_format := lit "png";
     jpg_quality := 95 |}.

(** A controller that changes nothing and never cancels, with no other
    run. *)
Definition idle (s : Settings) : Controller :=
  {| live := fun _ => s;
     cancel := fun _ => false;
     reassigned := fun _ => None |}.

(** A controller that sets the cancel flag so that poll [p] is the first
    to see it. *)
Definition poll_eqb (p q : PollPoint) : bool :=
  match p, q with
  | PollInit, PollInit => true
  | PollLine Synthesizing i, PollLine Synthesizing j => i =? j
  | PollLine Rasterizing i, PollLine Rasterizing j => i =? j
  | PollCombine, PollCombine => true
  | PollTrim, PollTrim => true
  | _, _ => false
  end.

Definition cancelling_at (p : PollPoint) (s : Settings) : Controller :=
  {| live := fun _ => s; cancel := poll_eqb p; reassigned := fun _ => None |}.

(** The same controller when, before the flag is seen at [p], another run
    has been started and has got as far as creating its directory [d]:
    the queue is started while the direct run is in progress, then the
    user cancels. *)
Definition overtaken_at (p : PollPoint) (d : str) (s : Settings) : Controller :=
  {| live := fun _ => s;
     cancel := poll_eqb p;
     reassigned := fun u =>
       match u with
       | ToBailOut q => if poll_eqb p q then Some d else None
       | _ => None
       end |}.

(** A world in which nothing fails: every drawing is rasterized to 20
    pixels per character by 120. *)
Definition fair_world (id : str) : World :=
  {| fileid := id;
     hand_write := fun _ _ => None;
     svg2png := fun d => inr (20 * Z.of_nat (length (d_line d)), 120)%Z;
     svg2png_missing := Some (lit "no such file");
     path_exists := fun _ => true;
     open_placed_image := fun _ => None;
     fulltrim := None;
     open_background := fun _ => None;
     save := None;
     PDF_AVAILABLE := true |}.

(** The same world, except that [Hand.write] raises on line [k]. *)
Definition failing_on (k : nat) (id : str) : World :=
  {| fileid := id;
     hand_write := fun i _ => if i =? k then Some (lit "boom") else None;
     svg2png := svg2png (fair_world id);
     svg2png_missing := svg2png_missing (fair_world id);
     path_exists := path_exists (fair_world id);
     open_placed_image := open_placed_image (fair_world id);
     fulltrim := fulltrim (fair_world id);
     open_background := open_background (fair_world id);
     save := save (fair_world id);
     PDF_AVAILABLE := PDF_AVAILABLE (fair_world id) |}.

Definition no_files : FileSystem := {| tempdirs := []; outputs := [] |}.

Definition newline : str := [chr 10].

(** Five lines of text, as the text box returns them. *)
Definition five_lines : str :=
  lit "one" ++ newline ++ lit "two" ++ newline ++ lit "three" ++ newline
  ++ lit "four" ++ newline ++ lit "five" ++ newline.

(** The same world, except that [fulltrim] raises. *)
Definition trim_failing (id : str) : World :=
  {| fileid := id;
     hand_write := hand_write (fair_world id);
     svg2png := svg2png (fair_world id);
     svg2png_missing := svg2png_missing (fair_world id);
     path_exists := path_exists (fair_world id);
     open_placed_image := open_placed_image (fair_world id);
     fulltrim := Some (lit "bad canvas");
     open_background := open_background (fair_world id);
     save := save (fair_world id);
     PDF_AVAILABLE := PDF_AVAILABLE (fair_world id) |}.

(** [s] with another text alignment. *)
Definition with_orientation (o : str) (s : Settings) : Settings :=
  {| legibilityscale := legibilityscale s;
     widthscale := widthscale s;
     currentstyle := currentstyle s;
     stroke_color := stroke_color s;
     linewidthscale := linewidthscale s;
     custom_width_var := custom_width_var s;
     lineheightscale := lineheightscale s;
     orientation := o;
     image_enabled := image_enabled s;
     image_path := image_path s;
     image_x := image_x s;
     image_y := image_y s;
     image_width := image_width s;
     image_height := image_height s;
     image_wrap_style := image_wrap_style s;
     background_type := background_type s;
     background_color := background_color s;
     background_image_path := background_image_path s;
     export_format := export_format s;
     jpg_quality := jpg_quality s |}.

(** A controller on which the user switches the alignment to right while
    the lines are being synthesized: the run starts under [s], and the
    composition loop reads the new alignment. *)
Definition realigning (s : Settings) : Controller :=
  {| live := fun p =>
               match p with
               | AtPlace _ | AtEncode => with_orientation (lit "Right") s
               | _ => s
               end;
     cancel := fun _ => false;
     reassigned := fun _ => None |}.

(** The controller that keeps the settings of the start of the run of
    [c]: what a snapshot taken at the start would give. *)
Definition snapshot (c : Controller) : Controller :=
  {| live := fun _ => live c AtStart;
     cancel := cancel c;
     reassigned := reassigned c |}.

(** A window with the jobs A, B and C in the queue, and the runs of a
    queue in which the user cancels while the first line of B is about to
    be synthesized. *)
Definition window_ABC : MyWindow :=
  set_text_queue
    [new_QueueItem (lit "alpha" ++ newline) (lit "A");
     new_QueueItem (lit "beta" ++ newline) (lit "B");
     new_QueueItem (lit "gamma" ++ newline) (lit "C")]
    (new_window no_files).


(** The polls of a run of [n] lines that precede the poll of line [k] of
    [stage]. *)
Definition polls_before (n : nat) (stage : Stage) (k : nat) : list PollPoint :=
  PollInit ::
  match stage with
  | Synthesizing => map (PollLine Synthesizing) (seq 0 k)
  | Rasterizing =>
      map (PollLine Synthesizing) (seq 0 n)
      ++ map (PollLine Rasterizing) (seq 0 k)
  end.

(** Cancellation is observed during line [k] of [stage]: the poll of that
    line sees the flag, and no earlier poll of the run did. *)
Definition cancelled_during (c : Controller) (n : nat) (stage : Stage) (k : nat)
  : bool :=
  forallb (fun p => negb (cancel c p)) (polls_before n stage k)
  && cancel c (PollLine stage k).

(* ===================================================================== *)
(** ** Notions used by the properties *)
(* ===================================================================== *)

(** The width of the page canvas (line 1741) and its centre. *)
Definition page_width : Z := 2400.
Definition page_center : Z := 1200.




(** No other run is started while the run of [c] is in progress. *)
Definition alone (c : Controller) : Prop := forall u, reassigned c u = None.

(** [st'] differs from [st] in the warnings, in the temporary directories
    and in [self.tempdir] only, and [self.tempdir] is what it was or what
    another run has made it. *)
Definition local (c : Controller) (st st' : MyWindow) : Prop :=
  exists files errs dir,
    st' = set_tempdir dir (set_fs files (set_errors errs st))
    /\ outputs files = outputs (fs st)
    /\ (dir = tempdir st \/ exists u, reassigned c u = dir /\ dir <> None).


(** The characters of a string that are not whitespace, in order. *)
Definition visible (s : str) : str :=
  filter (fun ch => negb (py_isspace ch)) s.

(** The temporary directory [d] exists. *)
Definition has_dir (d : str) (st : MyWindow) : Prop :=
  lookup_str d (tempdirs (fs st)) <> None.

(** A step started under [P] goes on under [Q], and stops under [R]. *)
Definition exits_under (R : Stop -> MyWindow -> Prop) {A}
  (P : MyWindow -> Prop) (m : M A) (Q : A -> MyWindow -> Prop) : Prop :=
  forall st, P st ->
    match m st with
    | (st', inr a) => Q a st'
    | (st', inl s) => R s st'
    end.

(** The condition on stops that asks [R] after an exception and nothing
    after an early return. *)
Definition when_raised (R : MyWindow -> Prop) (s : Stop) (st : MyWindow)
  : Prop :=
  match s with
  | Raised _ => R st
  | Returned => True
  end.

(** [st] has the text, the queue, the flags, the buttons, the dialog and
    the history of [st0]: at most its files, its warnings, its temporary
    directory and its preview differ. *)
Definition same_controls (st0 st : MyWindow) : Prop :=
  text st = text st0
  /\ text_queue st = text_queue st0
  /\ current_queue_index st = current_queue_index st0
  /\ processing_queue st = processing_queue st0
  /\ generatebutton st = generatebutton st0
  /\ queue_buttons st = queue_buttons st0
  /\ process_queue_btn st = process_queue_btn st0
  /\ generatedialog st = generatedialog st0
  /\ outcomes st = outcomes st0.

(** The runs of a queue in which [Hand.write] raises on the first line of
    the second item, and the window when that item's turn comes. *)
Definition runs_fail_B (i : nat) : World * Controller :=
  (if i =? 1 then failing_on 0 (lit "RUN00" ++ str_of_nat i)
   else fair_world (lit "RUN00" ++ str_of_nat i),
   idle default_settings).

Definition window_ABC_at_B : MyWindow :=
  set_current_queue_index 1
    (set_processing_queue true (fst (disable_controls window_ABC))).

(** A run in which nobody cancels, no other run is started and no
    collaborator of the line loops or of the trimming fails. *)
Definition fair_run (w : World) (c : Controller) : Prop :=
  (forall p, cancel c p = false)
  /\ (forall i d, hand_write w i d = None)
  /\ (forall d, exists size, svg2png w d = inr size)
  /\ fulltrim w = None
  /\ alone c.

(** The drawing [Hand.write] is asked for line [i] (lines 1701-1708). *)
Definition drawing_of (c : Controller) (i : nat) (line : str) : Drawing :=
  {| d_line := line;
     d_legibility := legibilityscale (live c AtPrepare);
     d_widthscale := widthscale (live c AtPrepare);
     d_style := currentstyle (live c (AtSynth i));
     d_color := stroke_color (live c (AtSynth i)) |}.

(** The raster of line [i] when its drawing and its conversion succeed
    (lines 1727-1730). *)
Definition image_of (w : World) (c : Controller) (i : nat) (line : str)
  : LineImage :=
  if str_eqb line (lit " ") then blank_image
  else
    match svg2png w (drawing_of c i line) with
    | inr (width, height) =>
        {| li_drawing := Some (drawing_of c i line);
           li_width := width;
           li_height := height |}
    | inl _ => blank_image
    end.

(** The picture that lines 1743-1758 paste, and the warning they
    record. *)
Definition picture_of (w : World) (s : Settings) : option (str * Bounds) :=
  match truthy (image_path s) with
  | Some path =>
      if image_enabled s && path_exists w path
      then match open_placed_image w path with
           | None =>
               Some (path, (image_x s, image_y s, image_x s + image_width s,
                            image_y s + image_height s)%Z)
           | Some _ => None
           end
      else None
  | None => None
  end.

Definition picture_warning (w : World) (s : Settings) : list str :=
  match truthy (image_path s) with
  | Some path =>
      if image_enabled s && path_exists w path
      then match open_placed_image w path with
           | None => []
           | Some e => [lit "Image placement: " ++ e]
           end
      else []
  | None => []
  end.

(** Where the composition loop pastes line [i], and what it pastes. *)
Definition placed_line (w : World) (c : Controller) (i : nat) (line : str)
  : Z * Z * LineImage :=
  let s1 := live c AtCombine in
  let s := live c (AtPlace i) in
  let line_image := image_of w c i line in
  let '(x_pos, y_pos) :=
    place_line (lineheightscale s1) (orientation s) (image_wrap_style s)
      (option_map snd (picture_of w s1)) (image_enabled s1) i
      (li_width line_image) (li_height line_image) in
  (int x_pos, y_pos, line_image).

(** The lines [lines], numbered from [i] on, as the composition loop
    pastes them. *)
Fixpoint placed_lines (w : World) (c : Controller) (i : nat) (lines : list str)
  : list (Z * Z * LineImage) :=
  match lines with
  | [] => []
  | line :: lines' => placed_line w c i line :: placed_lines w c (S i) lines'
  end.

(** The background that lines 1800-1811 composite, and the warning they
    record. *)
Definition background_of (w : World) (s : Settings) : Background :=
  if str_eqb (background_type s) (lit "transparent") then Transparent
  else
    let bg_color :=
      if str_eqb (background_type s) (lit "white") then lit "white"
      else background_color s in
    match (if str_eqb (background_type s) (lit "image")
           then truthy (background_image_path s) else None) with
    | Some path =>
        match open_background w path with
        | None => Picture path
        | Some _ => Solid bg_color
        end
    | None => Solid bg_color
    end.

Definition background_warning (w : World) (s : Settings) : list str :=
  if str_eqb (background_type s) (lit "transparent") then []
  else
    match (if str_eqb (background_type s) (lit "image")
           then truthy (background_image_path s) else None) with
    | Some path =>
        match open_background w path with
        | None => []
        | Some e => [lit "Background image: " ++ e]
        end
    | None => []
    end.

(** The extension and the quality lines 1815-1823 save with, when the
    export format is one they handle. *)
Definition saved_as (w : World) (s : Settings) : option (str * option Z) :=
  if str_eqb (export_format s) (lit "png") then Some (lit ".png", None)
  else if str_eqb (export_format s) (lit "jpg")
       then Some (lit ".jpg", Some (jpg_quality s))
       else if str_eqb (export_format s) (lit "pdf") && PDF_AVAILABLE w
            then Some (lit ".pdf", None)
            else None.

(** The suffix of lines 1787-1791 for the queue item [item] at position
    [index]. *)
Definition suffix_of (index : nat) (item : QueueItem) : str :=
  match filter (fun ch => py_isalnum ch || char_in ch (lit "-_ "))
          (qi_name item) with
  | [] => lit "-queue-" ++ str_of_nat (index + 1)
  | safe_name => lit "-" ++ safe_name
  end.

(** The characters line 1790 lets into the name of an output file. *)
Definition safe_char (ch : ascii) : bool :=
  py_isalnum ch || char_in ch (lit "-_ ").

(** The state of a run under way: the state [st0] of its start with the
    temporary directory [dir] registered, the warnings [errs] and the
    files [files]. *)
Definition run_state (st0 : MyWindow) (dir : str) (errs : list str)
  (files : FileSystem) : MyWindow :=
  set_fs files (set_errors errs (set_tempdir (Some dir) st0)).

(** The files of the temporary directory after the synthesis loop and
    after the rasterization loop of a fair run, from line [i] on. *)
Fixpoint svgs_written (c : Controller) (dir : str) (i : nat) (lines : list str)
  (files : FileSystem) : FileSystem :=
  match lines with
  | [] => files
  | line :: lines' =>
      svgs_written c dir (S i) lines'
        (write_svg dir i (drawing_of c i line) files)
  end.

Fixpoint pngs_written (w : World) (c : Controller) (dir : str) (i : nat)
  (lines : list str) (files : FileSystem) : FileSystem :=
  match lines with
  | [] => files
  | line :: lines' =>
      pngs_written w c dir (S i) lines'
        (write_png dir i (image_of w c i line) files)
  end.

(** The suffix of the output path of a run started from [st]. *)
Definition queue_suffix (is_queue_item : bool) (st : MyWindow) : str :=
  if is_queue_item
  then match nth_error (text_queue st) (current_queue_index st) with
       | Some item => suffix_of (current_queue_index st) item
       | None => []
       end
  else [].

(** The output file a fair run of the lines [lines] writes, if it writes
    one: no file when the export format is not handled or when saving
    fails. *)
Definition output_of (w : World) (c : Controller) (suffix : str)
  (lines : list str) : list (str * Document) :=
  match saved_as w (live c AtEncode), save w with
  | Some (ext, quality), None =>
      [(lit "outputs/" ++ fileid w ++ suffix ++ ext,
        {| doc_canvas :=
             {| cv_height :=
                  (400 + lineheightscale (live c AtCombine)
                         * Z.of_nat (length lines))%Z;
                cv_picture := picture_of w (live c AtCombine);
                cv_lines := placed_lines w c 0 lines |};
           doc_background := background_of w (live c AtEncode);
           doc_format := export_format (live c AtEncode);
           doc_quality := quality |})]
  | _, _ => []
  end.

(** The warnings a fair run records. *)
Definition run_warnings (w : World) (c : Controller) : list str :=
  picture_warning w (live c AtCombine)
  ++ background_warning w (live c AtEncode)
  ++ match saved_as w (live c AtEncode), save w with
     | Some _, Some e => [lit "Saving output file: " ++ e]
     | _, _ => []
     end.

(** The controllers [c] and [c'] hold the same value of every setting at
    the moment the run reads it: the maximal line width and the two
    sliders before the first line (lines 1667-1677), the style and the
    stroke colour when a line is synthesized (lines 1705-1706), the line
    spacing and the placement of the picture before the lines are combined
    (lines 1737-1751), the alignment and the wrap style when a line is
    pasted (lines 1764-1770), the background, the format and the quality
    when the page is encoded (lines 1796-1819).  What the settings are at
    any other moment, the start of the run included, is left open. *)
Definition same_settings_read (c c' : Controller) : Prop :=
  (let s := live c AtPrepare in
   let s' := live c' AtPrepare in
   get_max_line_width s = get_max_line_width s'
   /\ legibilityscale s = legibilityscale s'
   /\ widthscale s = widthscale s')
  /\ (forall i,
        let s := live c (AtSynth i) in
        let s' := live c' (AtSynth i) in
        currentstyle s = currentstyle s'
        /\ stroke_color s = stroke_color s')
  /\ (let s := live c AtCombine in
      let s' := live c' AtCombine in
      lineheightscale s = lineheightscale s'
      /\ image_enabled s = image_enabled s'
      /\ image_path s = image_path s'
      /\ image_x s = image_x s'
      /\ image_y s = image_y s'
      /\ image_width s = image_width s'
      /\ image_height s = image_height s')
  /\ (forall i,
        let s := live c (AtPlace i) in
        let s' := live c' (AtPlace i) in
        orientation s = orientation s'
        /\ image_wrap_style s = image_wrap_style s')
  /\ (let s := live c AtEncode in
      let s' := live c' AtEncode in
      background_type s = background_type s'
      /\ background_color s = background_color s'
      /\ background_image_path s = background_image_path s'
      /\ export_format s = export_format s'
      /\ jpg_quality s = jpg_quality s').


(* ===================================================================== *)
(** * Properties *)
(* ===================================================================== *)

Unset Implicit Arguments.

(** ** Text intake *)

Lemma char_in_In (ch : ascii) (l : str) : char_in ch l = true <-> In ch l.
Proof.
  unfold char_in. rewrite existsb_exists. split.
  - intros (x & Hx & Heq). apply Ascii.eqb_eq in Heq. now subst.
  - intros H. exists ch. split; [assumption | apply Ascii.eqb_refl].
Qed.

Lemma join_split_from (cur s : str) :
  join (split_from cur s)
  = rev cur ++ filter (fun ch => negb (py_isspace ch)) s.
Proof.
  revert cur. induction s as [|ch s IH]; intros cur; simpl.
  - destruct cur; simpl; now rewrite ?app_nil_r.
  - destruct (py_isspace ch) eqn:E; simpl.
    + destruct cur as [|x cur]; simpl.
      * now rewrite IH.
      * now rewrite IH.
    + rewrite IH. simpl. now rewrite <- app_assoc.
Qed.

(** ["".join(s.split())] keeps exactly the characters that are not
    whitespace. *)
Lemma join_split (s : str) :
  join (split s) = filter (fun ch => negb (py_isspace ch)) s.
Proof. unfold split. now rewrite join_split_from. Qed.

Lemma In_replace (old new ch : ascii) (s : str) :
  In ch (replace old new s)
  <-> (ch = new /\ In old s) \/ (ch <> old /\ In ch s).
Proof.
  unfold replace. rewrite in_map_iff. split.
  - intros (x & Hx & Hin). destruct (Ascii.eqb x old) eqn:E.
    + apply Ascii.eqb_eq in E. subst. now left.
    + apply Ascii.eqb_neq in E. subst. now right.
  - intros [[-> Hin] | [Hne Hin]].
    + exists old. now rewrite Ascii.eqb_refl.
    + exists ch. apply Ascii.eqb_neq in Hne. now rewrite Hne.
Qed.

Lemma replace_fixed (old new : ascii) (s : str) :
  ~ In old s -> replace old new s = s.
Proof.
  unfold replace. induction s as [|x s IH]; simpl; intros H; [reflexivity|].
  destruct (Ascii.eqb x old) eqn:E.
  - apply Ascii.eqb_eq in E. subst. exfalso. apply H. now left.
  - f_equal. apply IH. intros Hin. apply H. now right.
Qed.

Lemma first_invalid_None (s : str) :
  (forall ch, In ch s -> In ch valid_chars) -> first_invalid s = None.
Proof.
  induction s as [|x s IH]; cbn [first_invalid]; intros H; [reflexivity|].
  assert (Hx : char_in x valid_chars = true)
    by (apply char_in_In, H; now left).
  rewrite Hx. apply IH. intros ch Hin. apply H. now right.
Qed.

Lemma filter_valid_id (s : str) :
  (forall ch, In ch s -> In ch valid_chars) -> filter_valid s = s.
Proof.
  unfold filter_valid.
  induction s as [|x s IH]; cbn [filter]; intros H; [reflexivity|].
  assert (Hx : char_in x valid_chars = true)
    by (apply char_in_In, H; now left).
  rewrite Hx. f_equal. apply IH. intros ch Hin. apply H. now right.
Qed.

Lemma Q_not_valid : ~ In "Q"%char valid_chars.
Proof.
  intros H. apply char_in_In in H. vm_compute in H. discriminate.
Qed.

Lemma X_not_valid : ~ In "X"%char valid_chars.
Proof.
  intros H. apply char_in_In in H. vm_compute in H. discriminate.
Qed.

Lemma lower_QX_valid (s : str) :
  (forall ch, In ch s -> In ch valid_chars \/ ch = "Q"%char \/ ch = "X"%char) ->
  forall ch, In ch (lower_QX s) -> In ch valid_chars.
Proof.
  intros H ch Hin. unfold lower_QX in Hin.
  apply In_replace in Hin. destruct Hin as [[-> _] | [HneX Hin]].
  - apply char_in_In. reflexivity.
  - apply In_replace in Hin. destruct Hin as [[-> _] | [HneQ Hin]].
    + apply char_in_In. reflexivity.
    + destruct (H ch Hin) as [Hv | [-> | ->]]; [assumption | congruence ..].
Qed.

Lemma lower_QX_has_text (s : str) :
  (exists ch, In ch s /\ py_isspace ch = false) ->
  (length (join (split (lower_QX s))) =? 0) = false.
Proof.
  intros (ch & Hin & Hsp). apply Nat.eqb_neq. rewrite join_split.
  set (ch' := if Ascii.eqb (if Ascii.eqb ch "Q" then "q"%char else ch) "X"
              then "x"%char
              else if Ascii.eqb ch "Q" then "q"%char else ch).
  assert (Hin' : In ch' (lower_QX s)).
  { unfold lower_QX, replace. rewrite map_map. apply in_map_iff.
    exists ch. split; [reflexivity | assumption]. }
  assert (Hsp' : py_isspace ch' = false).
  { unfold ch'. destruct (Ascii.eqb ch "Q"); simpl.
    - reflexivity.
    - destruct (Ascii.eqb ch "X"); [reflexivity | assumption]. }
  intros Hlen. apply length_zero_iff_nil in Hlen.
  assert (Hf : In ch' (filter (fun x => negb (py_isspace x)) (lower_QX s))).
  { apply filter_In. split; [assumption | now rewrite Hsp']. }
  rewrite Hlen in Hf. destruct Hf.
Qed.

(** C10.  A text whose characters are valid except for uppercase Q and X,
    which are not in the valid character set, is accepted by the direct
    path and by the queue path alike, with or without automatic removal;
    the text that is kept has every Q replaced by q and every X by x, so
    it contains neither and differs from the submitted text whenever that
    contained one of them. *)
Theorem C10_QX_lowered_before_validation :
  forall (auto_remove_invalid : bool) (inputtext name : str)
         (queue : list QueueItem),
    (forall ch, In ch inputtext ->
                In ch valid_chars \/ ch = "Q"%char \/ ch = "X"%char) ->
    (exists ch, In ch inputtext /\ py_isspace ch = false) ->
    ~ In "Q"%char valid_chars /\ ~ In "X"%char valid_chars
    /\ generate_dialog_text auto_remove_invalid inputtext
       = inr (lower_QX inputtext)
    /\ add_to_queue auto_remove_invalid inputtext name queue
       = inr (queue ++ [new_QueueItem (lower_QX inputtext) (strip name)])
    /\ ~ In "Q"%char (lower_QX inputtext)
    /\ ~ In "X"%char (lower_QX inputtext)
    /\ (In "Q"%char inputtext \/ In "X"%char inputtext ->
        lower_QX inputtext <> inputtext).
Proof.
  intros auto inputtext name queue Hchars Htext.
  pose proof (lower_QX_valid _ Hchars) as Hvalid.
  pose proof (lower_QX_has_text _ Htext) as Hlen.
  assert (HQ : ~ In "Q"%char (lower_QX inputtext))
    by (intros H; exact (Q_not_valid (Hvalid _ H))).
  assert (HX : ~ In "X"%char (lower_QX inputtext))
    by (intros H; exact (X_not_valid (Hvalid _ H))).
  repeat split.
  - exact Q_not_valid.
  - exact X_not_valid.
  - unfold generate_dialog_text. rewrite Hlen.
    rewrite (first_invalid_None _ Hvalid), (filter_valid_id _ Hvalid).
    now destruct auto.
  - unfold add_to_queue. rewrite Hlen.
    rewrite (first_invalid_None _ Hvalid), (filter_valid_id _ Hvalid).
    now destruct auto.
  - exact HQ.
  - exact HX.
  - intros [H | H] Heq; rewrite Heq in *; contradiction.
Qed.

(** C10 at the text "Quiz X" followed by the newline of the text box. *)
Lemma C10_witness :
  generate_dialog_text false (lit "Quiz X" ++ newline)
  = inr (lit "quiz x" ++ newline)
  /\ lit "quiz x" ++ newline <> lit "Quiz X" ++ newline.
Proof.
  assert (Hchars : forall ch, In ch (lit "Quiz X" ++ newline) ->
            In ch valid_chars \/ ch = "Q"%char \/ ch = "X"%char).
  { intros ch Hin. simpl in Hin.
    repeat (destruct Hin as [<- | Hin];
            [first [ right; left; reflexivity
                   | right; right; reflexivity
                   | left; apply char_in_In; reflexivity ] | ]).
    destruct Hin. }
  assert (Htext : exists ch, In ch (lit "Quiz X" ++ newline)
                             /\ py_isspace ch = false).
  { exists "Q"%char. split; [now left | reflexivity]. }
  destruct (C10_QX_lowered_before_validation false (lit "Quiz X" ++ newline)
              [] [] Hchars Htext) as (_ & _ & Hgen & _ & _ & _ & Hne).
  split.
  - exact Hgen.
  - apply Hne. left. now left.
Defined.

(** ** Page layout *)


Lemma default_x_Left (line_width : Z) :
  default_x (lit "Left") line_width = inject_Z 400.
Proof. reflexivity. Qed.

Lemma default_x_Right (line_width : Z) :
  default_x (lit "Right") line_width = inject_Z (2000 - line_width).
Proof. reflexivity. Qed.

Lemma default_x_Middle (line_width : Z) :
  default_x (lit "Middle") line_width
  = (inject_Z 1000 - inject_Z line_width / inject_Z 2)%Q.
Proof. reflexivity. Qed.

(** C6, as stated, at a line 200 pixels wide: right alignment does not
    put the line at [page_width - 200], nor middle alignment at
    [page_center - 200/2]. *)
Lemma C6_counterexample :
  ~ (default_x (lit "Right") 200 == inject_Z (page_width - 200))%Q
  /\ ~ (default_x (lit "Middle") 200
        == inject_Z page_center - inject_Z 200 / inject_Z 2)%Q.
Proof.
  split; intros H; vm_compute in H; discriminate.
Qed.

(** C6, amended.  Without an obstacle every line is placed at its default
    position, in the vertical slot [line_spacing * (i + 1)]: 400 for left
    alignment, [2000 - line_width] for right alignment and
    [1000 - line_width / 2] for middle alignment. *)
Theorem C6_default_alignment :
  forall (line_spacing : Z) (wrap_style : str) (use_image_placement : bool)
         (i : nat) (line_width line_height : Z),
    let place orientation :=
      place_line line_spacing orientation wrap_style None use_image_placement
        i line_width line_height in
    place (lit "Left") = (inject_Z 400, line_spacing * (Z.of_nat i + 1))%Z
    /\ place (lit "Right")
       = (inject_Z (2000 - line_width), line_spacing * (Z.of_nat i + 1))%Z
    /\ snd (place (lit "Middle")) = (line_spacing * (Z.of_nat i + 1))%Z
    /\ (fst (place (lit "Middle"))
        == inject_Z 1000 - inject_Z line_width / inject_Z 2)%Q
    /\ (fst (place (lit "Middle")) == (2000 - line_width) # 2)%Q.
Proof.
  intros line_spacing wrap_style use i line_width line_height place.
  unfold place, place_line.
  rewrite default_x_Left, default_x_Right, default_x_Middle.
  cbn [fst snd]. repeat split; try reflexivity.
  unfold Qeq, Qminus, Qdiv, Qplus, Qmult, Qopp, Qinv, inject_Z.
  cbn [Qnum Qden]. lia.
Qed.

(** C7.  With the obstacle at x in [400, 700] and y in [200, 500], a
    left-aligned line 200 pixels wide in the vertical slot 300 collides;
    wrap style right moves it to x = 720 and wrap style left to x = 180,
    so that its right edge is at 380. *)
Theorem C7_obstacle_offsets :
  forall (line_spacing : Z) (i : nat) (line_height : Z),
    (line_spacing * (Z.of_nat i + 1) = 300)%Z ->
    (0 <= line_height)%Z ->
    let place wrap_style :=
      place_line line_spacing (lit "Left") wrap_style
        (Some (400, 200, 700, 500)%Z) true i 200 line_height in
    default_x (lit "Left") 200 = inject_Z 400
    /\ snd (place (lit "right")) = 300%Z
    /\ (720 <= int (fst (place (lit "right"))))%Z
    /\ (int (fst (place (lit "left"))) + 200 <= 380)%Z.
Proof.
  intros line_spacing i line_height Hy Hh place.
  unfold place, place_line. rewrite Hy.
  assert (Hv : (200 <=? 300 + line_height)%Z = true)
    by (apply Z.leb_le; lia).
  rewrite Hv. cbn. repeat split; lia.
Qed.

(** C7 at line spacing 100, third line, raster height 120. *)
Lemma C7_witness :
  (720 <= int (fst (place_line 100 (lit "Left") (lit "right")
                      (Some (400, 200, 700, 500)%Z) true 2 200 120)))%Z
  /\ (int (fst (place_line 100 (lit "Left") (lit "left")
                  (Some (400, 200, 700, 500)%Z) true 2 200 120)) + 200
      <= 380)%Z.
Proof.
  assert (Hy : (100 * (Z.of_nat 2 + 1) = 300)%Z) by reflexivity.
  assert (Hh : (0 <= 120)%Z) by lia.
  destruct (C7_obstacle_offsets 100 2 120 Hy Hh) as (_ & _ & Hr & Hl).
  split; [exact Hr | exact Hl].
Defined.




(** ** Line wrapping *)

Section wrapping.

Import textwrap.

Lemma length_join_snoc (l : list str) (x : str) :
  length (join (l ++ [x])) = length (join l) + length x.
Proof.
  unfold join. rewrite concat_app, length_app. simpl.
  now rewrite app_nil_r.
Qed.

Lemma weight_cons (c : str) (chunks : list str) :
  weight (c :: chunks) = S (length c) + weight chunks.
Proof. reflexivity. Qed.

(** What the inner loop leaves: a line that fits, and either fewer
    chunks or a first chunk that does not fit behind the line. *)
Lemma take_fitting_spec (width : nat) (chunks : list str) :
  forall (cur_line : list str) (cur_len : nat),
    length (join cur_line) = cur_len -> cur_len <= width ->
    forall cl len rest,
      take_fitting width cur_line cur_len chunks = (cl, len, rest) ->
      length (join cl) = len /\ len <= width
      /\ (weight rest < weight chunks
          \/ (rest = chunks /\ cl = cur_line /\ len = cur_len))
      /\ match rest with
         | c :: _ => width < len + length c
         | [] => True
         end.
Proof.
  induction chunks as [|c chunks IH]; intros cur_line cur_len Hlen Hle cl len rest.
  - simpl. intros [= <- <- <-]. repeat split; auto.
  - simpl. destruct (cur_len + length c <=? width) eqn:E.
    + apply Nat.leb_le in E. intros Htake.
      destruct (IH (cur_line ++ [c]) (cur_len + length c)) with (3 := Htake)
        as (H1 & H2 & H3 & H4).
      * rewrite length_join_snoc. lia.
      * exact E.
      * repeat split; auto. left.
        destruct H3 as [H3 | (-> & _ & _)]; simpl; lia.
    + apply Nat.leb_gt in E. intros [= <- <- <-].
      repeat split; auto.
Qed.

Lemma rfind_dash_from_bound (chunk : str) :
  forall i stop j,
    rfind_dash_from i stop chunk = Some j -> i <= j < i + stop.
Proof.
  induction chunk as [|ch chunk IH]; intros i stop j.
  - destruct stop; discriminate.
  - destruct stop as [|stop]; [discriminate|]. simpl.
    destruct (rfind_dash_from (S i) stop chunk) as [k|] eqn:E.
    + intros [= <-]. apply IH in E. lia.
    + destruct (is_dash ch); [|discriminate]. intros [= <-]. lia.
Qed.

(** The piece a long word gives to the current line fits in what is left
    of the line, and piece and remainder make up the word. *)
Lemma handle_long_word_spec (chunk : str) (cur_len width : nat) :
  1 <= width -> cur_len <= width ->
  forall piece remainder,
    _handle_long_word chunk cur_len width = (piece, remainder) ->
    length piece <= width - cur_len
    /\ piece ++ remainder = chunk
    /\ (cur_len = 0 -> width < length chunk ->
        length remainder < length chunk).
Proof.
  intros Hw Hle piece remainder. unfold _handle_long_word.
  assert (Hlt : (width <? 1) = false) by (apply Nat.ltb_ge; lia).
  rewrite Hlt.
  set (space_left := width - cur_len).
  set (end_ := if space_left <? length chunk then _ else _).
  assert (Hend : end_ <= space_left
                 /\ (1 <= space_left -> 1 <= end_)).
  { unfold end_. destruct (space_left <? length chunk); [|lia].
    destruct (rfind_dash chunk space_left) as [hyphen|] eqn:E; [|lia].
    apply rfind_dash_from_bound in E.
    destruct (_ && _); lia. }
  intros [= <- <-]. split; [|split].
  - rewrite length_firstn. lia.
  - apply firstn_skipn.
  - intros -> Hlong. rewrite length_skipn. unfold space_left in Hend. lia.
Qed.

Lemma length_join_removelast (l : list str) :
  length (join (removelast l)) <= length (join l).
Proof.
  destruct l as [|x l] using rev_ind; [simpl; lia|].
  rewrite removelast_last, length_join_snoc. lia.
Qed.

Lemma drop_trailing_blank_length (cur_line : list str) :
  length (join (drop_trailing_blank cur_line)) <= length (join cur_line).
Proof.
  unfold drop_trailing_blank. destruct (rev cur_line) as [|x l]; [lia|].
  destruct (blank x); [apply length_join_removelast | lia].
Qed.

(** One iteration of the outer loop: the line it produces fits, and the
    chunks that are left weigh less. *)
Lemma wrap_one_spec (width : nat) (started : bool) (chunks : list str) :
  1 <= width -> chunks <> [] ->
  forall line rest,
    wrap_one width started chunks = (line, rest) ->
    match line with
    | Some l => length l <= width
    | None => True
    end
    /\ weight rest < weight chunks.
Proof.
  intros Hw Hne line rest. unfold wrap_one.
  set (chunks1 := match chunks with
                  | c :: chunks' => if blank c && started then chunks' else chunks
                  | [] => chunks
                  end).
  assert (H1 : weight chunks1 <= weight chunks).
  { unfold chunks1. destruct chunks as [|c chunks']; [lia|].
    destruct (blank c && started); simpl; lia. }
  assert (Hpos : 0 < weight chunks)
    by (destruct chunks; [congruence | simpl; lia]).
  clearbody chunks1.
  destruct (take_fitting width [] 0 chunks1) as [[cl len] chunks2] eqn:Etake.
  destruct (take_fitting_spec width chunks1 [] 0 eq_refl (Nat.le_0_l _)
              cl len chunks2 Etake) as (Hlen & Hfit & Hprog & Hhead).
  assert (Hprog' : weight chunks2 < weight chunks1
                   \/ (weight chunks2 = weight chunks1 /\ len = 0)).
  { destruct Hprog as [Hprog | (-> & _ & ->)]; [now left | now right]. }
  clear Hprog Etake.
  set (step := match chunks2 with
               | c :: chunks' =>
                   if width <? length c
                   then let '(piece, remainder) :=
                          _handle_long_word c len width in
                        (cl ++ [piece], remainder :: chunks')
                   else (cl, chunks2)
               | [] => (cl, chunks2)
               end).
  assert (H2 : length (join (fst step)) <= width
               /\ weight (snd step) < weight chunks).
  { unfold step. destruct chunks2 as [|c chunks'].
    - simpl in *. lia.
    - rewrite weight_cons in Hprog'.
      destruct (width <? length c) eqn:Elong.
      + apply Nat.ltb_lt in Elong.
        destruct (_handle_long_word c len width) as [piece remainder] eqn:Eh.
        destruct (handle_long_word_spec c len width Hw Hfit _ _ Eh)
          as (Hp & Hcat & Hshort).
        cbn [fst snd]. rewrite length_join_snoc, weight_cons.
        assert (Hrem : length remainder <= length c).
        { rewrite <- Hcat, length_app. lia. }
        lia.
      + apply Nat.ltb_ge in Elong. cbn [fst snd]. rewrite weight_cons. lia. }
  destruct step as [cl' chunks3]. cbn [fst snd] in H2. destruct H2 as [H2 H3].
  pose proof (drop_trailing_blank_length cl') as Hdrop.
  destruct (drop_trailing_blank cl') as [|x l].
  - intros [= <- <-]. auto.
  - intros [= <- <-]. split; [exact (Nat.le_trans _ _ _ Hdrop H2) | assumption].
Qed.

(** The outer loop: the lines it adds fit, and with the weight of the
    chunks as fuel no chunk is left. *)
Lemma wrap_loop_spec (width : nat) :
  1 <= width ->
  forall fuel lines chunks,
    weight chunks <= fuel ->
    (forall l, In l lines -> length l <= width) ->
    (forall l, In l (fst (wrap_loop fuel width lines chunks)) ->
               length l <= width)
    /\ snd (wrap_loop fuel width lines chunks) = [].
Proof.
  intros Hw. induction fuel as [|fuel IH]; intros lines chunks Hfuel Hlines.
  - destruct chunks as [|c chunks]; [simpl; auto|].
    rewrite weight_cons in Hfuel. lia.
  - destruct chunks as [|c chunks]; [simpl; auto|].
    cbn [wrap_loop].
    destruct (wrap_one _ _ _) as [line rest] eqn:E.
    destruct (wrap_one_spec width _ (c :: chunks) Hw ltac:(discriminate)
                line rest E) as [Hline Hless].
    apply IH; [lia|].
    destruct line as [l|]; [|assumption].
    intros l' Hin. apply in_app_or in Hin.
    destruct Hin as [Hin | [<- | []]]; auto.
Qed.

(** *** Wrapping loses nothing but whitespace *)

Lemma visible_app (a b : str) : visible (a ++ b) = visible a ++ visible b.
Proof. apply filter_app. Qed.

Lemma visible_blank (chunk : str) : blank chunk = true -> visible chunk = [].
Proof.
  unfold blank, visible. induction chunk as [|ch chunk IH]; simpl; [reflexivity|].
  rewrite andb_true_iff. intros [-> H]. simpl. now apply IH.
Qed.

Lemma visible_spaces (n : nat) (s : str) :
  visible (repeat " "%char n ++ s) = visible s.
Proof. induction n as [|n IH]; [reflexivity | exact IH]. Qed.

Lemma is_ws_isspace (ch : ascii) : is_ws ch = true -> py_isspace ch = true.
Proof.
  unfold is_ws. intros H. apply char_in_In in H. simpl in H.
  repeat (destruct H as [<- | H]; [reflexivity|]). destruct H.
Qed.

Lemma visible_expandtabs (s : str) :
  forall col, visible (expandtabs_from col s) = visible s.
Proof.
  induction s as [|ch s IH]; intros col; [reflexivity|].
  cbn [expandtabs_from]. destruct (Ascii.eqb ch (chr 9)) eqn:Etab.
  - apply Ascii.eqb_eq in Etab. subst ch. rewrite visible_spaces. apply IH.
  - destruct (Ascii.eqb ch (chr 10) || Ascii.eqb ch (chr 13));
      unfold visible; cbn [filter]; fold (visible s);
      destruct (negb (py_isspace ch)); f_equal; apply IH.
Qed.

Lemma visible_munge (text : str) :
  visible (_munge_whitespace text) = visible text.
Proof.
  unfold _munge_whitespace. rewrite <- (visible_expandtabs text 0).
  induction (expandtabs_from 0 text) as [|ch s IH]; [reflexivity|].
  unfold visible in *. cbn [map filter]. rewrite IH.
  destruct (is_ws ch) eqn:E; [|reflexivity].
  now rewrite (is_ws_isspace ch E).
Qed.

Lemma match_len_pos (before : str) (ch : ascii) (s : str) :
  1 <= match_len before (ch :: s).
Proof.
  unfold match_len. destruct (is_ws ch) eqn:Ews.
  - cbn [count_ws]. rewrite Ews. lia.
  - destruct (_ && emdash_ahead (ch :: s)) eqn:Edash; [|lia].
    apply andb_true_iff in Edash. destruct Edash as [_ Edash].
    unfold emdash_ahead in Edash. apply andb_true_iff in Edash.
    destruct Edash as [Edash _]. apply Nat.leb_le in Edash. lia.
Qed.

Lemma wordsep_split_concat (fuel : nat) :
  forall before s,
    length s <= fuel -> concat (wordsep_split fuel before s) = s.
Proof.
  induction fuel as [|fuel IH]; intros before s Hlen.
  - destruct s; [reflexivity | simpl in Hlen; lia].
  - destruct s as [|ch s]; [reflexivity|].
    cbn [wordsep_split concat].
    pose proof (match_len_pos before ch s) as Hpos.
    rewrite IH; [apply firstn_skipn|].
    rewrite length_skipn. lia.
Qed.

Lemma concat_nonempty (l : list str) :
  concat (filter (fun chunk => negb (length chunk =? 0)) l) = concat l.
Proof.
  induction l as [|chunk l IH]; [reflexivity|]. cbn [filter].
  destruct chunk; simpl; [assumption | now rewrite IH].
Qed.

(** The chunks of a text make up the text. *)
Lemma split_concat (text : str) : concat (_split text) = text.
Proof.
  unfold _split. rewrite concat_nonempty.
  now apply wordsep_split_concat.
Qed.

Lemma take_fitting_concat (width : nat) (chunks : list str) :
  forall cur_line cur_len cl len rest,
    take_fitting width cur_line cur_len chunks = (cl, len, rest) ->
    concat cl ++ concat rest = concat cur_line ++ concat chunks.
Proof.
  induction chunks as [|chunk chunks IH]; intros cur_line cur_len cl len rest.
  - simpl. now intros [= <- <- <-].
  - simpl. destruct (cur_len + length chunk <=? width).
    + intros H. rewrite (IH _ _ _ _ _ H), concat_app. simpl.
      now rewrite app_nil_r, <- app_assoc.
    + now intros [= <- <- <-].
Qed.

Lemma visible_drop_trailing_blank (cur_line : list str) :
  visible (concat (drop_trailing_blank cur_line)) = visible (concat cur_line).
Proof.
  unfold drop_trailing_blank.
  destruct cur_line as [|x l] using rev_ind; [reflexivity|].
  rewrite rev_app_distr. cbn [rev app].
  destruct (blank x) eqn:E; [|reflexivity].
  rewrite removelast_last, concat_app, visible_app. simpl.
  now rewrite app_nil_r, (visible_blank x E), app_nil_r.
Qed.

(** One iteration of the outer loop keeps every character that is not
    whitespace, on the line it produces or in the chunks it leaves. *)
Lemma wrap_one_visible (width : nat) (started : bool) (chunks : list str) :
  forall line rest,
    wrap_one width started chunks = (line, rest) ->
    visible (match line with Some l => l | None => [] end)
    ++ visible (concat rest)
    = visible (concat chunks).
Proof.
  intros line rest. unfold wrap_one.
  set (chunks1 := match chunks with
                  | c :: chunks' => if blank c && started then chunks' else chunks
                  | [] => chunks
                  end).
  assert (H1 : visible (concat chunks1) = visible (concat chunks)).
  { unfold chunks1. destruct chunks as [|c chunks']; [reflexivity|].
    destruct (blank c) eqn:E; [|reflexivity].
    destruct started; [|reflexivity].
    simpl. now rewrite visible_app, (visible_blank c E). }
  clearbody chunks1.
  destruct (take_fitting width [] 0 chunks1) as [[cl len] chunks2] eqn:Etake.
  apply take_fitting_concat in Etake. simpl in Etake.
  set (step := match chunks2 with
               | c :: chunks' =>
                   if width <? length c
                   then let '(piece, remainder) :=
                          _handle_long_word c len width in
                        (cl ++ [piece], remainder :: chunks')
                   else (cl, chunks2)
               | [] => (cl, chunks2)
               end).
  assert (H2 : concat (fst step) ++ concat (snd step) = concat chunks1).
  { rewrite <- Etake. unfold step. destruct chunks2 as [|c chunks']; [reflexivity|].
    destruct (width <? length c); [|reflexivity].
    unfold _handle_long_word. cbn [fst snd].
    rewrite concat_app. simpl. rewrite app_nil_r, <- !app_assoc.
    f_equal. rewrite app_assoc. f_equal. apply firstn_skipn. }
  destruct step as [cl' chunks3]. cbn [fst snd] in H2.
  pose proof (visible_drop_trailing_blank cl') as Hdrop.
  rewrite <- H1, <- H2, visible_app, <- Hdrop.
  destruct (drop_trailing_blank cl') as [|x l]; now intros [= <- <-].
Qed.

(** The outer loop, when it leaves no chunk. *)
Lemma wrap_loop_visible (width : nat) :
  forall fuel lines chunks,
    snd (wrap_loop fuel width lines chunks) = [] ->
    visible (concat (fst (wrap_loop fuel width lines chunks)))
    = visible (concat lines) ++ visible (concat chunks).
Proof.
  induction fuel as [|fuel IH]; intros lines chunks Hdone.
  - destruct chunks as [|c chunks]; [|discriminate].
    simpl. now rewrite app_nil_r.
  - destruct chunks as [|c chunks]; [simpl; now rewrite app_nil_r|].
    cbn [wrap_loop] in *.
    destruct (wrap_one _ _ _) as [line rest] eqn:E.
    apply wrap_one_visible in E. rewrite (IH _ _ Hdone), <- E.
    destruct line as [l|]; [|reflexivity].
    rewrite concat_app, visible_app. simpl.
    now rewrite app_nil_r, <- app_assoc.
Qed.

End wrapping.

(** C5, as stated, at the single word "abcdefghijkl" and width 5: the word
    exceeds the width, and it is not placed unbroken on a sub-line of its
    own; it is cut into "abcde", "fghij" and "kl". *)
Lemma C5_counterexample :
  ~ (forall (line : str) (max_width : Z) (word : str),
        (max_width < Z.of_nat (length line))%Z ->
        In word (split line) ->
        (max_width < Z.of_nat (length word))%Z ->
        exists sublines,
          split_string line max_width = inr sublines /\ In word sublines).
Proof.
  intros H.
  destruct (H (lit "abcdefghijkl") 5%Z (lit "abcdefghijkl"))
    as (sublines & Hwrap & Hin).
  - cbn. lia.
  - now left.
  - cbn. lia.
  - vm_compute in Hwrap. injection Hwrap as <-.
    repeat (destruct Hin as [Hin | Hin]; [discriminate|]). destruct Hin.
Qed.

(** C5, amended.  For a positive width, wrapping returns sub-lines; none
    of them is longer than the width, so that a word that exceeds the
    width is cut into pieces that fit; and the sub-lines hold the
    characters of the line that are not whitespace, all of them and in
    order. *)
Theorem C5_sublines_fit :
  forall (line : str) (max_width : Z),
    (0 < max_width)%Z ->
    exists sublines,
      split_string line max_width = inr sublines
      /\ (forall subline,
            In subline sublines ->
            (Z.of_nat (length subline) <= max_width)%Z)
      /\ visible (concat sublines) = visible line.
Proof.
  intros line max_width Hw.
  unfold split_string, textwrap.wrap, textwrap._wrap_chunks.
  assert (Hpos : (max_width <=? 0)%Z = false) by (apply Z.leb_gt; lia).
  rewrite Hpos. eexists. split; [reflexivity|].
  assert (H1 : 1 <= Z.to_nat max_width) by lia.
  destruct (wrap_loop_spec (Z.to_nat max_width) H1
              (textwrap.weight (textwrap._split (textwrap._munge_whitespace line)))
              [] (textwrap._split (textwrap._munge_whitespace line))
              (Nat.le_refl _) ltac:(intros ? []))
    as [Hfit Hdone].
  split.
  - intros subline Hin. specialize (Hfit subline Hin). lia.
  - etransitivity; [exact (wrap_loop_visible _ _ _ _ Hdone)|].
    cbn [concat app visible filter].
    now rewrite split_concat, visible_munge.
Qed.

(** C5 at the single word "abcdefghijkl" and width 5. *)
Lemma C5_witness :
  exists sublines,
    split_string (lit "abcdefghijkl") 5 = inr sublines
    /\ (forall subline,
          In subline sublines -> (Z.of_nat (length subline) <= 5)%Z)
    /\ visible (concat sublines) = visible (lit "abcdefghijkl").
Proof.
  apply (C5_sublines_fit (lit "abcdefghijkl") 5%Z). lia.
Defined.

(** ** The worker: elementary steps *)

Lemma str_eqb_refl (s : str) : str_eqb s s = true.
Proof. unfold str_eqb. destruct (list_eq_dec ascii_dec s s); congruence. Qed.

Lemma lookup_remove_str {A} (k : str) (l : list (str * A)) :
  lookup_str k (remove_str k l) = None.
Proof.
  induction l as [|[k' a] l IH]; simpl; [reflexivity|].
  destruct (str_eqb k k') eqn:E; simpl; [assumption|].
  now rewrite E.
Qed.

Lemma bind_ok {A B} (m : M A) (k : A -> M B) st st' a :
  m st = (st', inr a) -> bind m k st = k a st'.
Proof. unfold bind. now intros ->. Qed.

Lemma bind_stop {A B} (m : M A) (k : A -> M B) st st' s :
  m st = (st', inl s) -> bind m k st = (st', inl s).
Proof. unfold bind. now intros ->. Qed.

Lemma outputs_in_dir d f files : outputs (in_dir d f files) = outputs files.
Proof. unfold in_dir. now destruct (lookup_str d (tempdirs files)). Qed.

Lemma outputs_makedirs d files : outputs (makedirs d files) = outputs files.
Proof. unfold makedirs. now destruct (lookup_str d (tempdirs files)). Qed.

Section worker.

Variable w : World.
Variable c : Controller.
Variable is_queue_item : bool.
Variable next : M unit.

Lemma local_refl st : local c st st.
Proof.
  exists (fs st), (_errors st), (tempdir st).
  split; [now destruct st|]. split; [reflexivity | now left].
Qed.

Lemma local_trans st1 st2 st3 :
  local c st1 st2 -> local c st2 st3 -> local c st1 st3.
Proof.
  intros (f1 & e1 & d1 & -> & H1 & D1) (f2 & e2 & d2 & -> & H2 & D2).
  exists f2, e2, d2. split; [reflexivity|]. simpl in *.
  split; [congruence|]. destruct D2 as [-> | D2]; [exact D1 | now right].
Qed.

Lemma local_warn msg st : local c st (fst (warn msg st)).
Proof.
  exists (fs st), (_errors st ++ [msg]), (tempdir st).
  split; [now destruct st|]. split; [reflexivity | now left].
Qed.

Lemma local_on_fs f st :
  outputs (f (fs st)) = outputs (fs st) -> local c st (fst (on_fs f st)).
Proof.
  intros H. exists (f (fs st)), (_errors st), (tempdir st).
  split; [now destruct st|]. split; [assumption | now left].
Qed.

(** When no run has been started since the last use, [self.tempdir] is
    what the state holds. *)
Lemma self_tempdir_same u st :
  reassigned c u = None -> self_tempdir c u st = (st, inr (tempdir st)).
Proof. unfold self_tempdir. now intros ->. Qed.

(** A use of [self.tempdir] never stops the worker; it returns the
    attribute as it is after the use. *)
Lemma self_tempdir_local u st :
  exists st',
    self_tempdir c u st = (st', inr (tempdir st')) /\ local c st st'.
Proof.
  unfold self_tempdir. destruct (reassigned c u) as [d|] eqn:E.
  - eexists. split; [reflexivity|].
    exists (makedirs d (fs st)), (_errors st), (Some d).
    split; [now destruct st|]. split; [apply outputs_makedirs|].
    right. exists u. split; [exact E | discriminate].
  - exists st. split; [reflexivity | apply local_refl].
Qed.

Lemma check_cancel_false p st :
  cancel c p = false -> check_cancel c is_queue_item p st = (st, inr tt).
Proof. unfold check_cancel. now intros ->. Qed.

(** [bail_out] never stops the worker by itself. *)
Lemma bail_out_goes_on p st : snd (bail_out c is_queue_item p st) = inr tt.
Proof.
  unfold bail_out.
  destruct (self_tempdir_local (ToBailOut p) st) as (st1 & E1 & _).
  rewrite (bind_ok _ _ _ _ _ E1).
  destruct (tempdir st1), is_queue_item; reflexivity.
Qed.

Lemma check_cancel_true p st :
  cancel c p = true ->
  check_cancel c is_queue_item p st
  = (fst (bail_out c is_queue_item p st), inl Returned).
Proof.
  unfold check_cancel. intros ->. unfold bind.
  pose proof (bail_out_goes_on p st) as H.
  destruct (bail_out c is_queue_item p st) as [st' [s|[]]]; simpl in *;
    [discriminate | reflexivity].
Qed.

(** One pass of the synthesis loop, after its poll. *)
Lemma synthesize_line_local s0 i line st :
  exists st',
    synthesize_line w c s0 i line st = (st', inr tt) /\ local c st st'.
Proof.
  unfold synthesize_line. cbv zeta.
  destruct (self_tempdir_local (ToSynthesize i) st) as (st1 & E1 & L1).
  rewrite (bind_ok _ _ _ _ _ E1).
  destruct (tempdir st1) as [dir|].
  - destruct (hand_write w i _) as [e|]; eexists;
      (split; [reflexivity|]); (eapply local_trans; [exact L1|]).
    + apply local_warn.
    + apply local_on_fs, outputs_in_dir.
  - eexists. split; [reflexivity|].
    eapply local_trans; [exact L1 | apply local_warn].
Qed.

(** The synthesis loop when no poll sees the flag: it ends, and only
    temporary files, warnings and [self.tempdir] have changed. *)
Lemma synthesize_through s0 lines :
  forall i st,
    (forall j, i <= j < i + length lines ->
               cancel c (PollLine Synthesizing j) = false) ->
    exists st',
      synthesize w c is_queue_item s0 i lines st = (st', inr tt)
      /\ local c st st'.
Proof.
  induction lines as [|line lines IH]; intros i st Hc.
  - exists st. split; [reflexivity | apply local_refl].
  - cbn [synthesize].
    rewrite (bind_ok _ _ st st tt)
      by (apply check_cancel_false, Hc; simpl; lia).
    destruct (synthesize_line_local s0 i line st) as (st1 & E1 & L1).
    rewrite (bind_ok _ _ st st1 tt E1).
    destruct (IH (S i) st1) as (st2 & E2 & L2).
    { intros j Hj. apply Hc. simpl. lia. }
    exists st2. split; [assumption | eapply local_trans; eassumption].
Qed.

(** The synthesis loop when the poll of line [k] is the first to see the
    flag: it bails out of a state in which only temporary files, warnings
    and [self.tempdir] have changed. *)
Lemma synthesize_cancelled s0 lines :
  forall i st k,
    i <= k < i + length lines ->
    (forall j, i <= j < k -> cancel c (PollLine Synthesizing j) = false) ->
    cancel c (PollLine Synthesizing k) = true ->
    exists st1,
      local c st st1
      /\ synthesize w c is_queue_item s0 i lines st
         = (fst (bail_out c is_queue_item (PollLine Synthesizing k) st1),
            inl Returned).
Proof.
  induction lines as [|line lines IH]; intros i st k Hk Hbefore Hat.
  - simpl in Hk. lia.
  - cbn [synthesize]. destruct (Nat.eq_dec i k) as [<- | Hne].
    + exists st. split; [apply local_refl|].
      apply bind_stop. now apply check_cancel_true.
    + rewrite (bind_ok _ _ st st tt)
        by (apply check_cancel_false, Hbefore; lia).
      destruct (synthesize_line_local s0 i line st) as (st1 & E1 & L1).
      rewrite (bind_ok _ _ st st1 tt E1).
      destruct (IH (S i) st1 k) as (st2 & L2 & E2).
      { simpl in Hk. lia. }
      { intros j Hj. apply Hbefore. lia. }
      { assumption. }
      exists st2. split; [eapply local_trans; eassumption | assumption].
Qed.

(** One pass of the rasterization loop, after its poll. *)
Lemma rasterize_line_local i line st :
  exists st',
    rasterize_line w c i line st = (st', inr tt) /\ local c st st'.
Proof.
  unfold rasterize_line. cbv zeta.
  destruct (self_tempdir_local (ToRasterize i) st) as (st1 & E1 & L1).
  rewrite (bind_ok _ _ _ _ _ E1).
  rewrite (bind_ok _ _ st1 st1 st1) by reflexivity.
  assert (Hwarn : forall msg, exists st',
            warn msg st1 = (st', inr tt) /\ local c st st').
  { intros msg. eexists. split; [reflexivity|].
    eapply local_trans; [exact L1 | apply local_warn]. }
  assert (Hpng : forall dir x, exists st',
            on_fs (write_png dir i x) st1 = (st', inr tt) /\ local c st st').
  { intros dir x. eexists. split; [reflexivity|].
    eapply local_trans; [exact L1 | apply local_on_fs, outputs_in_dir]. }
  destruct (tempdir st1) as [dir|]; [|apply Hwarn].
  destruct (str_eqb line (lit " ")); [apply Hpng|].
  destruct (read_svg dir i (fs st1)) as [d|].
  - destruct (svg2png w d) as [e | [width height]]; [apply Hwarn | apply Hpng].
  - destruct (svg2png_missing w); [apply Hwarn|].
    exists st1. split; [reflexivity | exact L1].
Qed.

Lemma rasterize_through lines :
  forall i st,
    (forall j, i <= j < i + length lines ->
               cancel c (PollLine Rasterizing j) = false) ->
    exists st',
      rasterize w c is_queue_item i lines st = (st', inr tt)
      /\ local c st st'.
Proof.
  induction lines as [|line lines IH]; intros i st Hc.
  - exists st. split; [reflexivity | apply local_refl].
  - cbn [rasterize].
    rewrite (bind_ok _ _ st st tt)
      by (apply check_cancel_false, Hc; simpl; lia).
    destruct (rasterize_line_local i line st) as (st1 & E1 & L1).
    rewrite (bind_ok _ _ st st1 tt E1).
    destruct (IH (S i) st1) as (st2 & E2 & L2).
    { intros j Hj. apply Hc. simpl. lia. }
    exists st2. split; [assumption | eapply local_trans; eassumption].
Qed.

Lemma rasterize_cancelled lines :
  forall i st k,
    i <= k < i + length lines ->
    (forall j, i <= j < k -> cancel c (PollLine Rasterizing j) = false) ->
    cancel c (PollLine Rasterizing k) = true ->
    exists st1,
      local c st st1
      /\ rasterize w c is_queue_item i lines st
         = (fst (bail_out c is_queue_item (PollLine Rasterizing k) st1),
            inl Returned).
Proof.
  induction lines as [|line lines IH]; intros i st k Hk Hbefore Hat.
  - simpl in Hk. lia.
  - cbn [rasterize]. destruct (Nat.eq_dec i k) as [<- | Hne].
    + exists st. split; [apply local_refl|].
      apply bind_stop. now apply check_cancel_true.
    + rewrite (bind_ok _ _ st st tt)
        by (apply check_cancel_false, Hbefore; lia).
      destruct (rasterize_line_local i line st) as (st1 & E1 & L1).
      rewrite (bind_ok _ _ st st1 tt E1).
      destruct (IH (S i) st1 k) as (st2 & L2 & E2).
      { simpl in Hk. lia. }
      { intros j Hj. apply Hbefore. lia. }
      { assumption. }
      exists st2. split; [eapply local_trans; eassumption | assumption].
Qed.

End worker.

(** ** Cancellation *)

Lemma local_tempdir c st st' :
  local c st st' -> tempdir st <> None -> tempdir st' <> None.
Proof.
  intros (files & errs & d & -> & _ & [-> | (u & _ & H)]) Hdir; simpl;
    assumption.
Qed.

(** While no other run is started, [self.tempdir] stays what the run made
    it. *)
Lemma local_alone c st st' :
  alone c -> local c st st' -> tempdir st' = tempdir st.
Proof.
  intros Halone (files & errs & d & -> & _ & [-> | (u & E & H)]);
    [reflexivity|].
  rewrite Halone in E. now subst d.
Qed.

(** What [bail_out] leaves of a state that differs from [st0] in
    temporary files, warnings and [self.tempdir]. *)
Lemma bail_out_local c is_queue_item p st0 st1 :
  local c st0 st1 ->
  let st' := fst (bail_out c is_queue_item p st1) in
  outputs (fs st') = outputs (fs st0)
  /\ text st' = text st0
  /\ text_queue st' = text_queue st0
  /\ current_queue_index st' = current_queue_index st0
  /\ processing_queue st' = processing_queue st0
  /\ outcomes st' = outcomes st0
  /\ generatedialog st' = false
  /\ generatebutton st' = true
  /\ (is_queue_item = true -> queue_buttons st' = true).
Proof.
  intros (files & errs & d & -> & Hout & _).
  unfold bail_out, self_tempdir.
  destruct (reassigned c (ToBailOut p)) as [d'|]; destruct st0; simpl in *;
    [|destruct d]; destruct is_queue_item; cbn;
    rewrite ?outputs_makedirs; repeat split; auto; discriminate.
Qed.

(** [bail_out] removes the directory that [self.tempdir] names. *)
Lemma bail_out_removes c is_queue_item p st dir :
  reassigned c (ToBailOut p) = None ->
  tempdir st = Some dir ->
  lookup_str dir (tempdirs (fs (fst (bail_out c is_queue_item p st)))) = None.
Proof.
  intros Hsame Hdir. unfold bail_out.
  rewrite (bind_ok _ _ _ _ _ (self_tempdir_same c _ st Hsame)), Hdir.
  destruct st, is_queue_item; cbn; apply lookup_remove_str.
Qed.

Lemma cancelled_during_spec c n stage k :
  cancelled_during c n stage k = true ->
  cancel c PollInit = false
  /\ (forall j, j < k -> cancel c (PollLine stage j) = false)
  /\ (stage = Rasterizing ->
      forall j, j < n -> cancel c (PollLine Synthesizing j) = false)
  /\ cancel c (PollLine stage k) = true.
Proof.
  unfold cancelled_during. rewrite andb_true_iff, forallb_forall.
  intros [Hbefore Hat].
  assert (Hb : forall p, In p (polls_before n stage k) -> cancel c p = false).
  { intros p Hin. apply Hbefore in Hin. now apply negb_true_iff in Hin. }
  repeat split; try assumption.
  - apply Hb. now left.
  - intros j Hj. apply Hb. right. destruct stage.
    + apply in_map, in_seq. lia.
    + apply in_or_app. right. apply in_map, in_seq. lia.
  - intros -> j Hj. apply Hb. right. apply in_or_app. left.
    apply in_map, in_seq. lia.
Qed.

(** A run in which cancellation is observed during a line bails out, of a
    state that differs from the state after line 1673 in temporary files,
    warnings and [self.tempdir] only. *)
Lemma pipeline_cancelled w c is_queue_item st synthesized_lines stage k :
  prepare_lines (splitlines (text st)) (get_max_line_width (live c AtPrepare))
  = inr synthesized_lines ->
  k < length synthesized_lines ->
  cancelled_during c (length synthesized_lines) stage k = true ->
  exists st1,
    local c (set_tempdir (Some (tempdir_of w)) st) st1
    /\ pipeline w c is_queue_item st
       = (fst (bail_out c is_queue_item (PollLine stage k) st1), inl Returned).
Proof.
  intros Hprep Hk Hc.
  destruct (cancelled_during_spec _ _ _ _ Hc) as (Hinit & Hbefore & Hsynth & Hat).
  unfold pipeline.
  rewrite (bind_ok _ _ st st tt) by (now apply check_cancel_false).
  rewrite (bind_ok _ _ st st st) by reflexivity.
  cbv zeta.
  set (st0 := set_tempdir (Some (tempdir_of w)) st).
  rewrite (bind_ok _ _ st st0 tt) by reflexivity.
  destruct (self_tempdir_local c ToCreate st0) as (sta & Ea & La).
  rewrite (bind_ok _ _ _ _ _ Ea).
  pose proof (local_tempdir c st0 sta La ltac:(discriminate)) as Hdir.
  destruct (tempdir sta) as [d|]; [clear Hdir | congruence].
  assert (Lb : local c st0 (fst (on_fs (makedirs d) sta))).
  { eapply local_trans; [exact La | apply local_on_fs, outputs_makedirs]. }
  rewrite (bind_ok _ _ sta (fst (on_fs (makedirs d) sta)) tt) by reflexivity.
  set (stb := fst (on_fs (makedirs d) sta)) in *. clearbody stb.
  rewrite Hprep.
  rewrite (bind_ok _ _ stb stb synthesized_lines) by reflexivity.
  assert (Hlen : (length synthesized_lines =? 0) = false)
    by (apply Nat.eqb_neq; lia).
  rewrite Hlen.
  rewrite (bind_ok _ _ stb stb tt) by reflexivity.
  destruct stage.
  - destruct (synthesize_cancelled w c is_queue_item (live c AtPrepare)
                synthesized_lines 0 stb k)
      as (st1 & L1 & E1); [lia | intros j Hj; apply Hbefore; lia | assumption |].
    exists st1. split; [eapply local_trans; eassumption|]. now apply bind_stop.
  - destruct (synthesize_through w c is_queue_item (live c AtPrepare)
                synthesized_lines 0 stb)
      as (st1 & E1 & L1); [intros j Hj; apply Hsynth; [reflexivity | lia] |].
    rewrite (bind_ok _ _ stb st1 tt E1).
    destruct (rasterize_cancelled w c is_queue_item
                synthesized_lines 0 st1 k)
      as (st2 & L2 & E2); [lia | intros j Hj; apply Hbefore; lia | assumption |].
    exists st2.
    split; [eapply local_trans; [exact Lb|]; eapply local_trans; eassumption|].
    now apply bind_stop.
Qed.

(** When no other run is started meanwhile and cancellation is observed
    during line [k] of the [N] lines of a run, in the synthesis loop or in
    the rasterization loop, the run ends as cancelled, the output files
    are the ones that were there before the run, and the temporary
    directory of the run is gone. *)
Theorem cancelled_alone_cleans_up :
  forall (w : World) (c : Controller) (is_queue_item : bool) (next : M unit)
         (st : MyWindow) (synthesized_lines : list str) (stage : Stage)
         (k : nat),
    alone c ->
    prepare_lines (splitlines (text st))
      (get_max_line_width (live c AtPrepare)) = inr synthesized_lines ->
    k < length synthesized_lines ->
    cancelled_during c (length synthesized_lines) stage k = true ->
    let r := generate_writing w c is_queue_item next st in
    snd r = inl Returned
    /\ outcomes (fst r) = outcomes st ++ [Cancelled]
    /\ outputs (fs (fst r)) = outputs (fs st)
    /\ lookup_str (tempdir_of w) (tempdirs (fs (fst r))) = None.
Proof.
  intros w c is_queue_item next st synthesized_lines stage k Halone
    Hprep Hk Hc r.
  destruct (pipeline_cancelled w c is_queue_item st _ _ _ Hprep Hk Hc)
    as (st1 & L1 & E1).
  pose proof (local_alone c _ _ Halone L1) as Hdir.
  pose proof (bail_out_removes c is_queue_item (PollLine stage k) st1
                (tempdir_of w) (Halone _) Hdir) as Hgone.
  destruct (bail_out_local c is_queue_item (PollLine stage k) _ st1 L1)
    as (Hout & _ & _ & _ & _ & Hhist & _).
  unfold r, generate_writing. rewrite E1.
  remember (fst (bail_out c is_queue_item (PollLine stage k) st1)) as st'
    eqn:Est'. clear Est'.
  cbn in *. rewrite Hout, Hgone, Hhist.
  repeat split; reflexivity.
Qed.

(** [cancelled_alone_cleans_up] at a run of five lines cancelled during
    the third. *)
Lemma cancelled_alone_cleans_up_witness :
  let r := generate_writing (fair_world (lit "AAAAAA"))
             (cancelling_at (PollLine Synthesizing 2) default_settings)
             false (ret tt) (set_text five_lines (new_window no_files)) in
  snd r = inl Returned
  /\ outcomes (fst r) = [Cancelled]
  /\ outputs (fs (fst r)) = []
  /\ lookup_str (lit "handsynth-temp-AAAAAA") (tempdirs (fs (fst r))) = None.
Proof.
  apply (cancelled_alone_cleans_up (fair_world (lit "AAAAAA"))
           (cancelling_at (PollLine Synthesizing 2) default_settings)
           false (ret tt) (set_text five_lines (new_window no_files))
           [lit "one"; lit "two"; lit "three"; lit "four"; lit "five"]
           Synthesizing 2).
  - intros u. reflexivity.
  - reflexivity.
  - simpl. lia.
  - reflexivity.
Defined.

(** C3 at a direct run of five lines during which the queue is started
    and the user then cancels: the queue's run has assigned its own
    directory to [self.tempdir] when the poll of the third line sees the
    flag, so [bail_out] removes that directory; the cancelled run leaves
    its own directory behind, with the two drawings made so far. *)
Theorem C3_cancelled_run_leaves_tempdir :
  let r := generate_writing (fair_world (lit "AAAAAA"))
             (overtaken_at (PollLine Synthesizing 2)
                (lit "handsynth-temp-BBBBBB") default_settings)
             false (ret tt) (set_text five_lines (new_window no_files)) in
  cancelled_during
    (overtaken_at (PollLine Synthesizing 2) (lit "handsynth-temp-BBBBBB")
       default_settings) 5 Synthesizing 2 = true
  /\ snd r = inl Returned
  /\ outcomes (fst r) = [Cancelled]
  /\ outputs (fs (fst r)) = []
  /\ option_map (fun t => map fst (svgs t))
       (lookup_str (lit "handsynth-temp-AAAAAA") (tempdirs (fs (fst r))))
     = Some [1; 0]
  /\ lookup_str (lit "handsynth-temp-BBBBBB") (tempdirs (fs (fst r))) = None.
Proof. vm_compute. repeat split; reflexivity. Qed.

(** ** The queue *)




(** ** Failures in a run *)

(** C2 at a run of five lines in which [Hand.write] raises on the third:
    the failure is recorded, once by each loop, and the composition loop
    then opens the raster that was never written; the run ends with that
    exception and no output file. *)
Theorem C2_failed_line_aborts_run :
  let r := generate_writing (failing_on 2 (lit "AAAAAA"))
             (idle default_settings) false (ret tt)
             (set_text five_lines (new_window no_files)) in
  prepare_lines (splitlines five_lines)
    (get_max_line_width default_settings)
  = inr [lit "one"; lit "two"; lit "three"; lit "four"; lit "five"]
  /\ _errors (fst r) = [lit "Synthesize line 3: boom";
                        lit "Rasterize line 3: no such file"]
  /\ outcomes (fst r)
     = [Crashed (FileNotFoundError (lit "handsynth-temp-AAAAAA/2.png"))]
  /\ outputs (fs (fst r)) = [].
Proof. vm_compute. repeat split; reflexivity. Qed.

(** *** What holds wherever a run stops *)

Lemma str_eqb_eq (a b : str) : str_eqb a b = true -> a = b.
Proof. unfold str_eqb. now destruct (list_eq_dec ascii_dec a b). Qed.

Lemma lookup_remove_other {A} (k k' : str) (l : list (str * A)) :
  str_eqb k k' = false -> lookup_str k (remove_str k' l) = lookup_str k l.
Proof.
  intros Hne. induction l as [|[k0 a] l IH]; simpl; [reflexivity|].
  destruct (str_eqb k' k0) eqn:E0; simpl.
  - apply str_eqb_eq in E0. subst k0. now rewrite Hne.
  - now rewrite IH.
Qed.

Lemma lookup_in_dir d f files :
  lookup_str d (tempdirs (in_dir d f files))
  = option_map f (lookup_str d (tempdirs files)).
Proof.
  unfold in_dir. destruct (lookup_str d (tempdirs files)) as [t|] eqn:E.
  - simpl. now rewrite str_eqb_refl.
  - now rewrite E.
Qed.

Lemma lookup_in_dir_other d d' f files :
  str_eqb d d' = false ->
  lookup_str d (tempdirs (in_dir d' f files)) = lookup_str d (tempdirs files).
Proof.
  intros Hne. unfold in_dir.
  destruct (lookup_str d' (tempdirs files)) as [t|]; [|reflexivity].
  simpl. rewrite Hne. now apply lookup_remove_other.
Qed.


Lemma has_dir_in_dir d d' f files :
  lookup_str d (tempdirs files) <> None ->
  lookup_str d (tempdirs (in_dir d' f files)) <> None.
Proof.
  intros H. destruct (str_eqb d d') eqn:E.
  - apply str_eqb_eq in E. subst d'. rewrite lookup_in_dir.
    now destruct (lookup_str d (tempdirs files)).
  - now rewrite lookup_in_dir_other.
Qed.

Lemma has_dir_makedirs d files :
  lookup_str d (tempdirs (makedirs d files)) <> None.
Proof.
  unfold makedirs. destruct (lookup_str d (tempdirs files)) as [t|] eqn:E.
  - now rewrite E.
  - simpl. now rewrite str_eqb_refl.
Qed.


Section exits.

Variable R : Stop -> MyWindow -> Prop.

Lemma exits_bind {A B} (P : MyWindow -> Prop) (m : M A)
  (Q : A -> MyWindow -> Prop) (k : A -> M B) (Q' : B -> MyWindow -> Prop) :
  exits_under R P m Q -> (forall a, exits_under R (Q a) (k a) Q') ->
  exits_under R P (bind m k) Q'.
Proof.
  intros Hm Hk st HP. specialize (Hm st HP). unfold bind.
  destruct (m st) as [st' [s|a]]; auto. now apply Hk.
Qed.

Lemma exits_ret {A} (P : MyWindow -> Prop) (a : A) :
  exits_under R P (ret a) (fun _ => P).
Proof. intros st HP. exact HP. Qed.

Lemma exits_ret_value {A} (P : MyWindow -> Prop) (a : A) :
  exits_under R P (ret a) (fun a' st => a' = a /\ P st).
Proof. intros st HP. now split. Qed.

Lemma exits_get (P : MyWindow -> Prop) :
  exits_under R P get (fun st0 st => st = st0 /\ P st).
Proof. intros st HP. now split. Qed.

Lemma exits_modify (P Q : MyWindow -> Prop) f :
  (forall st, P st -> Q (f st)) -> exits_under R P (modify f) (fun _ => Q).
Proof. intros H st HP. now apply H. Qed.

Lemma exits_raise {A} (P : MyWindow -> Prop) e (Q : A -> MyWindow -> Prop) :
  (forall st, P st -> R (Raised e) st) -> exits_under R P (raise e) Q.
Proof. intros H st HP. now apply H. Qed.

Lemma exits_weaken {A} (P P' : MyWindow -> Prop) (m : M A)
  (Q Q' : A -> MyWindow -> Prop) :
  exits_under R P m Q -> (forall st, P' st -> P st) ->
  (forall a st, Q a st -> Q' a st) -> exits_under R P' m Q'.
Proof.
  intros Hm HP HQ st HP'. specialize (Hm st (HP st HP')).
  destruct (m st) as [st' [s|a]]; auto.
Qed.

Lemma exits_false {A} (m : M A) (Q : A -> MyWindow -> Prop) :
  exits_under R (fun _ => False) m Q.
Proof. intros st []. Qed.

Lemma exits_assume {A} (phi : Prop) (P : MyWindow -> Prop) (m : M A)
  (Q : A -> MyWindow -> Prop) :
  (forall st, P st -> phi) -> (phi -> exits_under R P m Q) ->
  exits_under R P m Q.
Proof. intros Hphi Hm st HP. exact (Hm (Hphi st HP) st HP). Qed.

(** A use of [self.tempdir] keeps what the assignment of another run
    keeps, and returns the attribute as it then is. *)
Lemma exits_self_tempdir c u (P : MyWindow -> Prop) :
  (forall d st, reassigned c u = Some d -> P st ->
     P (set_fs (makedirs d (fs st)) (set_tempdir (Some d) st))) ->
  exits_under R P (self_tempdir c u)
    (fun dir st => dir = tempdir st /\ P st).
Proof.
  intros Hre st HP. unfold self_tempdir.
  destruct (reassigned c u) as [d|] eqn:E; cbn.
  - split; [reflexivity|]. specialize (Hre d st eq_refl HP).
    now destruct st.
  - now split.
Qed.

Lemma exits_check_cancel c is_queue_item p (P : MyWindow -> Prop) :
  (forall st, P st -> R Returned (fst (bail_out c is_queue_item p st))) ->
  exits_under R P (check_cancel c is_queue_item p) (fun _ => P).
Proof.
  intros Hbail st HP. destruct (cancel c p) eqn:E.
  - rewrite check_cancel_true by assumption. now apply Hbail.
  - rewrite check_cancel_false by assumption. exact HP.
Qed.

End exits.

(** *** What a run keeps until it stops *)

Section stable.

Variable w : World.
Variable c : Controller.
Variable is_queue_item : bool.

Variable R : Stop -> MyWindow -> Prop.
Variable P : MyWindow -> Prop.

Hypothesis P_warn :
  forall msg st, P st -> P (set_errors (_errors st ++ [msg]) st).
Hypothesis P_in_dir :
  forall d f st, P st -> P (set_fs (in_dir d f (fs st)) st).
Hypothesis P_reassigned :
  forall u d st, reassigned c u = Some d -> P st ->
    P (set_fs (makedirs d (fs st)) (set_tempdir (Some d) st)).
Hypothesis P_bail :
  forall p st, P st -> R Returned (fst (bail_out c is_queue_item p st)).
Hypothesis P_raise : forall e st, P st -> R (Raised e) st.

Lemma stable_warn msg : exits_under R P (warn msg) (fun _ => P).
Proof. apply exits_modify. intros st H. exact (P_warn _ _ H). Qed.

Lemma stable_in_dir d f : exits_under R P (on_fs (in_dir d f)) (fun _ => P).
Proof. apply exits_modify. intros st H. exact (P_in_dir _ _ _ H). Qed.

Lemma stable_check_cancel p :
  exits_under R P (check_cancel c is_queue_item p) (fun _ => P).
Proof. apply exits_check_cancel. apply P_bail. Qed.

Lemma stable_self_tempdir u :
  exits_under R P (self_tempdir c u) (fun dir st => dir = tempdir st /\ P st).
Proof. apply exits_self_tempdir. apply P_reassigned. Qed.

Lemma stable_here {A} (phi : MyWindow -> Prop) (m : M A)
  (Q : A -> MyWindow -> Prop) :
  exits_under R P m Q ->
  exits_under R (fun st => phi st /\ P st) m Q.
Proof. intros H st [_ HP]. now apply H. Qed.

Lemma stable_synthesize_line s0 i line :
  exits_under R P (synthesize_line w c s0 i line) (fun _ => P).
Proof.
  unfold synthesize_line. cbv zeta.
  eapply exits_bind; [apply stable_self_tempdir | intros dir].
  apply stable_here. destruct dir as [dir|]; [|apply stable_warn].
  destruct (hand_write w i _); [apply stable_warn | apply stable_in_dir].
Qed.

Lemma stable_synthesize s0 lines :
  forall i,
    exits_under R P (synthesize w c is_queue_item s0 i lines) (fun _ => P).
Proof.
  induction lines as [|line lines IH]; intros i; [apply exits_ret|].
  cbn [synthesize].
  eapply exits_bind; [apply stable_check_cancel | intros ?].
  eapply exits_bind; [apply stable_synthesize_line | intros ?; apply IH].
Qed.

Lemma stable_rasterize_line i line :
  exits_under R P (rasterize_line w c i line) (fun _ => P).
Proof.
  unfold rasterize_line. cbv zeta.
  eapply exits_bind; [apply stable_self_tempdir | intros dir].
  apply stable_here.
  eapply exits_bind; [apply exits_get | intros st].
  apply stable_here.
  destruct dir as [dir|]; [|apply stable_warn].
  destruct (str_eqb line (lit " ")); [apply stable_in_dir|].
  destruct (read_svg dir i (fs st)) as [d|].
  - destruct (svg2png w d) as [e | [width height]];
      [apply stable_warn | apply stable_in_dir].
  - destruct (svg2png_missing w); [apply stable_warn | apply exits_ret].
Qed.

Lemma stable_rasterize lines :
  forall i,
    exits_under R P (rasterize w c is_queue_item i lines) (fun _ => P).
Proof.
  induction lines as [|line lines IH]; intros i; [apply exits_ret|].
  cbn [rasterize].
  eapply exits_bind; [apply stable_check_cancel | intros ?].
  eapply exits_bind; [apply stable_rasterize_line | intros ?; apply IH].
Qed.

Lemma stable_compose line_spacing image_bounds use_image_placement n :
  forall i pasted,
    exits_under R P
      (compose c line_spacing image_bounds use_image_placement i n pasted)
      (fun _ => P).
Proof.
  induction n as [|n IH]; intros i pasted; [apply exits_ret|].
  cbn [compose].
  eapply exits_bind; [apply stable_self_tempdir | intros dir].
  apply stable_here.
  eapply exits_bind; [apply exits_get | intros st].
  apply stable_here.
  destruct dir as [dir|];
    [|apply exits_raise; intros st1 H; exact (P_raise _ _ H)].
  destruct (read_png dir i (fs st)) as [line_image|].
  - destruct (place_line _ _ _ _ _ _ _ _) as [x_pos y_pos]. apply IH.
  - apply exits_raise. intros st1 H. exact (P_raise _ _ H).
Qed.

Lemma stable_place_image s : exits_under R P (place_image w s) (fun _ => P).
Proof.
  unfold place_image. destruct (truthy (image_path s)) as [path|];
    [|apply exits_ret].
  destruct (image_enabled s && path_exists w path); [|apply exits_ret].
  destruct (open_placed_image w path); [|apply exits_ret].
  eapply exits_bind; [apply stable_warn | intros ?; apply exits_ret].
Qed.

Lemma stable_file_suffix :
  exits_under R P (file_suffix is_queue_item) (fun _ => P).
Proof.
  unfold file_suffix.
  eapply exits_bind; [apply exits_get | intros st].
  apply stable_here.
  destruct is_queue_item; [|apply exits_ret].
  destruct (nth_error _ _); [apply exits_ret|].
  apply exits_raise. intros st1 H. exact (P_raise _ _ H).
Qed.

Lemma stable_composite_background s :
  exits_under R P (composite_background w s) (fun _ => P).
Proof.
  unfold composite_background.
  destruct (str_eqb (background_type s) (lit "transparent"));
    [apply exits_ret|].
  destruct (if str_eqb (background_type s) (lit "image")
            then truthy (background_image_path s) else None) as [path|];
    [|apply exits_ret].
  destruct (open_background w path); [|apply exits_ret].
  eapply exits_bind; [apply stable_warn | intros ?; apply exits_ret].
Qed.

End stable.

(** Saving never stops the run, and leaves [self.tempdir] alone. *)
Lemma save_output_goes_on w s output_path page bg st :
  exists files st',
    save_output w s output_path page bg st = (st', inr files)
    /\ tempdir st' = tempdir st.
Proof.
  unfold save_output. cbv zeta.
  destruct (str_eqb (export_format s) (lit "png"));
    [destruct (save w); do 2 eexists; (split; [reflexivity|]);
     now destruct st|].
  destruct (str_eqb (export_format s) (lit "jpg"));
    [destruct (save w); do 2 eexists; (split; [reflexivity|]);
     now destruct st|].
  destruct (_ && _);
    [destruct (save w); do 2 eexists; (split; [reflexivity|]);
     now destruct st|].
  now do 2 eexists.
Qed.

Section stops.

Variable w : World.
Variable c : Controller.
Variable is_queue_item : bool.

Variable R : Stop -> MyWindow -> Prop.
Variables P0 P1 P : MyWindow -> Prop.

Hypothesis P_warn :
  forall msg st, P st -> P (set_errors (_errors st ++ [msg]) st).
Hypothesis P_in_dir :
  forall d f st, P st -> P (set_fs (in_dir d f (fs st)) st).
Hypothesis P_reassigned :
  forall u d st, reassigned c u = Some d -> P st ->
    P (set_fs (makedirs d (fs st)) (set_tempdir (Some d) st)).
Hypothesis P_bail :
  forall p st, P st -> R Returned (fst (bail_out c is_queue_item p st)).
Hypothesis P_raise : forall e st, P st -> R (Raised e) st.

Hypothesis P0_bail :
  forall st, P0 st -> R Returned (fst (bail_out c is_queue_item PollInit st)).
Hypothesis P0_start :
  forall st, P0 st -> P1 (set_tempdir (Some (tempdir_of w)) st).
Hypothesis P1_reassigned :
  forall d st, reassigned c ToCreate = Some d -> P1 st ->
    P1 (set_fs (makedirs d (fs st)) (set_tempdir (Some d) st)).
Hypothesis P1_created :
  forall d st, P1 st -> tempdir st = Some d ->
    P (set_fs (makedirs d (fs st)) st).

(** From line 1673 on [self.tempdir] is assigned. *)
Let assigned (Q : MyWindow -> Prop) (st : MyWindow) : Prop :=
  Q st /\ tempdir st <> None.

Lemma assigned_warn msg st :
  assigned P st -> assigned P (set_errors (_errors st ++ [msg]) st).
Proof. intros [H Hd]. split; [now apply P_warn | now destruct st]. Qed.

Lemma assigned_in_dir d f st :
  assigned P st -> assigned P (set_fs (in_dir d f (fs st)) st).
Proof. intros [H Hd]. split; [now apply P_in_dir | now destruct st]. Qed.

Lemma assigned_reassigned u d st :
  reassigned c u = Some d -> assigned P st ->
  assigned P (set_fs (makedirs d (fs st)) (set_tempdir (Some d) st)).
Proof.
  intros E [H Hd]. split; [now apply (P_reassigned u)|].
  destruct st; discriminate.
Qed.

Lemma assigned_bail p st :
  assigned P st -> R Returned (fst (bail_out c is_queue_item p st)).
Proof. intros [H _]. now apply P_bail. Qed.

Lemma assigned_raise e st : assigned P st -> R (Raised e) st.
Proof. intros [H _]. now apply P_raise. Qed.

Ltac assigned_hyp :=
  first [ exact assigned_warn | exact assigned_in_dir
        | exact assigned_reassigned | exact assigned_bail
        | exact assigned_raise ].

(** A condition that holds when the run starts, survives the creation of
    the temporary directory, the assignments of other runs, the warnings
    and the temporary files, holds wherever the run stops. *)
Lemma pipeline_stops :
  exits_under R P0 (pipeline w c is_queue_item) (fun _ _ => True).
Proof.
  unfold pipeline.
  eapply exits_bind; [apply exits_check_cancel; exact P0_bail | intros ?].
  eapply exits_bind; [apply exits_get | intros st0].
  cbv zeta.
  eapply exits_bind with (Q := fun _ => assigned P1).
  { apply exits_modify. intros st [_ H]. split; [now apply P0_start|].
    destruct st; discriminate. }
  intros ?.
  eapply exits_bind.
  { apply exits_self_tempdir. intros d st E [H _].
    split; [now apply P1_reassigned|]. destruct st; discriminate. }
  intros dir.
  eapply exits_bind with (Q := fun _ => assigned P).
  { destruct dir as [d|].
    - apply exits_modify. intros st (Hd & H1 & Hne).
      split; [now apply P1_created | now destruct st].
    - apply exits_raise. intros st (Hd & _ & Hne). congruence. }
  intros ?.
  eapply exits_bind with (Q := fun _ => assigned P).
  { destruct (prepare_lines _ _); [|apply exits_ret].
    apply exits_raise. intros st1 H. now apply assigned_raise. }
  intros synthesized_lines.
  eapply exits_bind with (Q := fun _ => assigned P).
  { destruct (_ =? 0); [|apply exits_ret].
    apply exits_raise. intros st1 H. now apply assigned_raise. }
  intros ?.
  eapply exits_bind;
    [apply stable_synthesize with (P := assigned P); assigned_hyp | intros ?].
  eapply exits_bind;
    [apply stable_rasterize with (P := assigned P); assigned_hyp | intros ?].
  eapply exits_bind;
    [apply exits_check_cancel; apply assigned_bail | intros ?].
  eapply exits_bind;
    [apply stable_place_image with (P := assigned P); assigned_hyp | intros picture].
  eapply exits_bind;
    [apply stable_compose with (P := assigned P); assigned_hyp | intros pasted].
  eapply exits_bind;
    [apply exits_check_cancel; apply assigned_bail | intros ?].
  eapply exits_bind with (Q := fun _ => assigned P).
  { destruct (fulltrim w); [|apply exits_ret].
    apply exits_raise. intros st1 H. now apply assigned_raise. }
  intros ?.
  eapply exits_bind;
    [apply stable_file_suffix with (c := c) (P := assigned P); assigned_hyp | intros suffix].
  eapply exits_bind;
    [apply stable_composite_background with (P := assigned P); assigned_hyp | intros bg].
  intros st [_ Hne].
  destruct (save_output_goes_on w (live c AtEncode)
              (lit "outputs/" ++ fileid w ++ suffix)
              {| cv_height :=
                   (400 + lineheightscale (live c AtCombine)
                          * Z.of_nat (length synthesized_lines))%Z;
                 cv_picture := picture; cv_lines := pasted |} bg st)
    as (files & st1 & E & Hdir).
  rewrite (bind_ok _ _ _ _ _ E).
  rewrite <- Hdir in Hne. clear E Hdir.
  unfold bind, modify, self_tempdir, on_fs, get, ret.
  destruct (reassigned c ToCleanUp); cbn; [exact I|].
  destruct st1 as [? ? ? ? ? [d|] ? ? ? ? ? ? ?]; cbn in *; [exact I|].
  congruence.
Qed.

End stops.

Lemma outputs_bail_out c is_queue_item p st :
  outputs (fs (fst (bail_out c is_queue_item p st))) = outputs (fs st).
Proof. apply (bail_out_local c is_queue_item p st st), local_refl. Qed.

(** The output files of a run that stops before its end are the ones of
    before the run. *)
Lemma stopped_keeps_outputs w c is_queue_item st :
  snd (pipeline w c is_queue_item st) <> inr tt ->
  outputs (fs (fst (pipeline w c is_queue_item st))) = outputs (fs st).
Proof.
  intros Hstop.
  set (same := fun st' : MyWindow => outputs (fs st') = outputs (fs st)).
  assert (H : exits_under (fun _ => same) same (pipeline w c is_queue_item)
                (fun _ _ => True)).
  { apply pipeline_stops with (P1 := same) (P := same); unfold same.
    - intros msg st1 H1. now destruct st1.
    - intros d f st1 H1. destruct st1; simpl in *. now rewrite outputs_in_dir.
    - intros u d st1 _ H1. destruct st1; simpl in *.
      now rewrite outputs_makedirs.
    - intros p st1 H1. etransitivity; [apply outputs_bail_out | exact H1].
    - intros e st1 H1. exact H1.
    - intros st1 H1. etransitivity; [apply outputs_bail_out | exact H1].
    - intros st1 H1. now destruct st1.
    - intros d st1 _ H1. destruct st1; simpl in *.
      now rewrite outputs_makedirs.
    - intros d st1 H1 _. destruct st1; simpl in *.
      now rewrite outputs_makedirs. }
  specialize (H st eq_refl).
  destruct (pipeline w c is_queue_item st) as [st' [s|[]]]; simpl in *.
  - exact H.
  - congruence.
Qed.

(** A run that does not reach its end, because it is cancelled at any of
    its polls or because an exception leaves it, writes no output file,
    whatever other runs are started meanwhile. *)
Theorem unfinished_run_writes_nothing :
  forall (w : World) (c : Controller) (is_queue_item : bool) (st : MyWindow),
    snd (pipeline w c is_queue_item st) <> inr tt ->
    outputs (fs (fst (pipeline w c is_queue_item st))) = outputs (fs st).
Proof. exact stopped_keeps_outputs. Qed.

(** [unfinished_run_writes_nothing] at the run in which the third line
    fails. *)
Lemma unfinished_run_writes_nothing_witness :
  outputs (fs (fst (pipeline (failing_on 2 (lit "AAAAAA"))
                      (idle default_settings) false
                      (set_text five_lines (new_window no_files)))))
  = [].
Proof.
  apply (unfinished_run_writes_nothing (failing_on 2 (lit "AAAAAA"))
           (idle default_settings) false
           (set_text five_lines (new_window no_files))).
  vm_compute. discriminate.
Defined.

(** What [bail_out] leaves, whatever the state it is called in: no
    directory under [self.tempdir], no dialog, the generate button
    enabled and, in a queue, the queue buttons too. *)
Lemma bail_out_leaves c is_queue_item p st :
  let st' := fst (bail_out c is_queue_item p st) in
  (forall d, tempdir st' = Some d -> lookup_str d (tempdirs (fs st')) = None)
  /\ generatedialog st' = false
  /\ generatebutton st' = true
  /\ (is_queue_item = true -> queue_buttons st' = true).
Proof.
  unfold bail_out, self_tempdir.
  destruct (reassigned c (ToBailOut p)) as [d'|];
    destruct st as [? ? ? ? ? [d|] ? ? ? ? ? ? ?]; destruct is_queue_item;
    cbn -[makedirs remove_str]; repeat split; try discriminate;
    intros d0 [= <-]; apply lookup_remove_str.
Qed.

(** A run that is cancelled, at whichever poll, leaves no directory under
    the name [self.tempdir] then holds, has closed the dialog and has
    enabled the generate button again; in a queue it has enabled the queue
    buttons too. *)
Theorem cancelled_run_cleans_up :
  forall (w : World) (c : Controller) (is_queue_item : bool) (st : MyWindow),
    snd (pipeline w c is_queue_item st) = inl Returned ->
    let st' := fst (pipeline w c is_queue_item st) in
    (forall d, tempdir st' = Some d -> lookup_str d (tempdirs (fs st')) = None)
    /\ generatedialog st' = false
    /\ generatebutton st' = true
    /\ (is_queue_item = true -> queue_buttons st' = true).
Proof.
  intros w c is_queue_item st Hstop.
  set (good := fun st' : MyWindow =>
      (forall d, tempdir st' = Some d -> lookup_str d (tempdirs (fs st')) = None)
      /\ generatedialog st' = false
      /\ generatebutton st' = true
      /\ (is_queue_item = true -> queue_buttons st' = true)).
  assert (H : exits_under (fun s st' => match s with
                                        | Returned => good st'
                                        | Raised _ => True
                                        end)
                (fun _ => True) (pipeline w c is_queue_item)
                (fun _ _ => True)).
  { apply pipeline_stops with (P1 := fun _ => True) (P := fun _ => True);
      try (intros; exact I); intros; apply bail_out_leaves. }
  specialize (H st I).
  cbv zeta. destruct (pipeline w c is_queue_item st) as [st' [s|[]]];
    simpl in *; [|discriminate].
  injection Hstop as ->. exact H.
Qed.

(** [cancelled_run_cleans_up] at a run cancelled after the last raster,
    before the lines are combined. *)
Lemma cancelled_run_cleans_up_witness :
  let st' := fst (pipeline (fair_world (lit "AAAAAA"))
                    (cancelling_at PollCombine default_settings) true
                    (set_text five_lines (new_window no_files))) in
  (forall d, tempdir st' = Some d -> lookup_str d (tempdirs (fs st')) = None)
  /\ generatedialog st' = false
  /\ generatebutton st' = true
  /\ (true = true -> queue_buttons st' = true).
Proof.
  apply (cancelled_run_cleans_up (fair_world (lit "AAAAAA"))
           (cancelling_at PollCombine default_settings) true
           (set_text five_lines (new_window no_files))).
  reflexivity.
Defined.

(** *** An exception leaves the temporary directory behind *)



(** C4 at two runs that end with an exception, one raised by the
    composition loop and one by [fulltrim]: the temporary directory of
    the run is still there afterwards, with the rasters in it. *)
Theorem C4_tempdir_left_after_exception :
  let st := set_text five_lines (new_window no_files) in
  let r1 := generate_writing (failing_on 2 (lit "AAAAAA"))
              (idle default_settings) false (ret tt) st in
  let r2 := generate_writing (trim_failing (lit "BBBBBB"))
              (idle default_settings) false (ret tt) st in
  outcomes (fst r1)
  = [Crashed (FileNotFoundError (lit "handsynth-temp-AAAAAA/2.png"))]
  /\ option_map (fun t => map fst (pngs t))
       (lookup_str (lit "handsynth-temp-AAAAAA") (tempdirs (fs (fst r1))))
     = Some [4; 3; 1; 0]
  /\ outcomes (fst r2) = [Crashed (External (lit "bad canvas"))]
  /\ option_map (fun t => map fst (pngs t))
       (lookup_str (lit "handsynth-temp-BBBBBB") (tempdirs (fs (fst r2))))
     = Some [4; 3; 2; 1; 0].
Proof. vm_compute. repeat split; reflexivity. Qed.

(** ** After an exception *)

Lemma same_controls_refl st : same_controls st st.
Proof. unfold same_controls. repeat split. Qed.

(** An exception leaves the run with the queue, the flags, the buttons
    and the dialog as they were when the run started. *)
Lemma raised_keeps_controls w c is_queue_item st e :
  snd (pipeline w c is_queue_item st) = inl (Raised e) ->
  same_controls st (fst (pipeline w c is_queue_item st)).
Proof.
  intros Hstop.
  assert (H : exits_under (when_raised (same_controls st)) (same_controls st)
                (pipeline w c is_queue_item) (fun _ _ => True)).
  { apply pipeline_stops with (P1 := same_controls st) (P := same_controls st).
    - intros msg st1 H1. now destruct st1.
    - intros d f st1 H1. now destruct st1.
    - intros u d st1 _ H1. now destruct st1.
    - intros; exact I.
    - intros e' st1 H1. exact H1.
    - intros; exact I.
    - intros st1 H1. now destruct st1.
    - intros d st1 _ H1. now destruct st1.
    - intros d st1 H1 _. now destruct st1. }
  specialize (H st (same_controls_refl st)).
  destruct (pipeline w c is_queue_item st) as [st' [s|[]]]; simpl in *;
    [|discriminate].
  injection Hstop as ->. exact H.
Qed.

(** What [generate_writing] leaves when an exception leaves the run. *)
Lemma generate_writing_raised w c is_queue_item next st e :
  snd (pipeline w c is_queue_item st) = inl (Raised e) ->
  let st' := fst (generate_writing w c is_queue_item next st) in
  outcomes st' = outcomes st ++ [Crashed e]
  /\ text_queue st' = text_queue st
  /\ current_queue_index st' = current_queue_index st
  /\ processing_queue st' = processing_queue st
  /\ generatebutton st' = generatebutton st
  /\ queue_buttons st' = queue_buttons st
  /\ generatedialog st' = generatedialog st.
Proof.
  intros Hstop.
  pose proof (raised_keeps_controls w c is_queue_item st e Hstop) as Hsame.
  unfold generate_writing.
  destruct (pipeline w c is_queue_item st) as [st2 [s|[]]]; simpl in *;
    [|discriminate].
  injection Hstop as ->.
  destruct Hsame as (_ & Hq & Hi & Hp & Hg & Hb & _ & Hd & Ho).
  cbn. rewrite Ho. repeat split; assumption.
Qed.

(** The run that [process_next_queue_item] starts for the item at the
    index. *)
Lemma process_next_queue_item_run fuel runs st queue_item :
  nth_error (text_queue st) (current_queue_index st) = Some queue_item ->
  fst (process_next_queue_item (S fuel) runs st)
  = fst (generate_writing (fst (runs (current_queue_index st)))
           (snd (runs (current_queue_index st))) true
           (process_next_queue_item fuel runs)
           (set_generatedialog true
              (set_errors [] (set_text (qi_text queue_item) st)))).
Proof.
  intros Hitem.
  assert (Hidx : current_queue_index st < length (text_queue st))
    by (apply nth_error_Some; congruence).
  assert (Hleb : (length (text_queue st) <=? current_queue_index st) = false)
    by (apply Nat.leb_gt; assumption).
  assert (Hnth : nth (current_queue_index st) (text_queue st)
                   (mkQueueItem [] []) = queue_item)
    by (now apply nth_error_nth).
  cbn [process_next_queue_item].
  rewrite (bind_ok _ _ st st st) by reflexivity.
  rewrite Hleb. cbv zeta. rewrite Hnth.
  rewrite (bind_ok _ _ st (set_text (qi_text queue_item) st) tt)
    by reflexivity.
  unfold generate_dialog.
  rewrite (bind_ok _ _ _ (set_errors [] (set_text (qi_text queue_item) st)) tt)
    by reflexivity.
  rewrite (bind_ok _ _ _ (set_errors [] (set_text (qi_text queue_item) st)) tt)
    by reflexivity.
  rewrite (bind_ok _ _ _
             (set_generatedialog true
                (set_errors [] (set_text (qi_text queue_item) st))) tt)
    by reflexivity.
  reflexivity.
Qed.

(** When an exception leaves the run of a queue item, the queue goes no
    further and nothing is put back: the index stays on the item, the
    queue is still marked as being processed, the buttons keep the state
    the queue gave them, and the dialog of the run stays open. *)
Theorem crashed_item_blocks_queue :
  forall (fuel : nat) (runs : nat -> World * Controller) (st : MyWindow)
         (queue_item : QueueItem) (e : Exception),
    nth_error (text_queue st) (current_queue_index st) = Some queue_item ->
    snd (pipeline (fst (runs (current_queue_index st)))
           (snd (runs (current_queue_index st))) true
           (set_generatedialog true
              (set_errors [] (set_text (qi_text queue_item) st))))
    = inl (Raised e) ->
    let st' := fst (process_next_queue_item (S fuel) runs st) in
    outcomes st' = outcomes st ++ [Crashed e]
    /\ text_queue st' = text_queue st
    /\ current_queue_index st' = current_queue_index st
    /\ processing_queue st' = processing_queue st
    /\ generatebutton st' = generatebutton st
    /\ queue_buttons st' = queue_buttons st
    /\ generatedialog st' = true.
Proof.
  intros fuel runs st queue_item e Hitem Hstop st'. unfold st'.
  rewrite (process_next_queue_item_run fuel runs st queue_item Hitem).
  exact (generate_writing_raised _ _ true _ _ e Hstop).
Qed.

(** [crashed_item_blocks_queue] at the queue A, B, C when [Hand.write]
    raises on B's line: the buttons that [process_queue] disabled stay
    disabled. *)
Lemma crashed_item_blocks_queue_witness :
  let st' := fst (process_next_queue_item 3 runs_fail_B window_ABC_at_B) in
  outcomes st'
  = [Crashed (FileNotFoundError (lit "handsynth-temp-RUN001/0.png"))]
  /\ text_queue st' = text_queue window_ABC
  /\ current_queue_index st' = 1
  /\ processing_queue st' = true
  /\ generatebutton st' = false
  /\ queue_buttons st' = false
  /\ generatedialog st' = true.
Proof.
  apply (crashed_item_blocks_queue 2 runs_fail_B window_ABC_at_B
           (new_QueueItem (lit "beta" ++ newline) (lit "B"))
           (FileNotFoundError (lit "handsynth-temp-RUN001/0.png"))).
  - reflexivity.
  - vm_compute. reflexivity.
Defined.

(** When an exception leaves a direct run, the generate button that
    [generate_dialog] disabled stays disabled and the dialog of the run
    stays open. *)
Theorem crashed_direct_run_blocks_window :
  forall (w : World) (c : Controller) (auto_remove_invalid : bool)
         (inputtext text : str) (next : M unit) (st : MyWindow)
         (e : Exception),
    generate_dialog_text auto_remove_invalid inputtext = inr text ->
    snd (pipeline w c false
           (set_generatedialog true
              (set_text text (set_generatebutton false (set_errors [] st)))))
    = inl (Raised e) ->
    let st' := fst (generate_dialog w c false auto_remove_invalid inputtext
                      next st) in
    outcomes st' = outcomes st ++ [Crashed e]
    /\ generatebutton st' = false
    /\ generatedialog st' = true.
Proof.
  intros w c auto inputtext text next st e Htext Hstop st'.
  set (st_c := set_generatedialog true
                 (set_text text (set_generatebutton false (set_errors [] st))))
    in *.
  assert (Hrun : st' = fst (generate_writing w c false next st_c)).
  { unfold st', generate_dialog.
    rewrite (bind_ok _ _ st (set_errors [] st) tt) by reflexivity.
    rewrite Htext.
    rewrite (bind_ok _ _ _ (set_text text
                              (set_generatebutton false (set_errors [] st))) tt)
      by reflexivity.
    rewrite (bind_ok _ _ _ st_c tt) by reflexivity.
    reflexivity. }
  rewrite Hrun.
  destruct (generate_writing_raised w c false next st_c e Hstop)
    as (Ho & _ & _ & _ & Hg & _ & Hd).
  repeat split; assumption.
Qed.

(** [crashed_direct_run_blocks_window] at the run in which the third of
    five lines fails. *)
Lemma crashed_direct_run_blocks_window_witness :
  let st' := fst (generate_dialog (failing_on 2 (lit "AAAAAA"))
                    (idle default_settings) false false five_lines (ret tt)
                    (new_window no_files)) in
  outcomes st'
  = [Crashed (FileNotFoundError (lit "handsynth-temp-AAAAAA/2.png"))]
  /\ generatebutton st' = false
  /\ generatedialog st' = true.
Proof.
  apply (crashed_direct_run_blocks_window (failing_on 2 (lit "AAAAAA"))
           (idle default_settings) false five_lines five_lines (ret tt)
           (new_window no_files)
           (FileNotFoundError (lit "handsynth-temp-AAAAAA/2.png"))).
  - vm_compute. reflexivity.
  - vm_compute. reflexivity.
Defined.

(** A direct run whose text is refused is not started: no dialog is
    opened, nothing is recorded and no file is touched, and the generate
    button is enabled again.  The warnings have been reset all the same,
    and [self.text] holds the refused text with its Q and X in lower
    case, not the text of the last run. *)
Theorem refused_text_starts_nothing :
  forall (w : World) (c : Controller) (auto_remove_invalid : bool)
         (inputtext : str) (next : M unit) (st : MyWindow) (e : IntakeError),
    generate_dialog_text auto_remove_invalid inputtext = inl e ->
    let r := generate_dialog w c false auto_remove_invalid inputtext next st in
    snd r = inl Returned
    /\ text (fst r) = lower_QX inputtext
    /\ _errors (fst r) = []
    /\ generatebutton (fst r) = true
    /\ generatedialog (fst r) = generatedialog st
    /\ outcomes (fst r) = outcomes st
    /\ fs (fst r) = fs st
    /\ tempdir (fst r) = tempdir st.
Proof.
  intros w c auto inputtext next st e Htext r. unfold r, generate_dialog.
  rewrite (bind_ok _ _ st (set_errors [] st) tt) by reflexivity.
  rewrite Htext. cbn. repeat split.
Qed.

(** [refused_text_starts_nothing] at a text with a dollar sign, typed
    into a new window. *)
Lemma refused_text_starts_nothing_witness :
  let r := generate_dialog (fair_world (lit "AAAAAA")) (idle default_settings)
             false false (lit "Quiz $5" ++ newline) (ret tt)
             (new_window no_files) in
  snd r = inl Returned
  /\ text (fst r) = lit "quiz $5" ++ newline
  /\ _errors (fst r) = []
  /\ generatebutton (fst r) = true
  /\ generatedialog (fst r) = false
  /\ outcomes (fst r) = []
  /\ fs (fst r) = no_files
  /\ tempdir (fst r) = None.
Proof.
  apply (refused_text_starts_nothing (fair_world (lit "AAAAAA"))
           (idle default_settings) false (lit "Quiz $5" ++ newline) (ret tt)
           (new_window no_files) (InvalidSymbol "$"%char)).
  reflexivity.
Defined.

(** *** The run that no other run interferes with *)

(** A run that reaches its end while no other run is started has removed
    its temporary directory, with or without warnings. *)
Theorem finished_removes_tempdir :
  forall (w : World) (c : Controller) (is_queue_item : bool) (st : MyWindow),
    alone c ->
    snd (pipeline w c is_queue_item st) = inr tt ->
    lookup_str (tempdir_of w)
      (tempdirs (fs (fst (pipeline w c is_queue_item st)))) = None.
Proof.
  intros w c is_queue_item st Halone Hend.
  set (mine := fun st1 : MyWindow => tempdir st1 = Some (tempdir_of w)).
  assert (mine_warn : forall msg st1,
            mine st1 -> mine (set_errors (_errors st1 ++ [msg]) st1))
    by (intros msg st1 H; now destruct st1).
  assert (mine_in_dir : forall d f st1,
            mine st1 -> mine (set_fs (in_dir d f (fs st1)) st1))
    by (intros d f st1 H; now destruct st1).
  assert (mine_reassigned : forall u d st1,
            reassigned c u = Some d -> mine st1 ->
            mine (set_fs (makedirs d (fs st1)) (set_tempdir (Some d) st1)))
    by (intros u d st1 E; rewrite Halone in E; discriminate).
  assert (H : exits_under (fun _ _ => True) (fun _ => True)
                (pipeline w c is_queue_item)
                (fun _ st' =>
                   lookup_str (tempdir_of w) (tempdirs (fs st')) = None)).
  { unfold pipeline.
    eapply exits_bind;
      [apply exits_check_cancel; intros; exact I | intros ?].
    eapply exits_bind with (Q := fun _ _ => True);
      [intros ? ?; exact I | intros st0].
    cbv zeta.
    eapply exits_bind with (Q := fun _ => mine);
      [apply exits_modify; intros st1 _; now destruct st1 | intros ?].
    eapply exits_bind;
      [apply exits_self_tempdir, (mine_reassigned ToCreate) | intros dir].
    eapply exits_bind with (Q := fun _ => mine).
    { destruct dir as [d|]; [|apply exits_raise; intros; exact I].
      apply exits_modify. intros st1 [_ H1]. now destruct st1. }
    intros ?.
    eapply exits_bind with (Q := fun _ => mine).
    { destruct (prepare_lines _ _); [|apply exits_ret].
      apply exits_raise. intros; exact I. }
    intros synthesized_lines.
    eapply exits_bind with (Q := fun _ => mine).
    { destruct (_ =? 0); [|apply exits_ret].
      apply exits_raise. intros; exact I. }
    intros ?.
    eapply exits_bind;
      [apply stable_synthesize with (P := mine); first [assumption | intros; exact I] | intros ?].
    eapply exits_bind;
      [apply stable_rasterize with (P := mine); first [assumption | intros; exact I] | intros ?].
    eapply exits_bind;
      [apply exits_check_cancel; intros; exact I | intros ?].
    eapply exits_bind;
      [apply stable_place_image with (P := mine); first [assumption | intros; exact I] | intros picture].
    eapply exits_bind;
      [apply stable_compose with (P := mine); first [assumption | intros; exact I] | intros pasted].
    eapply exits_bind;
      [apply exits_check_cancel; intros; exact I | intros ?].
    eapply exits_bind with (Q := fun _ => mine).
    { destruct (fulltrim w); [|apply exits_ret].
      apply exits_raise. intros; exact I. }
    intros ?.
    eapply exits_bind;
      [apply stable_file_suffix with (c := c) (P := mine); auto
      | intros suffix].
    eapply exits_bind;
      [apply stable_composite_background with (P := mine); first [assumption | intros; exact I]
      | intros bg].
    intros st1 Hmine.
    destruct (save_output_goes_on w (live c AtEncode)
                (lit "outputs/" ++ fileid w ++ suffix)
                {| cv_height :=
                     (400 + lineheightscale (live c AtCombine)
                            * Z.of_nat (length synthesized_lines))%Z;
                   cv_picture := picture; cv_lines := pasted |} bg st1)
      as (files & st2 & E & Hdir).
    rewrite (bind_ok _ _ _ _ _ E).
    unfold mine in Hmine. rewrite <- Hdir in Hmine. clear E Hdir.
    unfold bind, modify, self_tempdir, on_fs, get, ret.
    rewrite Halone.
    destruct st2 as [? ? ? ? errs d ? ? ? ? ? ? ?]. cbn [tempdir] in Hmine.
    subst d.
    destruct errs; cbn -[rmtree tempdir_of]; unfold rmtree; cbn [tempdirs];
      apply lookup_remove_str. }
  specialize (H st I).
  destruct (pipeline w c is_queue_item st) as [st' [s|[]]]; simpl in *;
    [discriminate | exact H].
Qed.

(** [finished_removes_tempdir] at a run of five lines in which nothing
    fails. *)
Lemma finished_removes_tempdir_witness :
  lookup_str (lit "handsynth-temp-AAAAAA")
    (tempdirs (fs (fst (pipeline (fair_world (lit "AAAAAA"))
                          (idle default_settings) false
                          (set_text five_lines (new_window no_files))))))
  = None.
Proof.
  apply (finished_removes_tempdir (fair_world (lit "AAAAAA"))
           (idle default_settings) false
           (set_text five_lines (new_window no_files))).
  - intros u. reflexivity.
  - vm_compute. reflexivity.
Defined.

(** *** A line that fails leaves the run without output *)

Lemma read_svg_write_svg d k i x files :
  i <> k -> read_svg d k (write_svg d i x files) = read_svg d k files.
Proof.
  intros Hne. unfold read_svg, write_svg. rewrite lookup_in_dir.
  destruct (lookup_str d (tempdirs files)) as [t|]; [|reflexivity].
  simpl. apply Nat.eqb_neq in Hne. rewrite Nat.eqb_sym in Hne. now rewrite Hne.
Qed.

Lemma read_png_write_svg d k i x files :
  read_png d k (write_svg d i x files) = read_png d k files.
Proof.
  unfold read_png, write_svg. rewrite lookup_in_dir.
  now destruct (lookup_str d (tempdirs files)).
Qed.

Lemma read_svg_write_png d k i x files :
  read_svg d k (write_png d i x files) = read_svg d k files.
Proof.
  unfold read_svg, write_png. rewrite lookup_in_dir.
  now destruct (lookup_str d (tempdirs files)).
Qed.

Lemma read_png_write_png d k i x files :
  i <> k -> read_png d k (write_png d i x files) = read_png d k files.
Proof.
  intros Hne. unfold read_png, write_png. rewrite lookup_in_dir.
  destruct (lookup_str d (tempdirs files)) as [t|]; [|reflexivity].
  simpl. apply Nat.eqb_neq in Hne. rewrite Nat.eqb_sym in Hne. now rewrite Hne.
Qed.

Section failed_line.

Variable w : World.
Variable c : Controller.
Variable is_queue_item : bool.

Hypothesis quiet : alone c.

(** [Hand.write] raises on line [k], whatever its arguments. *)
Variable k : nat.
Hypothesis fails : forall d, hand_write w k d <> None.

Let dir := tempdir_of w.
Let R (_ : Stop) (_ : MyWindow) : Prop := True.

(** [self.tempdir] names the directory of the run, in which neither the
    drawing nor the raster of line [k] exists. *)
Let missing (st : MyWindow) : Prop :=
  tempdir st = Some dir
  /\ read_svg dir k (fs st) = None
  /\ read_png dir k (fs st) = None.

Lemma missing_self_tempdir u :
  exits_under R missing (self_tempdir c u)
    (fun d st => d = Some dir /\ missing st).
Proof.
  intros st H. rewrite self_tempdir_same by apply quiet.
  split; [apply H | exact H].
Qed.

Lemma missing_check_cancel p (P : MyWindow -> Prop) :
  exits_under R P (check_cancel c is_queue_item p) (fun _ => P).
Proof. apply exits_check_cancel. intros; exact I. Qed.

Lemma missing_warn msg : exits_under R missing (warn msg) (fun _ => missing).
Proof. apply exits_modify. intros st H. now destruct st. Qed.

Lemma missing_synthesize s0 lines :
  forall i,
    exits_under R missing (synthesize w c is_queue_item s0 i lines)
      (fun _ => missing).
Proof.
  induction lines as [|line lines IH]; intros i; [apply exits_ret|].
  cbn [synthesize].
  eapply exits_bind; [apply missing_check_cancel | intros ?].
  eapply exits_bind; [|intros ?; apply IH].
  unfold synthesize_line. cbv zeta.
  eapply exits_bind; [apply missing_self_tempdir | intros d].
  apply exits_assume with (phi := d = Some dir); [now intros ? [? _]|].
  intros ->.
  eapply exits_weaken with (P := missing) (Q := fun _ => missing);
    [|now intros ? [_ ?] | auto].
  destruct (hand_write w i _) as [e|] eqn:E; [apply missing_warn|].
  assert (Hne : i <> k) by (intros ->; exact (fails _ E)).
  apply exits_modify. intros st (Hdir & Hsvg & Hpng). destruct st.
  unfold missing. simpl in *.
  now rewrite read_svg_write_svg, read_png_write_svg by assumption.
Qed.

Lemma missing_rasterize lines :
  forall i,
    (forall line, i <= k -> nth_error lines (k - i) = Some line ->
                  str_eqb line (lit " ") = false) ->
    exits_under R missing (rasterize w c is_queue_item i lines)
      (fun _ => missing).
Proof.
  induction lines as [|line lines IH]; intros i Hline; [apply exits_ret|].
  cbn [rasterize].
  eapply exits_bind; [apply missing_check_cancel | intros ?].
  eapply exits_bind with (Q := fun _ => missing).
  - unfold rasterize_line. cbv zeta.
    eapply exits_bind; [apply missing_self_tempdir | intros d].
    apply exits_assume with (phi := d = Some dir); [now intros ? [? _]|].
    intros ->.
    eapply exits_bind; [apply exits_get | intros st].
    assert (Hwrite : forall x, i <> k ->
              exits_under R missing (on_fs (write_png dir i x))
                (fun _ => missing)).
    { intros x Hne. apply exits_modify. intros st1 (Hdir & Hsvg & Hpng).
      destruct st1. unfold missing. simpl in *.
      now rewrite read_svg_write_png, read_png_write_png by assumption. }
    destruct (Nat.eq_dec i k) as [-> | Hne].
    + rewrite (Hline line) by (rewrite ?Nat.sub_diag; auto).
      apply exits_assume with (phi := read_svg dir k (fs st) = None).
      { now intros ? [-> [_ (_ & ? & _)]]. }
      intros ->.
      eapply exits_weaken with (P := missing) (Q := fun _ => missing);
        [|now intros ? [_ [_ ?]] | auto].
      destruct (svg2png_missing w); [apply missing_warn | apply exits_ret].
    + eapply exits_weaken with (P := missing) (Q := fun _ => missing);
        [|now intros ? [_ [_ ?]] | auto].
      destruct (str_eqb line (lit " ")); [now apply Hwrite|].
      destruct (read_svg dir i (fs st)) as [d|].
      * destruct (svg2png w d) as [e | [width height]];
          [apply missing_warn | now apply Hwrite].
      * destruct (svg2png_missing w); [apply missing_warn | apply exits_ret].
  - intros ?. apply IH. intros l Hle Hl. apply (Hline l); [lia|].
    destruct (Nat.eq_dec i k) as [-> | Hne].
    + replace (k - S k) with 0 in Hl by lia. lia.
    + replace (k - i) with (S (k - S i)) by lia. exact Hl.
Qed.

Lemma missing_compose line_spacing image_bounds use_image_placement n :
  forall i pasted,
    i <= k < i + n ->
    exits_under R missing
      (compose c line_spacing image_bounds use_image_placement i n pasted)
      (fun _ _ => False).
Proof.
  induction n as [|n IH]; intros i pasted Hk; [lia|].
  cbn [compose].
  eapply exits_bind; [apply missing_self_tempdir | intros d].
  apply exits_assume with (phi := d = Some dir); [now intros ? [? _]|].
  intros ->.
  eapply exits_bind; [apply exits_get | intros st].
  destruct (read_png dir i (fs st)) as [line_image|] eqn:E.
  - apply exits_assume with (phi := i <> k).
    { intros ? [-> [_ (_ & _ & Hpng)]] ->. congruence. }
    intros Hne.
    eapply exits_weaken with (P := missing) (Q := fun _ _ => False);
      [|now intros ? [_ [_ ?]] | auto].
    destruct (place_line _ _ _ _ _ _ _ _) as [x_pos y_pos]. apply IH. lia.
  - apply exits_raise. intros; exact I.
Qed.

(** When [Hand.write] raises on a line that is not blank, in a run that
    no other run interferes with, the run does not reach its end and
    writes no output file, in whatever way it stops. *)
Lemma failed_line_no_output st lines line :
  lookup_str dir (tempdirs (fs st)) = None ->
  prepare_lines (splitlines (text st)) (get_max_line_width (live c AtPrepare))
  = inr lines ->
  nth_error lines k = Some line ->
  str_eqb line (lit " ") = false ->
  snd (pipeline w c is_queue_item st) <> inr tt
  /\ outputs (fs (fst (pipeline w c is_queue_item st))) = outputs (fs st).
Proof.
  intros Hfresh Hprep Hline Hblank.
  set (P0 := fun st0 => lookup_str dir (tempdirs (fs st0)) = None
                        /\ text st0 = text st).
  assert (H : exits_under R P0 (pipeline w c is_queue_item)
                (fun _ _ => False)).
  { unfold pipeline.
    eapply exits_bind; [apply missing_check_cancel | intros ?].
    eapply exits_bind; [apply exits_get | intros st0].
    cbv zeta.
    apply exits_assume with (phi := text st0 = text st).
    { now intros ? [-> (_ & ?)]. }
    intros ->. rewrite Hprep.
    eapply exits_bind
      with (Q := fun _ st1 => tempdir st1 = Some dir
                              /\ lookup_str dir (tempdirs (fs st1)) = None).
    { apply exits_modify. intros st1 [_ [HP _]]. now destruct st1. }
    intros ?.
    eapply exits_bind
      with (Q := fun d st1 => d = Some dir
                              /\ lookup_str dir (tempdirs (fs st1)) = None
                              /\ tempdir st1 = Some dir).
    { intros st1 [Hd Hf]. rewrite self_tempdir_same by apply quiet.
      now rewrite Hd. }
    intros d.
    apply exits_assume with (phi := d = Some dir); [now intros ? [? _]|].
    intros ->.
    eapply exits_bind with (Q := fun _ => missing).
    { apply exits_modify. intros st1 (_ & Hf & Hd).
      destruct st1 as [? ? ? ? ? d ? ? ? ? ? files ?].
      unfold missing, read_svg, read_png, makedirs. cbn [fs tempdir] in *.
      rewrite Hf. cbn [fs set_fs tempdir tempdirs lookup_str].
      rewrite str_eqb_refl. cbn [svgs pngs lookup_nat]. auto. }
    intros ?.
    eapply exits_bind; [apply exits_ret_value | intros synthesized_lines].
    apply exits_assume with (phi := synthesized_lines = lines).
    { now intros ? [? _]. }
    intros ->.
    eapply exits_weaken with (P := missing) (Q := fun _ _ => False);
      [|now intros ? [_ ?] | auto].
    eapply exits_bind with (Q := fun _ => missing).
    { destruct (_ =? 0); [|apply exits_ret].
      apply exits_raise. intros; exact I. }
    intros ?.
    eapply exits_bind; [apply missing_synthesize | intros ?].
    eapply exits_bind.
    { apply missing_rasterize. intros l _. rewrite Nat.sub_0_r.
      rewrite Hline. now intros [= <-]. }
    intros ?.
    eapply exits_bind; [apply missing_check_cancel | intros ?].
    eapply exits_bind with (Q := fun _ => missing).
    { unfold place_image.
      destruct (truthy _) as [path|]; [|apply exits_ret].
      destruct (_ && _); [|apply exits_ret].
      destruct (open_placed_image w path); [|apply exits_ret].
      eapply exits_bind; [apply missing_warn | intros ?; apply exits_ret]. }
    intros picture.
    eapply exits_bind; [|intros ?; apply exits_false].
    apply missing_compose. split; [lia|].
    apply nth_error_Some. simpl. congruence. }
  assert (HP0 : P0 st) by (unfold P0; auto).
  specialize (H st HP0).
  assert (Hgo : snd (pipeline w c is_queue_item st) <> inr tt).
  { destruct (pipeline w c is_queue_item st) as [st' [s|a]]; simpl;
      [discriminate | destruct H]. }
  split; [exact Hgo | now apply stopped_keeps_outputs].
Qed.

End failed_line.

(** When [Hand.write] raises on a line that is not blank, in a run that
    no other run interferes with and whose directory is new, the run does
    not reach its end and writes no output file, in whatever way it
    stops: the raster of the line is never made, and the composition loop
    opens it all the same. *)
Theorem failed_line_stops_run :
  forall (w : World) (c : Controller) (is_queue_item : bool) (k : nat)
         (st : MyWindow) (lines : list str) (line : str),
    alone c ->
    (forall d, hand_write w k d <> None) ->
    lookup_str (tempdir_of w) (tempdirs (fs st)) = None ->
    prepare_lines (splitlines (text st))
      (get_max_line_width (live c AtPrepare)) = inr lines ->
    nth_error lines k = Some line ->
    str_eqb line (lit " ") = false ->
    snd (pipeline w c is_queue_item st) <> inr tt
    /\ outputs (fs (fst (pipeline w c is_queue_item st))) = outputs (fs st).
Proof.
  intros w c is_queue_item k st lines line Halone Hfails.
  exact (failed_line_no_output w c is_queue_item Halone k Hfails st lines line).
Qed.

(** [failed_line_stops_run] at the run of five lines in which the third
    fails. *)
Lemma failed_line_stops_run_witness :
  let r := pipeline (failing_on 2 (lit "AAAAAA")) (idle default_settings)
             false (set_text five_lines (new_window no_files)) in
  snd r <> inr tt /\ outputs (fs (fst r)) = [].
Proof.
  apply (failed_line_stops_run (failing_on 2 (lit "AAAAAA"))
           (idle default_settings) false 2
           (set_text five_lines (new_window no_files))
           [lit "one"; lit "two"; lit "three"; lit "four"; lit "five"]
           (lit "three")).
  - intros u. reflexivity.
  - intros d. discriminate.
  - reflexivity.
  - reflexivity.
  - reflexivity.
  - reflexivity.
Defined.

(** ** Settings read while the run is in progress *)

Lemma bind_ext {A B} (m1 m2 : M A) (k1 k2 : A -> M B) st :
  m1 st = m2 st -> (forall a st', k1 a st' = k2 a st') ->
  bind m1 k1 st = bind m2 k2 st.
Proof.
  intros Hm Hk. unfold bind. rewrite Hm.
  destruct (m2 st) as [st' [s|a]]; [reflexivity | apply Hk].
Qed.

Section same_reads.

Variable w : World.
Variables c1 c2 : Controller.
Variable is_queue_item : bool.
Variable next : M unit.

Hypothesis same_read : same_settings_read c1 c2.
Hypothesis same_cancel : forall p, cancel c1 p = cancel c2 p.
Hypothesis same_reassigned : forall u, reassigned c1 u = reassigned c2 u.

Lemma self_tempdir_eq u : self_tempdir c1 u = self_tempdir c2 u.
Proof. unfold self_tempdir. now rewrite same_reassigned. Qed.

Lemma check_cancel_eq p :
  check_cancel c1 is_queue_item p = check_cancel c2 is_queue_item p.
Proof.
  unfold check_cancel, bail_out. now rewrite same_cancel, self_tempdir_eq.
Qed.

Lemma synthesize_eq lines :
  forall i st,
    synthesize w c1 is_queue_item (live c1 AtPrepare) i lines st
    = synthesize w c2 is_queue_item (live c2 AtPrepare) i lines st.
Proof.
  destruct same_read as ((_ & Hleg & Hwidth) & Hsynth & _).
  cbv zeta in Hleg, Hwidth, Hsynth.
  induction lines as [|line lines IH]; intros i st; [reflexivity|].
  cbn [synthesize]. unfold synthesize_line.
  destruct (Hsynth i) as [Hstyle Hcolor].
  rewrite check_cancel_eq, self_tempdir_eq, Hleg, Hwidth, Hstyle, Hcolor.
  apply bind_ext; [reflexivity|]. intros _ st1.
  apply bind_ext; [reflexivity|]. intros _ st2. apply IH.
Qed.

Lemma rasterize_eq lines :
  forall i st,
    rasterize w c1 is_queue_item i lines st
    = rasterize w c2 is_queue_item i lines st.
Proof.
  induction lines as [|line lines IH]; intros i st; [reflexivity|].
  cbn [rasterize]. unfold rasterize_line.
  rewrite check_cancel_eq, self_tempdir_eq.
  apply bind_ext; [reflexivity|]. intros _ st1.
  apply bind_ext; [reflexivity|]. intros _ st2. apply IH.
Qed.

Lemma place_image_eq :
  place_image w (live c1 AtCombine) = place_image w (live c2 AtCombine).
Proof.
  destruct same_read
    as (_ & _ & (_ & Hen & Hpath & Hx & Hy & Hwd & Hht) & _).
  cbv zeta in Hen, Hpath, Hx, Hy, Hwd, Hht.
  unfold place_image. now rewrite Hen, Hpath, Hx, Hy, Hwd, Hht.
Qed.

Lemma compose_eq line_spacing image_bounds use_image_placement n :
  forall i pasted st,
    compose c1 line_spacing image_bounds use_image_placement i n pasted st
    = compose c2 line_spacing image_bounds use_image_placement i n pasted st.
Proof.
  destruct same_read as (_ & _ & _ & Hplace & _). cbv zeta in Hplace.
  induction n as [|n IH]; intros i pasted st; [reflexivity|].
  cbn [compose]. destruct (Hplace i) as [-> ->]. rewrite self_tempdir_eq.
  apply bind_ext; [reflexivity|]. intros dir st1.
  apply bind_ext; [reflexivity|]. intros st2 st3.
  destruct dir as [dir|]; [|reflexivity].
  destruct (read_png dir i (fs st2)) as [line_image|]; [|reflexivity].
  destruct (place_line _ _ _ _ _ _ _ _) as [x_pos y_pos]. apply IH.
Qed.

Lemma composite_background_eq :
  composite_background w (live c1 AtEncode)
  = composite_background w (live c2 AtEncode).
Proof.
  destruct same_read as (_ & _ & _ & _ & (Hty & Hcol & Hpath & _)).
  cbv zeta in Hty, Hcol, Hpath.
  unfold composite_background. now rewrite Hty, Hcol, Hpath.
Qed.

Lemma save_output_eq output_path page bg :
  save_output w (live c1 AtEncode) output_path page bg
  = save_output w (live c2 AtEncode) output_path page bg.
Proof.
  destruct same_read as (_ & _ & _ & _ & (_ & _ & _ & Hfmt & Hq)).
  cbv zeta in Hfmt, Hq.
  unfold save_output. now rewrite Hfmt, Hq.
Qed.

Lemma pipeline_eq st :
  pipeline w c1 is_queue_item st = pipeline w c2 is_queue_item st.
Proof.
  pose proof same_read as ((Hmax & _) & _ & (Hsp & Hen & _) & _).
  cbv zeta in Hmax, Hsp, Hen.
  unfold pipeline.
  rewrite !check_cancel_eq, !self_tempdir_eq, Hmax, Hsp, Hen,
    place_image_eq, composite_background_eq.
  repeat (apply bind_ext;
          [ first [ reflexivity | apply synthesize_eq | apply rasterize_eq
                  | apply compose_eq | now rewrite save_output_eq ]
          | intros ]).
  reflexivity.
Qed.

(** Two runs that read the same settings when they read them, see the
    same cancel flag and meet the same other runs do the same. *)
Lemma generate_writing_eq st :
  generate_writing w c1 is_queue_item next st
  = generate_writing w c2 is_queue_item next st.
Proof. unfold generate_writing. now rewrite pipeline_eq. Qed.

End same_reads.

(** A controller on which no setting changes holds at every moment what
    it held at the start. *)
Lemma unchanged_same_settings_read c :
  (forall p, live c p = live c AtStart) -> same_settings_read c (snapshot c).
Proof.
  intros H. unfold same_settings_read. cbn [live snapshot]. cbv zeta.
  repeat split; try (intros i); now rewrite H.
Qed.

(** ** A run in which nothing fails *)

Lemma lookup_write_svg d i x files :
  lookup_str d (tempdirs files) <> None ->
  lookup_str d (tempdirs (write_svg d i x files)) <> None.
Proof. apply has_dir_in_dir. Qed.

Lemma lookup_write_png d i x files :
  lookup_str d (tempdirs files) <> None ->
  lookup_str d (tempdirs (write_png d i x files)) <> None.
Proof. apply has_dir_in_dir. Qed.

Lemma read_svg_written d i x files :
  lookup_str d (tempdirs files) <> None ->
  read_svg d i (write_svg d i x files) = Some x.
Proof.
  intros H. unfold read_svg, write_svg. rewrite lookup_in_dir.
  destruct (lookup_str d (tempdirs files)); [|congruence].
  simpl. now rewrite Nat.eqb_refl.
Qed.

Lemma read_png_written d i x files :
  lookup_str d (tempdirs files) <> None ->
  read_png d i (write_png d i x files) = Some x.
Proof.
  intros H. unfold read_png, write_png. rewrite lookup_in_dir.
  destruct (lookup_str d (tempdirs files)); [|congruence].
  simpl. now rewrite Nat.eqb_refl.
Qed.

Section written.

Variable w : World.
Variable c : Controller.
Variable dir : str.

Lemma svgs_written_keeps lines :
  forall i files,
    outputs (svgs_written c dir i lines files) = outputs files
    /\ (lookup_str dir (tempdirs files) <> None ->
        lookup_str dir (tempdirs (svgs_written c dir i lines files)) <> None)
    /\ (forall j, j < i ->
          read_svg dir j (svgs_written c dir i lines files)
          = read_svg dir j files).
Proof.
  induction lines as [|line lines IH]; intros i files; [now simpl|].
  cbn [svgs_written].
  destruct (IH (S i) (write_svg dir i (drawing_of c i line) files))
    as (Hout & Hdir & Hold).
  repeat split.
  - rewrite Hout. unfold write_svg. apply outputs_in_dir.
  - intros H. now apply Hdir, lookup_write_svg.
  - intros j Hj. rewrite Hold by lia. apply read_svg_write_svg. lia.
Qed.

(** After the synthesis loop of a fair run every line has its drawing. *)
Lemma svgs_written_read lines :
  forall i files m line,
    lookup_str dir (tempdirs files) <> None ->
    nth_error lines m = Some line ->
    read_svg dir (i + m) (svgs_written c dir i lines files)
    = Some (drawing_of c (i + m) line).
Proof.
  induction lines as [|l lines IH]; intros i files m line Hdir Hm.
  - destruct m; discriminate.
  - cbn [svgs_written]. destruct m as [|m].
    + injection Hm as ->. rewrite Nat.add_0_r.
      destruct (svgs_written_keeps lines (S i)
                  (write_svg dir i (drawing_of c i line) files))
        as (_ & _ & Hold).
      rewrite Hold by lia. now apply read_svg_written.
    + replace (i + S m) with (S i + m) by lia.
      apply IH; [now apply lookup_write_svg | exact Hm].
Qed.

Lemma pngs_written_keeps lines :
  forall i files,
    outputs (pngs_written w c dir i lines files) = outputs files
    /\ (lookup_str dir (tempdirs files) <> None ->
        lookup_str dir (tempdirs (pngs_written w c dir i lines files))
        <> None)
    /\ (forall j, j < i ->
          read_png dir j (pngs_written w c dir i lines files)
          = read_png dir j files).
Proof.
  induction lines as [|line lines IH]; intros i files; [now simpl|].
  cbn [pngs_written].
  destruct (IH (S i) (write_png dir i (image_of w c i line) files))
    as (Hout & Hdir & Hold).
  repeat split.
  - rewrite Hout. unfold write_png. apply outputs_in_dir.
  - intros H. now apply Hdir, lookup_write_png.
  - intros j Hj. rewrite Hold by lia. apply read_png_write_png. lia.
Qed.

(** After the rasterization loop of a fair run every line has its
    raster. *)
Lemma pngs_written_read lines :
  forall i files m line,
    lookup_str dir (tempdirs files) <> None ->
    nth_error lines m = Some line ->
    read_png dir (i + m) (pngs_written w c dir i lines files)
    = Some (image_of w c (i + m) line).
Proof.
  induction lines as [|l lines IH]; intros i files m line Hdir Hm.
  - destruct m; discriminate.
  - cbn [pngs_written]. destruct m as [|m].
    + injection Hm as ->. rewrite Nat.add_0_r.
      destruct (pngs_written_keeps lines (S i)
                  (write_png dir i (image_of w c i line) files))
        as (_ & _ & Hold).
      rewrite Hold by lia. now apply read_png_written.
    + replace (i + S m) with (S i + m) by lia.
      apply IH; [now apply lookup_write_png | exact Hm].
Qed.

End written.

Section fair.

Variable w : World.
Variable c : Controller.
Variable is_queue_item : bool.
Variable st0 : MyWindow.

Hypothesis fair : fair_run w c.

Let dir := tempdir_of w.

Lemma on_fs_run_state f errs files :
  on_fs f (run_state st0 dir errs files)
  = (run_state st0 dir errs (f files), inr tt).
Proof. reflexivity. Qed.

Lemma warn_run_state msg errs files :
  warn msg (run_state st0 dir errs files)
  = (run_state st0 dir (errs ++ [msg]) files, inr tt).
Proof. reflexivity. Qed.

Lemma check_cancel_fair p st :
  check_cancel c is_queue_item p st = (st, inr tt).
Proof. apply check_cancel_false. apply fair. Qed.

Lemma self_tempdir_fair u errs files :
  self_tempdir c u (run_state st0 dir errs files)
  = (run_state st0 dir errs files, inr (Some dir)).
Proof.
  destruct fair as (_ & _ & _ & _ & Halone).
  now rewrite self_tempdir_same by apply Halone.
Qed.

Lemma synthesize_fair lines :
  forall i errs files,
    synthesize w c is_queue_item (live c AtPrepare) i lines
      (run_state st0 dir errs files)
    = (run_state st0 dir errs (svgs_written c dir i lines files), inr tt).
Proof.
  induction lines as [|line lines IH]; intros i errs files; [reflexivity|].
  cbn [synthesize svgs_written].
  rewrite (bind_ok _ _ _ _ tt (check_cancel_fair _ _)).
  assert (Hline : synthesize_line w c (live c AtPrepare) i line
                    (run_state st0 dir errs files)
                  = (run_state st0 dir errs
                       (write_svg dir i (drawing_of c i line) files), inr tt)).
  { unfold synthesize_line. cbv zeta.
    rewrite (bind_ok _ _ _ _ _ (self_tempdir_fair _ _ _)).
    destruct fair as (_ & Hwrite & _).
    fold (drawing_of c i line). now rewrite Hwrite. }
  rewrite (bind_ok _ _ _ _ tt Hline).
  apply IH.
Qed.

Lemma rasterize_fair lines :
  forall i errs files,
    (forall m line, nth_error lines m = Some line ->
       read_svg dir (i + m) files = Some (drawing_of c (i + m) line)) ->
    rasterize w c is_queue_item i lines (run_state st0 dir errs files)
    = (run_state st0 dir errs (pngs_written w c dir i lines files), inr tt).
Proof.
  induction lines as [|line lines IH]; intros i errs files Hsvg;
    [reflexivity|].
  cbn [rasterize pngs_written].
  rewrite (bind_ok _ _ _ _ tt (check_cancel_fair _ _)).
  assert (Hstep : rasterize_line w c i line (run_state st0 dir errs files)
                  = (run_state st0 dir errs
                       (write_png dir i (image_of w c i line) files), inr tt)).
  { unfold rasterize_line. cbv zeta.
    rewrite (bind_ok _ _ _ _ _ (self_tempdir_fair _ _ _)).
    rewrite (bind_ok _ _ _ (run_state st0 dir errs files)
               (run_state st0 dir errs files)) by reflexivity.
    unfold image_of. destruct (str_eqb line (lit " ")); [reflexivity|].
    change (fs (run_state st0 dir errs files)) with files.
    specialize (Hsvg 0 line eq_refl). rewrite Nat.add_0_r in Hsvg.
    rewrite Hsvg.
    destruct fair as (_ & _ & Hraster & _).
    destruct (Hraster (drawing_of c i line)) as ([width height] & ->).
    reflexivity. }
  rewrite (bind_ok _ _ _ _ tt Hstep).
  apply IH. intros m l Hm.
  rewrite read_svg_write_png.
  replace (S i + m) with (i + S m) by lia. now apply Hsvg.
Qed.

Lemma compose_fair lines :
  forall i pasted errs files,
    (forall m line, nth_error lines m = Some line ->
       read_png dir (i + m) files = Some (image_of w c (i + m) line)) ->
    compose c (lineheightscale (live c AtCombine))
      (option_map snd (picture_of w (live c AtCombine)))
      (image_enabled (live c AtCombine)) i (length lines) pasted
      (run_state st0 dir errs files)
    = (run_state st0 dir errs files,
       inr (pasted ++ placed_lines w c i lines)).
Proof.
  induction lines as [|line lines IH]; intros i pasted errs files Hpng.
  - simpl. now rewrite app_nil_r.
  - cbn [length compose placed_lines].
    rewrite (bind_ok _ _ _ _ _ (self_tempdir_fair _ _ _)).
    rewrite (bind_ok _ _ _ (run_state st0 dir errs files)
               (run_state st0 dir errs files)) by reflexivity.
    change (fs (run_state st0 dir errs files)) with files.
    pose proof (Hpng 0 line eq_refl) as H0. rewrite Nat.add_0_r in H0.
    rewrite H0.
    unfold placed_line at 1. cbv zeta.
    destruct (place_line _ _ _ _ _ _ _ _) as [x_pos y_pos].
    rewrite IH.
    + now rewrite <- app_assoc.
    + intros m l Hm. replace (S i + m) with (i + S m) by lia. now apply Hpng.
Qed.

Lemma place_image_fair errs files :
  place_image w (live c AtCombine) (run_state st0 dir errs files)
  = (run_state st0 dir (errs ++ picture_warning w (live c AtCombine)) files,
     inr (picture_of w (live c AtCombine))).
Proof.
  unfold place_image, picture_of, picture_warning.
  destruct (truthy _) as [path|]; [|now rewrite app_nil_r].
  destruct (_ && _); [|now rewrite app_nil_r].
  destruct (open_placed_image w path); [reflexivity | now rewrite app_nil_r].
Qed.

Lemma composite_background_fair errs files :
  composite_background w (live c AtEncode) (run_state st0 dir errs files)
  = (run_state st0 dir (errs ++ background_warning w (live c AtEncode)) files,
     inr (background_of w (live c AtEncode))).
Proof.
  unfold composite_background, background_of, background_warning.
  destruct (str_eqb _ (lit "transparent")); [now rewrite app_nil_r|].
  destruct (if str_eqb _ (lit "image") then _ else _) as [path|];
    [|now rewrite app_nil_r].
  destruct (open_background w path); [reflexivity | now rewrite app_nil_r].
Qed.

End fair.

Section fair_pipeline.

Variable w : World.
Variable c : Controller.
Variable is_queue_item : bool.
Variable st0 : MyWindow.
Variable lines : list str.

Hypothesis fair : fair_run w c.
Hypothesis prepared :
  prepare_lines (splitlines (text st0)) (get_max_line_width (live c AtPrepare))
  = inr lines.
Hypothesis some_line : lines <> [].
Hypothesis in_queue :
  is_queue_item = true -> current_queue_index st0 < length (text_queue st0).

Let dir := tempdir_of w.

Lemma file_suffix_fair errs files :
  file_suffix is_queue_item (run_state st0 dir errs files)
  = (run_state st0 dir errs files, inr (queue_suffix is_queue_item st0)).
Proof.
  unfold file_suffix, queue_suffix.
  rewrite (bind_ok _ _ _ (run_state st0 dir errs files)
             (run_state st0 dir errs files)) by reflexivity.
  destruct is_queue_item; [|reflexivity].
  change (text_queue (run_state st0 dir errs files)) with (text_queue st0).
  change (current_queue_index (run_state st0 dir errs files))
    with (current_queue_index st0).
  destruct (nth_error (text_queue st0) (current_queue_index st0)) eqn:E.
  - unfold suffix_of. now destruct (filter _ _).
  - apply nth_error_None in E. specialize (in_queue eq_refl). lia.
Qed.

Lemma save_output_fair s path page bg errs files :
  save_output w s path page bg (run_state st0 dir errs files)
  = (run_state st0 dir
       (errs ++ match saved_as w s, save w with
                | Some _, Some e => [lit "Saving output file: " ++ e]
                | _, _ => []
                end)
       (match saved_as w s, save w with
        | Some (ext, quality), None =>
            write_output (path ++ ext)
              {| doc_canvas := page; doc_background := bg;
                 doc_format := export_format s; doc_quality := quality |}
              files
        | _, _ => files
        end),
     inr (match saved_as w s, save w with
          | Some (ext, _), None => [path ++ ext]
          | _, _ => []
          end)).
Proof.
  unfold save_output, saved_as. cbv zeta.
  destruct (str_eqb (export_format s) (lit "png")).
  { destruct (save w); [reflexivity | now rewrite app_nil_r]. }
  destruct (str_eqb (export_format s) (lit "jpg")).
  { destruct (save w); [reflexivity | now rewrite app_nil_r]. }
  destruct (_ && _).
  { destruct (save w); [reflexivity | now rewrite app_nil_r]. }
  now rewrite app_nil_r.
Qed.

(** The files of the temporary directory when the lines are composed. *)
Let rasters : FileSystem :=
  pngs_written w c dir 0 lines
    (svgs_written c dir 0 lines (makedirs dir (fs st0))).

Let page : Canvas :=
  {| cv_height :=
       (400 + lineheightscale (live c AtCombine)
              * Z.of_nat (length lines))%Z;
     cv_picture := picture_of w (live c AtCombine);
     cv_lines := placed_lines w c 0 lines |}.

Let output_path : str :=
  lit "outputs/" ++ fileid w ++ queue_suffix is_queue_item st0.

(** The state in which the pipeline of a fair run ends. *)
Lemma pipeline_fair :
  pipeline w c is_queue_item st0
  = (let st :=
       set_fs
         (rmtree dir
            (match saved_as w (live c AtEncode), save w with
             | Some (ext, quality), None =>
                 write_output (output_path ++ ext)
                   {| doc_canvas := page;
                      doc_background := background_of w (live c AtEncode);
                      doc_format := export_format (live c AtEncode);
                      doc_quality := quality |}
                   rasters
             | _, _ => rasters
             end))
         (set_preview_info
            (Some (negb is_queue_item
                   || (current_queue_index st0 =? length (text_queue st0) - 1),
                   match saved_as w (live c AtEncode), save w with
                   | Some (ext, _), None => [output_path ++ ext]
                   | _, _ => []
                   end))
            (run_state st0 dir (_errors st0 ++ run_warnings w c) rasters)) in
     match _errors st0 ++ run_warnings w c with
     | [] => set_generatedialog false st
     | _ => st
     end, inr tt).
Proof.
  unfold pipeline.
  rewrite (bind_ok _ _ _ _ tt (check_cancel_fair w c is_queue_item fair _ _)).
  rewrite (bind_ok _ _ st0 st0 st0) by reflexivity.
  cbv zeta. fold dir.
  rewrite (bind_ok _ _ st0 (set_tempdir (Some dir) st0) tt) by reflexivity.
  assert (Halone : alone c) by apply fair.
  rewrite (bind_ok _ _ _ (set_tempdir (Some dir) st0) (Some dir))
    by (now rewrite self_tempdir_same by apply Halone).
  rewrite (bind_ok _ _ _
             (run_state st0 dir (_errors st0) (makedirs dir (fs st0))) tt)
    by reflexivity.
  rewrite prepared.
  rewrite (bind_ok _ _ _ _ lines eq_refl).
  assert (Hlen : (length lines =? 0) = false)
    by (apply Nat.eqb_neq; destruct lines; [congruence | discriminate]).
  rewrite Hlen.
  rewrite (bind_ok _ _ _ _ tt eq_refl).
  rewrite (bind_ok _ _ _ _ tt
             (synthesize_fair w c is_queue_item st0 fair lines 0 _ _)).
  assert (Hdir0 : lookup_str dir (tempdirs (makedirs dir (fs st0))) <> None)
    by apply has_dir_makedirs.
  rewrite (bind_ok _ _ _ _ tt
             (rasterize_fair w c is_queue_item st0 fair lines 0 _ _
                (fun m line Hm =>
                   svgs_written_read c dir lines 0 _ m line Hdir0 Hm))).
  fold rasters.
  rewrite (bind_ok _ _ _ _ tt (check_cancel_fair w c is_queue_item fair _ _)).
  rewrite (bind_ok _ _ _ _ _ (place_image_fair w c st0 _ _)).
  assert (Hdir1 : lookup_str dir
                    (tempdirs (svgs_written c dir 0 lines
                                 (makedirs dir (fs st0)))) <> None)
    by (now apply svgs_written_keeps).
  rewrite (bind_ok _ _ _ _ _
             (compose_fair w c st0 fair lines 0 [] _ rasters
                (fun m line Hm =>
                   pngs_written_read w c dir lines 0 _ m line Hdir1 Hm))).
  rewrite (bind_ok _ _ _ _ tt (check_cancel_fair w c is_queue_item fair _ _)).
  destruct fair as (_ & _ & _ & Htrim & _). rewrite Htrim.
  rewrite (bind_ok _ _ _ _ tt eq_refl).
  rewrite (bind_ok _ _ _ _ _ (file_suffix_fair _ _)).
  rewrite (bind_ok _ _ _ _ _ (composite_background_fair w c st0 _ _)).
  rewrite (bind_ok _ _ _ _ _ (save_output_fair _ _ _ _ _ _)).
  unfold run_warnings. rewrite <- !app_assoc. cbn [app].
  fold output_path. fold page.
  set (errs := _errors st0 ++ _).
  unfold self_tempdir. rewrite Halone.
  unfold bind, modify, on_fs, get, ret. cbn -[rmtree write_output].
  destruct errs; reflexivity.
Qed.

End fair_pipeline.


(** What the pipeline of a fair run has done when it ends. *)
Lemma pipeline_fair_result :
  forall (w : World) (c : Controller) (is_queue_item : bool) (st : MyWindow)
         (lines : list str),
    fair_run w c ->
    prepare_lines (splitlines (text st))
      (get_max_line_width (live c AtPrepare)) = inr lines ->
    lines <> [] ->
    (is_queue_item = true ->
     current_queue_index st < length (text_queue st)) ->
    let r := pipeline w c is_queue_item st in
    snd r = inr tt
    /\ outputs (fs (fst r))
       = output_of w c (queue_suffix is_queue_item st) lines
         ++ outputs (fs st)
    /\ _errors (fst r) = _errors st ++ run_warnings w c
    /\ lookup_str (tempdir_of w) (tempdirs (fs (fst r))) = None.
Proof.
  intros w c is_queue_item st lines Hfair Hprep Hne Hq r. unfold r.
  rewrite (pipeline_fair w c is_queue_item st lines Hfair Hprep Hne Hq).
  cbv zeta.
  assert (Hout : outputs
            (pngs_written w c (tempdir_of w) 0 lines
               (svgs_written c (tempdir_of w) 0 lines
                  (makedirs (tempdir_of w) (fs st)))) = outputs (fs st)).
  { destruct (pngs_written_keeps w c (tempdir_of w) lines 0
                (svgs_written c (tempdir_of w) 0 lines
                   (makedirs (tempdir_of w) (fs st)))) as (-> & _).
    destruct (svgs_written_keeps c (tempdir_of w) lines 0
                (makedirs (tempdir_of w) (fs st))) as (-> & _).
    apply outputs_makedirs. }
  set (rasters := pngs_written w c (tempdir_of w) 0 lines _) in *.
  clearbody rasters.
  assert (Hsaved : outputs
            match saved_as w (live c AtEncode), save w with
            | Some (ext, quality), None =>
                write_output
                  ((lit "outputs/" ++ fileid w
                    ++ queue_suffix is_queue_item st) ++ ext)
                  {| doc_canvas :=
                       {| cv_height :=
                            (400 + lineheightscale (live c AtCombine)
                                   * Z.of_nat (length lines))%Z;
                          cv_picture := picture_of w (live c AtCombine);
                          cv_lines := placed_lines w c 0 lines |};
                     doc_background := background_of w (live c AtEncode);
                     doc_format := export_format (live c AtEncode);
                     doc_quality := quality |}
                  rasters
            | _, _ => rasters
            end
          = output_of w c (queue_suffix is_queue_item st) lines
            ++ outputs (fs st)).
  { unfold output_of.
    destruct (saved_as w (live c AtEncode)) as [[ext quality]|];
      [|exact Hout].
    destruct (save w); [exact Hout|].
    cbn [outputs write_output app]. rewrite Hout, <- !app_assoc.
    reflexivity. }
  destruct (_errors st ++ run_warnings w c);
    (split; [reflexivity|]; split; [exact Hsaved|];
     split; [reflexivity | apply lookup_remove_str]).
Qed.

(** When nobody cancels and no collaborator of the line loops or of the
    trimming fails, a run of at least one line reaches its end.  It then
    has written the document of [output_of], with every line pasted in
    index order at its slot, in front of the output files that were there,
    or no file when the format is not handled or saving fails; it has
    recorded the warnings of [run_warnings] and no other; and it has
    removed its temporary directory. *)
Theorem fair_run_finishes :
  forall (w : World) (c : Controller) (is_queue_item : bool) (st : MyWindow)
         (lines : list str),
    fair_run w c ->
    prepare_lines (splitlines (text st))
      (get_max_line_width (live c AtPrepare)) = inr lines ->
    lines <> [] ->
    (is_queue_item = true ->
     current_queue_index st < length (text_queue st)) ->
    let r := pipeline w c is_queue_item st in
    snd r = inr tt
    /\ outputs (fs (fst r))
       = output_of w c (queue_suffix is_queue_item st) lines
         ++ outputs (fs st)
    /\ _errors (fst r) = _errors st ++ run_warnings w c
    /\ lookup_str (tempdir_of w) (tempdirs (fs (fst r))) = None.
Proof.
  intros w c is_queue_item st lines Hfair Hprep Hne Hq.
  exact (pipeline_fair_result w c is_queue_item st lines Hfair Hprep Hne Hq).
Qed.

(** [fair_run_finishes] at a direct run of five lines. *)
Lemma fair_run_finishes_witness :
  let r := pipeline (fair_world (lit "AAAAAA")) (idle default_settings) false
             (set_text five_lines (new_window no_files)) in
  snd r = inr tt
  /\ outputs (fs (fst r))
     = output_of (fair_world (lit "AAAAAA")) (idle default_settings) []
         [lit "one"; lit "two"; lit "three"; lit "four"; lit "five"]
       ++ []
  /\ _errors (fst r) = []
  /\ lookup_str (lit "handsynth-temp-AAAAAA") (tempdirs (fs (fst r))) = None.
Proof.
  apply (fair_run_finishes (fair_world (lit "AAAAAA")) (idle default_settings)
           false (set_text five_lines (new_window no_files))
           [lit "one"; lit "two"; lit "three"; lit "four"; lit "five"]).
  - repeat split; try reflexivity; intros d; now eexists.
  - reflexivity.
  - discriminate.
  - discriminate.
Defined.

(** ** A queue in which nothing fails *)

Section fair_queue.

Variable runs : nat -> World * Controller.


End fair_queue.



(** ** The settings a run reads *)

(** C9, as stated, at two runs of the same five lines that start under
    the default settings: in one of them the alignment is switched to
    right while the lines are synthesized, and its output differs from the
    output of the run in which nothing is changed after the start. *)
Lemma C9_counterexample :
  let st := set_text five_lines (new_window no_files) in
  let w := fair_world (lit "AAAAAA") in
  let changed := realigning default_settings in
  let unchanged := snapshot changed in
  live changed AtStart = live unchanged AtStart
  /\ (forall p, cancel changed p = cancel unchanged p)
  /\ outputs (fs (fst (generate_writing w changed false (ret tt) st)))
     <> outputs (fs (fst (generate_writing w unchanged false (ret tt) st))).
Proof.
  cbv zeta. split; [reflexivity|]. split; [reflexivity|].
  intros H. vm_compute in H. discriminate.
Qed.

(** C9, amended.  A run reads each setting at the moment it uses it.
    First, a run in which nothing fails writes the document of
    [output_of]: its lines are wrapped at the width and drawn with the
    sliders of [AtPrepare] and with the style and colour of [AtSynth i],
    they are placed with the spacing and the picture of [AtCombine] and
    with the alignment and the wrap style of [AtPlace i], over the
    background and in the format of [AtEncode].  Second, what the settings
    are at any other moment does not matter: two controllers that hold the
    same values at those reads give the same run.  So, third, when no
    setting is changed while the run is in progress, the run does what it
    would do on the settings captured at its start. *)
Theorem C9_settings_read_when_used :
  forall (w : World) (c : Controller) (is_queue_item : bool) (next : M unit)
         (st : MyWindow),
    (forall lines,
       fair_run w c ->
       prepare_lines (splitlines (text st))
         (get_max_line_width (live c AtPrepare)) = inr lines ->
       lines <> [] ->
       (is_queue_item = true ->
        current_queue_index st < length (text_queue st)) ->
       outputs (fs (fst (pipeline w c is_queue_item st)))
       = output_of w c (queue_suffix is_queue_item st) lines
         ++ outputs (fs st))
    /\ (forall c',
          same_settings_read c c' ->
          (forall p, cancel c p = cancel c' p) ->
          (forall u, reassigned c u = reassigned c' u) ->
          generate_writing w c is_queue_item next st
          = generate_writing w c' is_queue_item next st)
    /\ ((forall p, live c p = live c AtStart) ->
        generate_writing w c is_queue_item next st
        = generate_writing w (snapshot c) is_queue_item next st).
Proof.
  intros w c is_queue_item next st. split; [|split].
  - intros lines Hfair Hprep Hne Hq.
    apply (pipeline_fair_result w c is_queue_item st lines Hfair Hprep Hne Hq).
  - intros c' Hread Hcancel Hother.
    now apply generate_writing_eq.
  - intros Hsame. apply generate_writing_eq.
    + now apply unchanged_same_settings_read.
    + reflexivity.
    + reflexivity.
Qed.

(** C9 at the run of five lines in which the alignment is switched to
    right while the lines are synthesized: each line is pasted at the
    position of the alignment read when it is pasted, and a controller
    that differs from this one at the start of the run only gives the
    same run. *)
Lemma C9_witness :
  let w := fair_world (lit "AAAAAA") in
  let c := realigning default_settings in
  let st := set_text five_lines (new_window no_files) in
  map (fun l => fst (fst l))
    (flat_map (fun d => cv_lines (doc_canvas (snd d)))
       (outputs (fs (fst (pipeline w c false st)))))
  = [1940; 1940; 1900; 1920; 1920]%Z
  /\ generate_writing w c false (ret tt) st
     = generate_writing w
         {| live := fun p =>
                      match p with
                      | AtStart => with_orientation (lit "Middle")
                                     default_settings
                      | _ => live c p
                      end;
            cancel := cancel c;
            reassigned := reassigned c |} false (ret tt) st
  /\ generate_writing w (idle default_settings) false (ret tt) st
     = generate_writing w (snapshot (idle default_settings)) false (ret tt)
         st.
Proof.
  cbv zeta.
  destruct (C9_settings_read_when_used (fair_world (lit "AAAAAA"))
              (realigning default_settings) false (ret tt)
              (set_text five_lines (new_window no_files)))
    as (Hout & Hsame & _).
  destruct (C9_settings_read_when_used (fair_world (lit "AAAAAA"))
              (idle default_settings) false (ret tt)
              (set_text five_lines (new_window no_files)))
    as (_ & _ & Hsnap).
  split; [|split].
  - rewrite (Hout [lit "one"; lit "two"; lit "three"; lit "four"; lit "five"]).
    + reflexivity.
    + repeat split; try reflexivity; intros d; now eexists.
    + reflexivity.
    + discriminate.
    + discriminate.
  - apply Hsame.
    + unfold same_settings_read. cbv zeta. cbn [live realigning].
      repeat split.
    + reflexivity.
    + reflexivity.
  - apply Hsnap. reflexivity.
Defined.

(* ===================================================================== *)
(** * Further properties of the intake, the wrapping and the layout *)
(* ===================================================================== *)

(** ** The two intake paths *)

(** [add_to_queue] and [generate_dialog] refuse the same texts, with the
    same message, and keep the same text of the ones they accept: the
    queue gets one item more, built from the text a direct run would
    use. *)
Theorem intake_paths_agree :
  forall (auto_remove_invalid : bool) (inputtext name_var : str)
         (text_queue : list QueueItem),
    add_to_queue auto_remove_invalid inputtext name_var text_queue
    = match generate_dialog_text auto_remove_invalid inputtext with
      | inl e => inl e
      | inr text =>
          inr (text_queue ++ [new_QueueItem text (strip name_var)])
      end.
Proof.
  intros auto inputtext name_var text_queue.
  unfold add_to_queue, generate_dialog_text. cbv zeta.
  destruct (length (join (split (lower_QX inputtext))) =? 0); [reflexivity|].
  destruct auto; cbn [negb]; [reflexivity|].
  now destruct (first_invalid (lower_QX inputtext)).
Qed.



(** ** The lines handed to the synthesis *)

(** What [split_string] returns for a positive width. *)
Lemma split_string_fits (line : str) (max_width : Z) :
  (0 < max_width)%Z ->
  exists sublines,
    split_string line max_width = inr sublines
    /\ (forall subline,
          In subline sublines -> (Z.of_nat (length subline) <= max_width)%Z)
    /\ visible (concat sublines) = visible line.
Proof.
  intros Hw.
  unfold split_string, textwrap.wrap, textwrap._wrap_chunks.
  assert (Hpos : (max_width <=? 0)%Z = false) by (apply Z.leb_gt; lia).
  rewrite Hpos. eexists. split; [reflexivity|].
  assert (H1 : 1 <= Z.to_nat max_width) by lia.
  pose proof (wrap_loop_spec (Z.to_nat max_width) H1
                (textwrap.weight
                   (textwrap._split (textwrap._munge_whitespace line)))
                [] (textwrap._split (textwrap._munge_whitespace line))
                (Nat.le_refl _)) as Hspec.
  destruct Hspec as [Hfit Hdone]; [intros ? []|].
  split.
  - intros subline Hin. specialize (Hfit subline Hin). lia.
  - etransitivity; [exact (wrap_loop_visible _ _ _ _ Hdone)|].
    cbn [concat app].
    now rewrite split_concat, visible_munge.
Qed.

Lemma max_line_width_bound (s : Settings) :
  (linewidthscale s <= get_max_line_width s)%Z.
Proof. unfold get_max_line_width. destruct (custom_width_var s); lia. Qed.

Lemma prepare_lines_spec (s : Settings) (lines : list str) :
  (0 < linewidthscale s)%Z ->
  exists synthesized_lines,
    prepare_lines lines (get_max_line_width s) = inr synthesized_lines
    /\ (forall line,
          In line synthesized_lines ->
          (Z.of_nat (length line) <= get_max_line_width s)%Z)
    /\ visible (concat synthesized_lines) = visible (concat lines).
Proof.
  intros Hscale.
  pose proof (max_line_width_bound s) as Hmax.
  set (max_width := get_max_line_width s) in *.
  induction lines as [|line lines (more & Emore & Hfit & Hvis)].
  - exists []. split; [reflexivity|]. split; [intros ? []|reflexivity].
  - cbn [prepare_lines]. rewrite Emore.
    destruct (max_width <? Z.of_nat (length line))%Z eqn:Elong.
    + destruct (split_string_fits line max_width ltac:(lia))
        as (sublines & -> & Hsub & Hsame).
      exists (sublines ++ more). split; [reflexivity|]. split.
      * intros l Hin. apply in_app_or in Hin. destruct Hin; auto.
      * cbn [concat]. now rewrite concat_app, !visible_app, Hsame, Hvis.
    + apply Z.ltb_ge in Elong.
      eexists. split; [reflexivity|]. split.
      * intros l [<- | Hin]; [|now apply Hfit].
        destruct line; [cbn; lia | exact Elong].
      * cbn [concat app]. rewrite !visible_app, Hvis.
        now destruct line.
Qed.

(** With the slider at a positive width, whatever the custom width holds,
    the preparation of the lines (lines 1676-1685) never raises; none of
    the lines it hands to the synthesis is longer than the maximal line
    width, and together they hold the characters of the text that are not
    whitespace, all of them and in order. *)
Theorem prepared_lines_fit :
  forall (s : Settings) (lines : list str),
    (0 < linewidthscale s)%Z ->
    exists synthesized_lines,
      prepare_lines lines (get_max_line_width s) = inr synthesized_lines
      /\ (forall line,
            In line synthesized_lines ->
            (Z.of_nat (length line) <= get_max_line_width s)%Z)
      /\ visible (concat synthesized_lines) = visible (concat lines).
Proof.
  intros s lines Hscale. now apply prepare_lines_spec.
Qed.

(** [prepared_lines_fit] at the default settings and a line of sixty
    characters. *)
Lemma prepared_lines_fit_witness :
  exists synthesized_lines,
    prepare_lines
      [lit "the quick brown fox jumps over the lazy dog and runs far away"]
      42
    = inr synthesized_lines
    /\ (forall line,
          In line synthesized_lines -> (Z.of_nat (length line) <= 42)%Z)
    /\ visible (concat synthesized_lines)
       = visible
           (concat
              [lit "the quick brown fox jumps over the lazy dog and runs far away"]).
Proof.
  apply (prepared_lines_fit default_settings
           [lit "the quick brown fox jumps over the lazy dog and runs far away"]).
  reflexivity.
Defined.

Lemma linebreak_isspace (ch : ascii) :
  is_linebreak ch = true -> py_isspace ch = true.
Proof.
  destruct ch as [[] [] [] [] [] [] [] []]; vm_compute; auto.
Qed.

Lemma splitlines_from_visible (s : str) :
  forall (after_cr : bool) (cur : str),
    visible (concat (splitlines_from after_cr cur s))
    = visible (rev cur ++ s).
Proof.
  induction s as [|ch s IH]; intros after_cr cur.
  - cbn [splitlines_from]. rewrite app_nil_r.
    destruct cur as [|x cur]; [reflexivity|].
    cbn [concat]. now rewrite app_nil_r.
  - cbn [splitlines_from].
    destruct (after_cr && Ascii.eqb ch (chr 10)) eqn:Ecr.
    + apply andb_true_iff in Ecr. destruct Ecr as [_ Ecr].
      apply Ascii.eqb_eq in Ecr. subst ch.
      rewrite IH, !visible_app. reflexivity.
    + destruct (is_linebreak ch) eqn:Ebreak.
      * apply linebreak_isspace in Ebreak.
        cbn [concat]. rewrite !visible_app, IH.
        cbn [rev app visible filter]. now rewrite Ebreak.
      * rewrite IH. cbn [rev]. now rewrite <- app_assoc.
Qed.

Lemma splitlines_visible (s : str) :
  visible (concat (splitlines s)) = visible s.
Proof. exact (splitlines_from_visible s false []). Qed.

(** A text the intake accepts as it stands, with the automatic removal
    off, always leaves the preparation at least one line when the slider
    is at a positive width: line 1687 does not divide by zero. *)
Theorem accepted_text_has_lines :
  forall (inputtext text : str) (s : Settings),
    generate_dialog_text false inputtext = inr text ->
    (0 < linewidthscale s)%Z ->
    exists line more,
      prepare_lines (splitlines text) (get_max_line_width s)
      = inr (line :: more).
Proof.
  intros inputtext text s Haccepted Hscale.
  assert (Hvis : visible text <> []).
  { unfold generate_dialog_text in Haccepted. cbv zeta in Haccepted.
    rewrite join_split in Haccepted.
    fold (visible (lower_QX inputtext)) in Haccepted.
    destruct (length (visible (lower_QX inputtext)) =? 0) eqn:Elen;
      [discriminate|].
    apply Nat.eqb_neq in Elen. cbn [negb] in Haccepted.
    destruct (first_invalid (lower_QX inputtext)); [discriminate|].
    injection Haccepted as <-.
    intros H. rewrite H in Elen. now apply Elen. }
  destruct (prepare_lines_spec s (splitlines text) Hscale)
    as (synthesized_lines & -> & _ & Hsame).
  rewrite splitlines_visible in Hsame.
  destruct synthesized_lines as [|line more]; [|now eauto].
  now rewrite <- Hsame in Hvis.
Qed.

(** [accepted_text_has_lines] at the text "hello world" and the default
    settings. *)
Lemma accepted_text_has_lines_witness :
  exists line more,
    prepare_lines (splitlines (lit "hello world" ++ newline))
      (get_max_line_width default_settings)
    = inr (line :: more).
Proof.
  apply (accepted_text_has_lines (lit "hello world" ++ newline)
           (lit "hello world" ++ newline) default_settings).
  - reflexivity.
  - reflexivity.
Defined.

(** When the preparation leaves no line, line 1687 divides by zero: the
    run ends with that exception before the first line, with no output
    file, and the directory it has just created stays on disk.  The
    automatic removal lets such a text through: an invalid character
    followed by a blank line longer than the maximal width is accepted,
    and what remains of it wraps to nothing. *)
Theorem no_line_crashes_run :
  forall (w : World) (c : Controller) (is_queue_item : bool) (next : M unit)
         (st : MyWindow),
    cancel c PollInit = false ->
    reassigned c ToCreate = None ->
    prepare_lines (splitlines (text st))
      (get_max_line_width (live c AtPrepare)) = inr [] ->
    let r := generate_writing w c is_queue_item next st in
    snd r = inl (Raised ZeroDivisionError)
    /\ outcomes (fst r) = outcomes st ++ [Crashed ZeroDivisionError]
    /\ outputs (fs (fst r)) = outputs (fs st)
    /\ has_dir (tempdir_of w) (fst r)
    /\ generatebutton (fst r) = generatebutton st
    /\ generatedialog (fst r) = generatedialog st.
Proof.
  intros w c is_queue_item next st Hcancel Hsame Hprep r.
  assert (Hrun : pipeline w c is_queue_item st
                 = (set_fs (makedirs (tempdir_of w) (fs st))
                      (set_tempdir (Some (tempdir_of w)) st),
                    inl (Raised ZeroDivisionError))).
  { unfold pipeline.
    rewrite (bind_ok _ _ st st tt) by (now apply check_cancel_false).
    rewrite (bind_ok _ _ st st st) by reflexivity.
    cbv zeta. rewrite Hprep.
    rewrite (bind_ok _ _ st (set_tempdir (Some (tempdir_of w)) st) tt)
      by reflexivity.
    rewrite (bind_ok _ _ _ _ _ (self_tempdir_same c _ _ Hsame)).
    reflexivity. }
  unfold r, generate_writing. rewrite Hrun.
  unfold has_dir. destruct st. cbn -[makedirs tempdir_of].
  rewrite outputs_makedirs.
  repeat split. apply has_dir_makedirs.
Qed.

(** [no_line_crashes_run] at a direct run on the text the intake makes,
    with the automatic removal on, of an at sign and fifty blanks. *)
Lemma no_line_crashes_run_witness :
  generate_dialog_text true (lit "@" ++ repeat " "%char 50 ++ newline)
  = inr (repeat " "%char 50 ++ newline)
  /\
  let r := generate_writing (fair_world (lit "AAAAAA")) (idle default_settings)
             false (ret tt)
             (set_text (repeat " "%char 50 ++ newline)
                (new_window no_files)) in
  snd r = inl (Raised ZeroDivisionError)
  /\ outcomes (fst r) = [Crashed ZeroDivisionError]
  /\ outputs (fs (fst r)) = []
  /\ has_dir (lit "handsynth-temp-AAAAAA") (fst r)
  /\ generatebutton (fst r) = true
  /\ generatedialog (fst r) = false.
Proof.
  split; [reflexivity|].
  apply (no_line_crashes_run (fair_world (lit "AAAAAA"))
           (idle default_settings) false (ret tt)
           (set_text (repeat " "%char 50 ++ newline) (new_window no_files))).
  - reflexivity.
  - reflexivity.
  - vm_compute. reflexivity.
Defined.

(** ** The pasted position of a line beside the picture *)

Lemma int_le (x : Q) (n : Z) : (x <= inject_Z n)%Q -> (int x <= n)%Z.
Proof.
  destruct x as [p q]. unfold Qle, int. cbn [Qnum Qden inject_Z].
  intros H.
  pose proof (Z.quot_rem' p (Zpos q)) as E.
  destruct (Z_lt_le_dec p 0) as [Hneg | Hpos].
  - pose proof (Z.rem_bound_pos_neg p (Zpos q) ltac:(lia) ltac:(lia)). nia.
  - pose proof (Z.rem_bound_pos p (Zpos q) Hpos ltac:(lia)). nia.
Qed.

Lemma int_ge (x : Q) (n : Z) : (inject_Z n <= x)%Q -> (n <= int x)%Z.
Proof.
  destruct x as [p q]. unfold Qle, int. cbn [Qnum Qden inject_Z].
  intros H.
  pose proof (Z.quot_rem' p (Zpos q)) as E.
  destruct (Z_lt_le_dec p 0) as [Hneg | Hpos].
  - pose proof (Z.rem_bound_pos_neg p (Zpos q) ltac:(lia) ltac:(lia)). nia.
  - pose proof (Z.rem_bound_pos p (Zpos q) Hpos ltac:(lia)). nia.
Qed.

Lemma Qltb_false (a b : Q) : Qltb a b = false -> (b <= a)%Q.
Proof.
  unfold Qltb. intros H. apply negb_false_iff in H.
  now apply Qle_bool_iff.
Qed.

(** A line pasted in the vertical band of the picture never covers it:
    whatever the alignment, the wrap style and the width of the line, its
    pasted extent ends at or before the picture's left edge or starts at or
    after its right edge.  Nothing keeps that position on the page. *)
Theorem line_clears_picture :
  forall (line_spacing : Z) (orientation wrap_style : str)
         (img_left img_top img_right img_bottom : Z) (i : nat)
         (line_width line_height : Z),
    let y_pos := (line_spacing * (Z.of_nat i + 1))%Z in
    let x_pos :=
      int (fst (place_line line_spacing orientation wrap_style
                  (Some (img_left, img_top, img_right, img_bottom)) true i
                  line_width line_height)) in
    (img_top <= y_pos + line_height)%Z ->
    (y_pos <= img_bottom)%Z ->
    (x_pos + line_width <= img_left)%Z \/ (img_right <= x_pos)%Z.
Proof.
  intros line_spacing orientation wrap_style img_left img_top img_right
    img_bottom i line_width line_height y_pos x_pos Htop Hbottom.
  unfold x_pos, place_line. fold y_pos.
  assert (Hband : (img_top <=? y_pos + line_height)%Z
                  && (y_pos <=? img_bottom)%Z = true).
  { apply andb_true_iff. split; apply Z.leb_le; assumption. }
  rewrite Hband. cbn [fst].
  set (x := default_x orientation line_width).
  destruct (Qltb x (inject_Z img_right)) eqn:Eright; cbn [andb].
  - destruct (Qltb (inject_Z img_left) (x + inject_Z line_width)) eqn:Eleft.
    + unfold reposition.
      assert (Hl : (int (inject_Z (img_left - line_width - 20))
                    + line_width <= img_left)%Z).
      { pose proof (int_le (inject_Z (img_left - line_width - 20))
                      (img_left - line_width - 20) (Qle_refl _)). lia. }
      assert (Hr : (img_right <= int (inject_Z (img_right + 20)))%Z).
      { pose proof (int_ge (inject_Z (img_right + 20)) (img_right + 20)
                      (Qle_refl _)). lia. }
      destruct (str_eqb wrap_style (lit "left")); [now left|].
      destruct (str_eqb wrap_style (lit "right")); [now right|].
      destruct (2000 - img_right <? img_left)%Z; [now left | now right].
    + left. apply Qltb_false in Eleft.
      assert (Hx : (x <= inject_Z (img_left - line_width))%Q).
      { unfold Z.sub. rewrite inject_Z_plus, inject_Z_opp.
        apply Qplus_le_l with (z := inject_Z line_width).
        eapply Qle_trans; [exact Eleft|].
        apply Qle_lteq. right. ring. }
      apply int_le in Hx. lia.
  - right. apply Qltb_false in Eright. now apply int_ge.
Qed.

(** [line_clears_picture] at a centred line 1001 pixels wide, third line,
    beside a picture spanning x in [1500, 1800] and y in [200, 500]: the
    line is pasted at x = 499 and ends at the picture's left edge. *)
Lemma line_clears_picture_witness :
  (int (fst (place_line 100 (lit "Middle") (lit "both")
               (Some (1500, 200, 1800, 500)%Z) true 2 1001 120)) + 1001
   <= 1500)%Z
  \/ (1800
      <= int (fst (place_line 100 (lit "Middle") (lit "both")
                     (Some (1500, 200, 1800, 500)%Z) true 2 1001 120)))%Z.
Proof.
  apply (line_clears_picture 100 (lit "Middle") (lit "both")
           1500 200 1800 500 2 1001 120).
  - vm_compute. discriminate.
  - vm_compute. discriminate.
Defined.

(** ** The name of the output file of a queue item *)

Lemma digits_safe (u : Decimal.uint) :
  Forall (fun ch => safe_char ch = true)
    (lit (DecimalString.NilEmpty.string_of_uint u)).
Proof.
  induction u; cbn; constructor; auto.
Qed.

Lemma suffix_of_safe (index : nat) (item : QueueItem) :
  Forall (fun ch => safe_char ch = true) (suffix_of index item).
Proof.
  unfold suffix_of.
  assert (Hkept : Forall (fun ch => safe_char ch = true)
                    (filter (fun ch => py_isalnum ch || char_in ch (lit "-_ "))
                       (qi_name item))).
  { apply Forall_forall. intros ch Hin. apply filter_In in Hin.
    exact (proj2 Hin). }
  destruct (filter _ (qi_name item)) as [|ch safe_name].
  - apply Forall_app. split.
    + repeat constructor.
    + apply digits_safe.
  - constructor; [reflexivity | exact Hkept].
Qed.

(** The suffix a queue run appends to the name of its output file
    (lines 1787-1791) is never empty, starts with a hyphen and holds only
    letters, digits, hyphens, underscores and blanks, whatever name the
    item was given: no slash, backslash or dot of the name reaches the
    path, so the file stays in [outputs/] and keeps its extension. *)
Theorem file_suffix_is_safe :
  forall (is_queue_item : bool) (st : MyWindow) (item : QueueItem),
    is_queue_item = true ->
    nth_error (text_queue st) (current_queue_index st) = Some item ->
    exists suffix,
      file_suffix is_queue_item st = (st, inr (lit "-" ++ suffix))
      /\ Forall (fun ch => safe_char ch = true) suffix
      /\ suffix <> []
      /\ ~ In "/"%char suffix /\ ~ In (chr 92) suffix /\ ~ In "."%char suffix.
Proof.
  intros is_queue_item st item -> Hitem.
  assert (Hsafe := suffix_of_safe (current_queue_index st) item).
  assert (Hrun : file_suffix true st
                 = (st, inr (suffix_of (current_queue_index st) item))).
  { unfold file_suffix, bind, get, ret. rewrite Hitem.
    unfold suffix_of. now destruct (filter _ (qi_name item)). }
  rewrite Hrun.
  assert (Hshape : exists suffix,
             suffix_of (current_queue_index st) item = lit "-" ++ suffix
             /\ suffix <> []).
  { unfold suffix_of.
    destruct (filter _ (qi_name item)) as [|ch safe_name].
    - eexists. split; [reflexivity|]. discriminate.
    - eexists. split; [reflexivity|]. discriminate. }
  destruct Hshape as (suffix & Eq & Hne).
  exists suffix. rewrite Eq in *. split; [reflexivity|].
  inversion Hsafe as [|? ? _ Hrest]; subst.
  assert (Hnot : forall ch, safe_char ch = false -> ~ In ch suffix).
  { intros ch Hch Hin.
    rewrite Forall_forall in Hrest. specialize (Hrest ch Hin). congruence. }
  repeat split; try assumption; apply Hnot; reflexivity.
Qed.

(** [file_suffix_is_safe] at an item named after a path. *)
Lemma file_suffix_is_safe_witness :
  exists suffix,
    file_suffix true
      (set_text_queue [new_QueueItem (lit "abc") (lit "../notes/to do.v2")]
         (new_window no_files))
    = (set_text_queue [new_QueueItem (lit "abc") (lit "../notes/to do.v2")]
         (new_window no_files),
       inr (lit "-" ++ suffix))
    /\ Forall (fun ch => safe_char ch = true) suffix
    /\ suffix <> []
    /\ ~ In "/"%char suffix /\ ~ In (chr 92) suffix /\ ~ In "."%char suffix.
Proof.
  apply (file_suffix_is_safe true
           (set_text_queue [new_QueueItem (lit "abc") (lit "../notes/to do.v2")]
              (new_window no_files))
           (new_QueueItem (lit "abc") (lit "../notes/to do.v2"))).
  - reflexivity.
  - reflexivity.
Defined.
